(** * Voice-room session orchestration: server stores, signaling handlers,
      client capability fetch and speaking-state tracker.

    The development embeds
      - the signaling server (Express / Socket.IO / mediasoup back end):
        its seven global stores, the connection handler with its
        suspension point inside [createRoom], and the socket handlers;
      - the client's [loadRouterRtpCapabilities] retry loop and the
        [setupAudioLevelDetection] polling callback;
      - the client's session object, its asynchronous methods one
        [await] at a time, and the participant list of the room page
        with React's batched state updates.

    JavaScript [Map]s are insertion-ordered and the server iterates over
    them, so they are modelled by the ordered association lists of
    [JsMap].  Objects that are shared by reference (room objects, peer
    objects, media-engine handles) live in explicit heaps and the stores
    hold references.  Numbers handled by the speaking tracker are IEEE
    doubles and are modelled by primitive floats. *)

From Stdlib Require Import List String Bool Arith NArith ZArith Lia Floats.
Import ListNotations.
Local Open Scope string_scope.
Local Open Scope list_scope.

Set Implicit Arguments.

(* ================================================================== *)
(** * Part I: definitions *)
(* ================================================================== *)

(** ** Keys with decidable equality *)

Class EqDec (K : Type) := eq_dec : forall a b : K, {a = b} + {a <> b}.

#[export] Instance nat_EqDec : EqDec nat := Nat.eq_dec.
#[export] Instance string_EqDec : EqDec string := string_dec.

(** ** JavaScript [Map]: an insertion-ordered finite map.
    [set] on a present key keeps the key's position, on an absent key
    appends; iteration visits entries in list order. *)

Module JsMap.
Section Ops.
Context {K V : Type} `{EqDec K}.

Definition t := list (K * V).

Definition empty : t := [].

Fixpoint get (k : K) (m : t) : option V :=
match m with
| [] => None
| (k', v) :: m' => if eq_dec k k' then Some v else get k m'
end.

Definition has (k : K) (m : t) : bool :=
match get k m with Some _ => true | None => false end.

Fixpoint set (k : K) (v : V) (m : t) : t :=
match m with
| [] => [(k, v)]
| (k', v') :: m' =>
    if eq_dec k k' then (k, v) :: m' else (k', v') :: set k v m'
end.

Fixpoint delete (k : K) (m : t) : t :=
match m with
| [] => []
| (k', v') :: m' =>
    if eq_dec k k' then m' else (k', v') :: delete k m'
end.

Definition size (m : t) : nat := List.length m.

Definition keys (m : t) : list K := map fst m.

Definition values (m : t) : list V := map snd m.

(** First entry of the iteration order: what
  [for (const [, v] of m) { x = v; break; }] leaves in [x]. *)
Definition first_value (m : t) : option V :=
match m with
| [] => None
| (_, v) :: _ => Some v
end.

(** In-place update of every value (mutation of the stored objects). *)
Definition map_values (f : V -> V) (m : t) : t :=
map (fun kv => (fst kv, f (snd kv))) m.

End Ops.
Arguments t : clear implicits.
End JsMap.

(* ------------------------------------------------------------------ *)
(** ** Client side: speaking-state tracker ([setupAudioLevelDetection]) *)
(* ------------------------------------------------------------------ *)

Module Tracker.

(** [private speakingThreshold: number = -50] *)
Definition speakingThreshold : float := (-50)%float.

(** The [speaking] message put on the socket. *)
Record SpeakingMsg := {
  msg_roomId : string;
  msg_peerId : string;
  msg_speaking : bool
}.

(** State read and written by the interval callback: the analyser
    field of the client object and the closure variable [speaking]. *)
Record State := {
  audioAnalyser : bool;   (* [this.audioAnalyser] is non-null *)
  speaking : bool         (* [let speaking = false] *)
}.

Definition initial : State :=
  {| audioAnalyser := true; speaking := false |}.

(** [const isSpeaking = decibels > this.speakingThreshold] *)
Definition isSpeaking (decibels : float) : bool :=
  PrimFloat.ltb speakingThreshold decibels.

Section Client.
Variables (roomId peerId : string).

(** The message emitted on a transition to [b]. *)
Definition say (b : bool) : SpeakingMsg :=
  {| msg_roomId := roomId; msg_peerId := peerId; msg_speaking := b |}.

(** The body of the interval callback from the point where
    [decibels] is known:
    [if (isSpeaking !== speaking) { speaking = isSpeaking; emit }]. *)
Definition detect (st : State) (decibels : float)
  : State * list SpeakingMsg :=
  if negb (audioAnalyser st) then (st, [])
  else
    let is_speaking := isSpeaking decibels in
    if Bool.eqb is_speaking (speaking st) then (st, [])
    else
      ({| audioAnalyser := audioAnalyser st; speaking := is_speaking |},
       [ {| msg_roomId := roomId; msg_peerId := peerId;
            msg_speaking := is_speaking |} ]).

(** Successive firings of the interval, one level per firing;
    returns the final state and the messages in emission order. *)
Fixpoint feed (st : State) (levels : list float)
  : State * list SpeakingMsg :=
  match levels with
  | [] => (st, [])
  | d :: rest =>
      let '(st1, out1) := detect st d in
      let '(st2, out2) := feed st1 rest in
      (st2, out1 ++ out2)
  end.

Section Decibels.
(** [Math.log10] is a primitive of the host. *)
Variable log10 : float -> float.

Definition float_of_nat (n : nat) : float :=
  PrimFloat.of_uint63 (Uint63.of_Z (Z.of_nat n)).

(** [sum / dataArray.length], then
    [average === 0 ? -90 : 20 * Math.log10(average / 255)]. *)
Definition decibels_of (dataArray : list nat) : float :=
  let sum := fold_left Nat.add dataArray 0 in
  let average :=
    PrimFloat.div (float_of_nat sum)
                  (float_of_nat (List.length dataArray)) in
  if PrimFloat.eqb average 0%float then (-90)%float
  else PrimFloat.mul 20%float
         (log10 (PrimFloat.div average 255%float)).

Definition on_interval (st : State) (dataArray : list nat)
  : State * list SpeakingMsg :=
  if negb (audioAnalyser st) then (st, [])
  else detect st (decibels_of dataArray).
End Decibels.
End Client.

End Tracker.

(* ------------------------------------------------------------------ *)
(** ** Client side: capability fetch ([loadRouterRtpCapabilities]) *)
(* ------------------------------------------------------------------ *)

Module CapFetch.

(** What the acknowledgement callback is called with. *)
Inductive Response :=
| Falsy                           (* [if (response)] fails *)
| ErrorResponse (msg : string)    (* an object whose [error] is [msg] *)
| Capabilities (caps : string).   (* any other object *)

(** Behaviour of the server for one emitted request: it either never
    acknowledges, or acknowledges [delay] ms after the emit. *)
Inductive Reply :=
| Silent
| Ack (delay : N) (r : Response).

(** [resolve(response)] hands over the response itself. *)
Inductive Promise :=
| Pending
| Resolved (response : Response)
| Rejected (msg : string) (at_ms : N).

Record State := {
  now : N;               (* ms since the promise executor ran *)
  attempts : nat;        (* [let attempts = 0] *)
  timeoutArmed : bool;   (* the 20 s timer has neither fired nor
                            been cleared *)
  promise : Promise
}.

Definition timeoutDuration : N := 20000.
Definition maxAttempts : nat := 3.
Definition retryDelay : N := 1000.

Definition timeoutMessage : string :=
  "Timeout getting router capabilities - server did not respond in time".
Definition exhaustedMessage : string :=
  "Failed to get router capabilities after multiple attempts".

(** A promise settles once; later [resolve]/[reject] calls are ignored. *)
Definition settle (p : Promise) (st : State) : State :=
  match promise st with
  | Pending =>
      {| now := now st; attempts := attempts st;
         timeoutArmed := timeoutArmed st; promise := p |}
  | _ => st
  end.

Definition clearTimeout (st : State) : State :=
  {| now := now st; attempts := attempts st;
     timeoutArmed := false; promise := promise st |}.

(** The timer callback: [reject(new Error('Timeout ...'))]. *)
Definition fire_timeout (st : State) : State :=
  if timeoutArmed st
  then settle (Rejected timeoutMessage timeoutDuration) (clearTimeout st)
  else st.

(** Let the clock run up to [t]; the 20 s timer fires on the way if it
    is still armed and due. *)
Definition advance (t : N) (st : State) : State :=
  let st' := if N.leb timeoutDuration t then fire_timeout st else st in
  {| now := t; attempts := attempts st';
     timeoutArmed := timeoutArmed st'; promise := promise st' |}.

(** Nothing else is scheduled: only the timer, if armed, can still run. *)
Definition quiesce (st : State) : State := fire_timeout st.

Definition bump (st : State) : State :=
  {| now := now st; attempts := S (attempts st);
     timeoutArmed := timeoutArmed st; promise := promise st |}.

(** [attemptGetCapabilities], driven by the server's behaviour for this
    and the following emits. A script that runs out stands for a
    server that stays silent. *)
Fixpoint attemptGetCapabilities (script : list Reply) (st : State)
  : State :=
  let st := bump st in
  match script with
  | [] | Silent :: _ => quiesce st
  | Ack delay response :: rest =>
      let st := advance (now st + delay)%N st in
      match response with
      | Falsy =>
          if Nat.ltb (attempts st) maxAttempts
          then attemptGetCapabilities rest
                 (advance (now st + retryDelay)%N st)
          else quiesce
                 (settle (Rejected exhaustedMessage (now st))
                         (clearTimeout st))
      | ErrorResponse msg =>
          let st := clearTimeout st in
          (* [if (response.error)]: the empty string is falsy *)
          if String.eqb msg ""
          then quiesce (settle (Resolved response) st)
          else if Nat.ltb (attempts st) maxAttempts
          then attemptGetCapabilities rest
                 (advance (now st + retryDelay)%N st)
          else quiesce (settle (Rejected msg (now st)) st)
      | Capabilities caps =>
          quiesce (settle (Resolved response) (clearTimeout st))
      end
  end.

Definition start : State :=
  {| now := 0; attempts := 0; timeoutArmed := true; promise := Pending |}.

(** The promise executor: arm the timer, make the first attempt. *)
Definition loadRouterRtpCapabilities (script : list Reply) : State :=
  attemptGetCapabilities script start.

End CapFetch.


(* ------------------------------------------------------------------ *)
(** ** Server side: the media engine as the server drives it *)
(* ------------------------------------------------------------------ *)

(** The engine (mediasoup) is an external collaborator.  The server only
    holds handles to its objects and calls a handful of methods on them.
    The model keeps the engine's objects in tables, performs the state
    change each call asks for, and leaves every decision the engine
    takes on its own (whether a call is rejected, whether a router can
    consume a producer) to a [Policy]. *)

Module Engine.

(** Engine objects are named by the engine's own generated ids. *)
Abbreviation ObjId := nat (only parsing).

(** Opaque payloads passed through unchanged. *)
Abbreviation RtpParameters := string (only parsing).
Abbreviation RtpCapabilities := string (only parsing).
Abbreviation DtlsParameters := string (only parsing).

Record Router := { router_id : ObjId }.

Record Transport := {
  transport_id : ObjId;
  transport_router : ObjId;
  transport_announcedIp : string;
  transport_connected : bool;
  transport_closed : bool
}.

Record Producer := {
  producer_id : ObjId;
  producer_transport : ObjId;
  producer_kind : string;
  producer_rtpParameters : RtpParameters;
  producer_closed : bool
}.

Record Consumer := {
  consumer_id : ObjId;
  consumer_transport : ObjId;
  consumer_producerId : ObjId;
  consumer_kind : string;
  consumer_rtpParameters : RtpParameters;
  consumer_paused : bool;
  consumer_closed : bool
}.

Record State := {
  routers : JsMap.t ObjId Router;
  transports : JsMap.t ObjId Transport;
  producers : JsMap.t ObjId Producer;
  consumers : JsMap.t ObjId Consumer;
  next_id : ObjId
}.

Definition initial : State :=
  {| routers := JsMap.empty; transports := JsMap.empty;
     producers := JsMap.empty; consumers := JsMap.empty; next_id := 0 |}.

(** The calls the server makes that may be rejected. *)
Inductive Call :=
| CreateRouter
| CreateWebRtcTransport (router : ObjId) (announcedIp : string)
| Connect (transport : ObjId) (dtls : DtlsParameters)
| Produce (transport : ObjId) (kind : string) (rtp : RtpParameters)
| Consume (transport producer : ObjId) (caps : RtpCapabilities)
          (paused : bool)
| Resume (consumer : ObjId).

Record Policy := {
  (** [Some msg]: the call throws [new Error(msg)]. *)
  rejects : Call -> State -> option string;
  (** [router.canConsume({ producerId, rtpCapabilities })] *)
  canConsume : ObjId -> ObjId -> RtpCapabilities -> State -> bool;
  (** The parameters the engine gives a new consumer; it derives them
      from the producer and the receiver's capabilities. *)
  consumerParameters : Producer -> RtpCapabilities -> RtpParameters
}.

(** An engine that rejects no call of its own accord and hands a
    consumer the producer's parameters. *)
Definition permissive : Policy :=
  {| rejects := fun _ _ => None; canConsume := fun _ _ _ _ => true;
     consumerParameters := fun p _ => producer_rtpParameters p |}.

Section WithPolicy.
Variable pol : Policy.

(** [worker.createRouter({ mediaCodecs })] *)
Definition createRouter (e : State) : (string + ObjId) * State :=
  match rejects pol CreateRouter e with
  | Some msg => (inl msg, e)
  | None =>
      let id := next_id e in
      (inr id,
       {| routers := JsMap.set id {| router_id := id |} (routers e);
          transports := transports e; producers := producers e;
          consumers := consumers e; next_id := S id |})
  end.

(** [router.createWebRtcTransport(settings)] *)
Definition createWebRtcTransport (router : ObjId) (ip : string)
           (e : State) : (string + ObjId) * State :=
  match rejects pol (CreateWebRtcTransport router ip) e with
  | Some msg => (inl msg, e)
  | None =>
      let id := next_id e in
      (inr id,
       {| routers := routers e;
          transports :=
            JsMap.set id
              {| transport_id := id; transport_router := router;
                 transport_announcedIp := ip;
                 transport_connected := false;
                 transport_closed := false |} (transports e);
          producers := producers e; consumers := consumers e;
          next_id := S id |})
  end.

(** [transport.connect({ dtlsParameters })] *)
Definition connect (t : ObjId) (dtls : DtlsParameters) (e : State)
  : (string + unit) * State :=
  match rejects pol (Connect t dtls) e with
  | Some msg => (inl msg, e)
  | None =>
      match JsMap.get t (transports e) with
      | None => (inl "transport closed", e)
      | Some tr =>
          (inr tt,
           {| routers := routers e;
              transports :=
                JsMap.set t
                  {| transport_id := transport_id tr;
                     transport_router := transport_router tr;
                     transport_announcedIp := transport_announcedIp tr;
                     transport_connected := true;
                     transport_closed := transport_closed tr |}
                  (transports e);
              producers := producers e; consumers := consumers e;
              next_id := next_id e |})
      end
  end.

(** [transport.produce({ kind, rtpParameters })] *)
Definition produce (t : ObjId) (kind : string) (rtp : RtpParameters)
           (e : State) : (string + ObjId) * State :=
  match rejects pol (Produce t kind rtp) e with
  | Some msg => (inl msg, e)
  | None =>
      let id := next_id e in
      (inr id,
       {| routers := routers e; transports := transports e;
          producers :=
            JsMap.set id
              {| producer_id := id; producer_transport := t;
                 producer_kind := kind;
                 producer_rtpParameters := rtp;
                 producer_closed := false |} (producers e);
          consumers := consumers e; next_id := S id |})
  end.

(** [transport.consume({ producerId, rtpCapabilities, paused })]:
    the new consumer takes its kind from the producer, gets the
    parameters the engine derives for it, and starts in the state
    [paused] asks for. *)
Definition consume (t producerId : ObjId) (caps : RtpCapabilities)
           (paused : bool) (e : State)
  : (string + Consumer) * State :=
  match rejects pol (Consume t producerId caps paused) e with
  | Some msg => (inl msg, e)
  | None =>
      match JsMap.get producerId (producers e) with
      | None => (inl "Producer not found", e)
      | Some p =>
          let id := next_id e in
          let c :=
            {| consumer_id := id; consumer_transport := t;
               consumer_producerId := producerId;
               consumer_kind := producer_kind p;
               consumer_rtpParameters := consumerParameters pol p caps;
               consumer_paused := paused;
               consumer_closed := false |} in
          (inr c,
           {| routers := routers e; transports := transports e;
              producers := producers e;
              consumers := JsMap.set id c (consumers e);
              next_id := S id |})
      end
  end.

(** [consumer.resume()]: the engine refuses it on a consumer that is
    closed, whatever else it decides. *)
Definition resume (c : ObjId) (e : State) : (string + unit) * State :=
  match rejects pol (Resume c) e with
  | Some msg => (inl msg, e)
  | None =>
      match JsMap.get c (consumers e) with
      | None => (inl "consumer closed", e)
      | Some co =>
          if consumer_closed co then (inl "consumer closed", e)
          else
          (inr tt,
           {| routers := routers e; transports := transports e;
              producers := producers e;
              consumers :=
                JsMap.set c
                  {| consumer_id := consumer_id co;
                     consumer_transport := consumer_transport co;
                     consumer_producerId := consumer_producerId co;
                     consumer_kind := consumer_kind co;
                     consumer_rtpParameters := consumer_rtpParameters co;
                     consumer_paused := false;
                     consumer_closed := consumer_closed co |}
                  (consumers e);
              next_id := next_id e |})
      end
  end.
End WithPolicy.

Definition close_producer (p : Producer) : Producer :=
  {| producer_id := producer_id p;
     producer_transport := producer_transport p;
     producer_kind := producer_kind p;
     producer_rtpParameters := producer_rtpParameters p;
     producer_closed := true |}.

Definition close_consumer (c : Consumer) : Consumer :=
  {| consumer_id := consumer_id c;
     consumer_transport := consumer_transport c;
     consumer_producerId := consumer_producerId c;
     consumer_kind := consumer_kind c;
     consumer_rtpParameters := consumer_rtpParameters c;
     consumer_paused := consumer_paused c;
     consumer_closed := true |}.

Definition producer_on (t : ObjId) (ps : JsMap.t ObjId Producer)
           (pid : ObjId) : bool :=
  match JsMap.get pid ps with
  | Some p => Nat.eqb (producer_transport p) t
  | None => false
  end.

(** [transport.close()]: never throws; closes the transport, the
    producers and consumers attached to it, and the consumers that
    consume one of those producers. *)
Definition close (t : ObjId) (e : State) : State :=
  {| routers := routers e;
     transports :=
       JsMap.map_values
         (fun tr =>
            if Nat.eqb (transport_id tr) t
            then {| transport_id := transport_id tr;
                    transport_router := transport_router tr;
                    transport_announcedIp := transport_announcedIp tr;
                    transport_connected := transport_connected tr;
                    transport_closed := true |}
            else tr) (transports e);
     producers :=
       JsMap.map_values
         (fun p => if Nat.eqb (producer_transport p) t
                   then close_producer p else p) (producers e);
     consumers :=
       JsMap.map_values
         (fun c =>
            if Nat.eqb (consumer_transport c) t
               || producer_on t (producers e) (consumer_producerId c)
            then close_consumer c else c) (consumers e);
     next_id := next_id e |}.

Definition consumer_paused_in (e : State) (c : ObjId) : bool :=
  match JsMap.get c (consumers e) with
  | Some co => consumer_paused co
  | None => false
  end.

(** The consumer exists and is not paused. *)
Definition consumer_active_in (e : State) (c : ObjId) : bool :=
  match JsMap.get c (consumers e) with
  | Some co => negb (consumer_paused co)
  | None => false
  end.


Definition transport_connected_in (e : State) (t : ObjId) : bool :=
  match JsMap.get t (transports e) with
  | Some tr => transport_connected tr
  | None => false
  end.

End Engine.

(* ------------------------------------------------------------------ *)
(** ** Server side: stores, heaps and the effect monad *)
(* ------------------------------------------------------------------ *)

Module Server.
Import Engine.

Abbreviation SocketId := string (only parsing).
Abbreviation RoomRef := nat (only parsing).

(** [room.recordings] entries; the byte stream itself is not modelled. *)
Record Recording := { rec_room : string; rec_peer : string }.

(** The object built by [createRoom]. Peer objects are referred to by
    the socket that owns them. *)
Record Room := {
  room_id : string;
  room_router : ObjId;
  room_peers : JsMap.t string SocketId;
  room_recordings : JsMap.t ObjId Recording
}.

(** The [peer] object of the connection handler. *)
Record Peer := {
  peer_id : string;
  peer_transports : JsMap.t ObjId ObjId;
  peer_producers : JsMap.t ObjId ObjId;
  peer_consumers : JsMap.t ObjId ObjId;
  peer_clientIp : string
}.

Record User := {
  user_id : string;
  user_name : string;
  user_isSpeaking : bool
}.

(** The module-level stores ([// Stores]). Media handles are the
    engine ids of the objects they point to. *)
Record Stores := {
  workers : nat;
  rooms : JsMap.t string RoomRef;
  peers : JsMap.t SocketId SocketId;
  transports : JsMap.t ObjId ObjId;
  producers : JsMap.t ObjId ObjId;
  consumers : JsMap.t ObjId ObjId;
  users : JsMap.t string User
}.

(** Objects reached through references, and the one mutable setting
    ([mediasoupSettings.webRtcTransport.listenIps[0].announcedIp],
    shared by the shallow copy in [createWebRtcTransport]). *)
Record Heap := {
  room_objs : JsMap.t RoomRef Room;
  peer_objs : JsMap.t SocketId Peer;
  announcedIp : option string
}.

(** Closure environment of the handlers registered on one socket. *)
Record Conn := {
  conn_roomId : string;
  conn_peerId : string;
  conn_clientIp : string;
  conn_room : RoomRef
}.

(** A connection handler suspended at [await createRoom(roomId)],
    with the outcome of [worker.createRouter] it will resume with. *)
Record Pending := {
  pend_roomId : string;
  pend_peerId : string;
  pend_clientIp : string;
  pend_router : string + ObjId
}.

Inductive Error :=
| NoWorkers                          (* No MediaSoup workers available *)
| RoomNotInitialized                 (* Room or router not initialized *)
| TransportNotFound (id : ObjId)     (* Transport <id> not found *)
| ProducerNotFound (id : ObjId)      (* Producer <id> not found *)
| CannotConsume (id : ObjId)         (* Router cannot consume ... *)
| NoTransportAvailable               (* No transport available ... *)
| ConsumerNotFound (id : ObjId)      (* Consumer <id> not found *)
| RecordingNotFound                  (* Recording not found *)
| EngineError (msg : string)         (* thrown by an engine call *)
| HostError (msg : string)           (* thrown by a file-system call *)
| TypeError (event : string).        (* destructuring a null payload *)

(** Argument of an acknowledgement callback. *)
Inductive Payload :=
| RouterCapabilities (router : ObjId)
| TransportCreated (transportId : ObjId)
| Success
| ProducerCreated (id : ObjId)
| ConsumerCreated (id producerId : ObjId) (kind : string)
                  (rtpParameters : RtpParameters)
| ErrorPayload (e : Error).

(** Server-push events. *)
Inductive Push :=
| UserJoined (u : User)
| Users (l : list User)
| UserSpeaking (peerId : string) (speaking : bool)
| NewProducer (peerId : string) (producerId : ObjId) (kind : string)
| PeerDisconnected (peerId : string)
| UserLeft (peerId : string).

(** What leaves the server, in order. *)
Inductive Output :=
| Ack (sock : SocketId) (p : Payload)
| Deliver (to : SocketId) (ev : Push)
| Uncaught (sock : SocketId) (e : Error).

(** Socket.IO side: registered handlers, suspended connection
    handlers, room membership set by [socket.join], output so far. *)
Record Net := {
  conns : JsMap.t SocketId Conn;
  pending : JsMap.t SocketId Pending;
  joined : JsMap.t SocketId string;
  out : list Output
}.

Record World := {
  stores : Stores;
  heap : Heap;
  net : Net;
  engine : Engine.State
}.

Definition initial (numWorkers : nat) : World :=
  {| stores := {| workers := numWorkers; rooms := JsMap.empty;
                  peers := JsMap.empty; transports := JsMap.empty;
                  producers := JsMap.empty; consumers := JsMap.empty;
                  users := JsMap.empty |};
     heap := {| room_objs := JsMap.empty; peer_objs := JsMap.empty;
                announcedIp := None |};
     net := {| conns := JsMap.empty; pending := JsMap.empty;
               joined := JsMap.empty; out := [] |};
     engine := Engine.initial |}.

(** *** Field updates *)

Definition upd_stores (f : Stores -> Stores) (w : World) : World :=
  {| stores := f (stores w); heap := heap w; net := net w;
     engine := engine w |}.
Definition upd_heap (f : Heap -> Heap) (w : World) : World :=
  {| stores := stores w; heap := f (heap w); net := net w;
     engine := engine w |}.
Definition upd_net (f : Net -> Net) (w : World) : World :=
  {| stores := stores w; heap := heap w; net := f (net w);
     engine := engine w |}.
Definition upd_engine (f : Engine.State -> Engine.State) (w : World)
  : World :=
  {| stores := stores w; heap := heap w; net := net w;
     engine := f (engine w) |}.

Definition upd_rooms f :=
  upd_stores (fun s =>
    {| workers := workers s; rooms := f (rooms s); peers := peers s;
       transports := transports s; producers := producers s;
       consumers := consumers s; users := users s |}).
Definition upd_peers f :=
  upd_stores (fun s =>
    {| workers := workers s; rooms := rooms s; peers := f (peers s);
       transports := transports s; producers := producers s;
       consumers := consumers s; users := users s |}).
Definition upd_transports f :=
  upd_stores (fun s =>
    {| workers := workers s; rooms := rooms s; peers := peers s;
       transports := f (transports s); producers := producers s;
       consumers := consumers s; users := users s |}).
Definition upd_producers f :=
  upd_stores (fun s =>
    {| workers := workers s; rooms := rooms s; peers := peers s;
       transports := transports s; producers := f (producers s);
       consumers := consumers s; users := users s |}).
Definition upd_consumers f :=
  upd_stores (fun s =>
    {| workers := workers s; rooms := rooms s; peers := peers s;
       transports := transports s; producers := producers s;
       consumers := f (consumers s); users := users s |}).
Definition upd_users f :=
  upd_stores (fun s =>
    {| workers := workers s; rooms := rooms s; peers := peers s;
       transports := transports s; producers := producers s;
       consumers := consumers s; users := f (users s) |}).

Definition upd_room_objs f :=
  upd_heap (fun h =>
    {| room_objs := f (room_objs h); peer_objs := peer_objs h;
       announcedIp := announcedIp h |}).
Definition upd_peer_objs f :=
  upd_heap (fun h =>
    {| room_objs := room_objs h; peer_objs := f (peer_objs h);
       announcedIp := announcedIp h |}).
Definition set_announcedIp (ip : option string) :=
  upd_heap (fun h =>
    {| room_objs := room_objs h; peer_objs := peer_objs h;
       announcedIp := ip |}).

Definition upd_conns f :=
  upd_net (fun n =>
    {| conns := f (conns n); pending := pending n; joined := joined n;
       out := out n |}).
Definition upd_pending f :=
  upd_net (fun n =>
    {| conns := conns n; pending := f (pending n); joined := joined n;
       out := out n |}).
Definition upd_joined f :=
  upd_net (fun n =>
    {| conns := conns n; pending := pending n; joined := f (joined n);
       out := out n |}).
Definition log (o : list Output) :=
  upd_net (fun n =>
    {| conns := conns n; pending := pending n; joined := joined n;
       out := out n ++ o |}).

(** *** Effects: state that survives a throw, and [try]/[catch] *)

Inductive result (A : Type) :=
| Ok (a : A)
| Throw (e : Error).
Arguments Ok {A} a.
Arguments Throw {A} e.

Definition M (A : Type) := World -> result A * World.

Definition ret {A} (a : A) : M A := fun w => (Ok a, w).

Definition bind {A B} (m : M A) (k : A -> M B) : M B :=
  fun w =>
    match m w with
    | (Ok a, w') => k a w'
    | (Throw e, w') => (Throw e, w')
    end.

Definition throw {A} (e : Error) : M A := fun w => (Throw e, w).

Definition try_catch (body : M unit) (handler : Error -> M unit)
  : M unit :=
  fun w =>
    match body w with
    | (Ok u, w') => (Ok u, w')
    | (Throw e, w') => handler e w'
    end.

Definition gets {A} (f : World -> A) : M A := fun w => (Ok (f w), w).

Definition modify (f : World -> World) : M unit :=
  fun w => (Ok tt, f w).

Notation "x <- c1 ;; c2" := (bind c1 (fun x => c2))
  (at level 61, c1 at next level, right associativity).
Notation "c1 ;; c2" := (bind c1 (fun _ => c2))
  (at level 61, right associativity).

(** An awaited engine call: a rejected promise is a throw. *)
Definition engine_call {A}
           (op : Engine.State -> (string + A) * Engine.State) : M A :=
  fun w =>
    match op (engine w) with
    | (inr a, e') => (Ok a, upd_engine (fun _ => e') w)
    | (inl msg, e') => (Throw (EngineError msg), upd_engine (fun _ => e') w)
    end.

(** [callback(payload)] *)
Definition callback (sock : SocketId) (p : Payload) : M unit :=
  modify (log [Ack sock p]).

(** [socket.emit(ev)] *)
Definition emit_self (sock : SocketId) (ev : Push) : M unit :=
  modify (log [Deliver sock ev]).

(** Sockets that [socket.to(roomId)] reaches: members of the room
    other than the sender. *)
Definition recipients (sock : SocketId) (roomId : string) (w : World)
  : list SocketId :=
  map fst
      (filter (fun sr => String.eqb (snd sr) roomId
                         && negb (String.eqb (fst sr) sock))
              (joined (net w))).

(** [socket.to(roomId).emit(ev)] *)
Definition emit_to_room (sock : SocketId) (roomId : string) (ev : Push)
  : M unit :=
  modify (fun w =>
    log (map (fun s => Deliver s ev) (recipients sock roomId w)) w).

(** Dereferencing the closure variables [room] and [peer]. Both are
    bound to an object for the whole life of the handlers, so the
    dereference is total; the fallback values are never reached from a
    registered handler (lemma [registered_handler_has_its_objects]). *)
Definition the_room (c : Conn) (w : World) : Room :=
  match JsMap.get (conn_room c) (room_objs (heap w)) with
  | Some r => r
  | None => {| room_id := conn_roomId c; room_router := 0;
               room_peers := JsMap.empty;
               room_recordings := JsMap.empty |}
  end.

Definition the_peer (sock : SocketId) (c : Conn) (w : World) : Peer :=
  match JsMap.get sock (peer_objs (heap w)) with
  | Some p => p
  | None => {| peer_id := conn_peerId c; peer_transports := JsMap.empty;
               peer_producers := JsMap.empty;
               peer_consumers := JsMap.empty;
               peer_clientIp := conn_clientIp c |}
  end.

(** Mutation of the room / peer object behind a reference. *)
Definition mutate_room (c : Conn) (f : Room -> Room) : M unit :=
  modify (fun w =>
    upd_room_objs (JsMap.set (conn_room c) (f (the_room c w))) w).

Definition mutate_peer (sock : SocketId) (c : Conn) (f : Peer -> Peer)
  : M unit :=
  modify (fun w =>
    upd_peer_objs (JsMap.set sock (f (the_peer sock c w))) w).

Definition add_transport (t : ObjId) (p : Peer) : Peer :=
  {| peer_id := peer_id p;
     peer_transports := JsMap.set t t (peer_transports p);
     peer_producers := peer_producers p;
     peer_consumers := peer_consumers p;
     peer_clientIp := peer_clientIp p |}.

Definition add_producer (x : ObjId) (p : Peer) : Peer :=
  {| peer_id := peer_id p;
     peer_transports := peer_transports p;
     peer_producers := JsMap.set x x (peer_producers p);
     peer_consumers := peer_consumers p;
     peer_clientIp := peer_clientIp p |}.

Definition add_consumer (x : ObjId) (p : Peer) : Peer :=
  {| peer_id := peer_id p;
     peer_transports := peer_transports p;
     peer_producers := peer_producers p;
     peer_consumers := JsMap.set x x (peer_consumers p);
     peer_clientIp := peer_clientIp p |}.

Definition upd_room_peers f (r : Room) : Room :=
  {| room_id := room_id r; room_router := room_router r;
     room_peers := f (room_peers r);
     room_recordings := room_recordings r |}.

Definition upd_room_recordings f (r : Room) : Room :=
  {| room_id := room_id r; room_router := room_router r;
     room_peers := room_peers r;
     room_recordings := f (room_recordings r) |}.

(** *** Requests a client can send on a connected socket *)

Inductive Request :=
| GetRouterRtpCapabilities
| JoinRoom (userId username roomId : string)
| Speaking (roomId peerId : string) (speaking : bool)
| CreateWebRtcTransportReq (sender : bool)
| ConnectWebRtcTransport (transportId : ObjId) (dtls : DtlsParameters)
| ProduceReq (transportId : ObjId) (kind : string)
             (rtpParameters : RtpParameters)
| ConsumeReq (producerId : ObjId) (rtpCapabilities : RtpCapabilities)
             (transportId : ObjId)
| ResumeConsumer (consumerId : ObjId)
| StopRecording (producerId : ObjId).

(** The handlers registered with a second [callback] parameter. *)
Definition carries_callback (r : Request) : bool :=
  match r with
  | JoinRoom _ _ _ | Speaking _ _ _ => false
  | _ => true
  end.

(** *** The host the handlers run on *)

(** What the server code cannot decide by itself: the media engine's
    verdicts, and whether [fs.createWriteStream] accepts the path built
    from the room id and the peer id ([Some msg]: it throws). *)
Record Host := {
  media : Policy;
  createWriteStream : string -> string -> option string
}.

Definition permissive_host : Host :=
  {| media := Engine.permissive; createWriteStream := fun _ _ => None |}.

(** *** Handlers *)

Section Handlers.
Variable host : Host.
Variable sock : SocketId.
Variable c : Conn.

(** [socket.on('getRouterRtpCapabilities', (data, callback) => ...)] *)
Definition on_getRouterRtpCapabilities : M unit :=
  try_catch
    (r <- gets (fun w => JsMap.get (conn_room c) (room_objs (heap w))) ;;
     match r with
     | None => throw RoomNotInitialized
     | Some room => callback sock (RouterCapabilities (room_router room))
     end)
    (fun e => callback sock (ErrorPayload e)).

(** [socket.on('joinRoom', ({ userId, username, roomId }) => ...)];
    the [roomId] used for the broadcast is the payload's. *)
Definition on_joinRoom (userId username roomId : string) : M unit :=
  let user := {| user_id := userId; user_name := username;
                 user_isSpeaking := false |} in
  modify (upd_users (JsMap.set userId user)) ;;
  emit_to_room sock roomId (UserJoined user) ;;
  room <- gets (the_room c) ;;
  all <- gets (fun w => JsMap.values (users (stores w))) ;;
  emit_self sock
    (Users (filter (fun u => JsMap.has (user_id u) (room_peers room))
                   all)).

(** [socket.on('speaking', ({ roomId, peerId, speaking }) => ...)] *)
Definition on_speaking (roomId peerId : string) (speaking : bool)
  : M unit :=
  u <- gets (fun w => JsMap.get peerId (users (stores w))) ;;
  match u with
  | Some user =>
      modify (upd_users
                (JsMap.set peerId
                   {| user_id := user_id user;
                      user_name := user_name user;
                      user_isSpeaking := speaking |}))
  | None => ret tt
  end ;;
  emit_to_room sock roomId (UserSpeaking peerId speaking).

(** [async function createWebRtcTransport(router, clientIp)] *)
Definition createWebRtcTransport (router : ObjId) (clientIp : string)
  : M ObjId :=
  a <- gets (fun w => announcedIp (heap w)) ;;
  match a with
  | None =>
      modify (set_announcedIp
                (Some (if String.eqb clientIp ""
                       then "127.0.0.1" else clientIp)))
  | Some _ => ret tt
  end ;;
  ip <- gets (fun w => match announcedIp (heap w) with
                       | Some ip => ip
                       | None => ""
                       end) ;;
  engine_call (Engine.createWebRtcTransport (media host) router ip).

(** [socket.on('createWebRtcTransport', async ({ sender }, callback))];
    [sender] is only logged. *)
Definition on_createWebRtcTransport (sender : bool) : M unit :=
  try_catch
    (room <- gets (the_room c) ;;
     peer <- gets (the_peer sock c) ;;
     t <- createWebRtcTransport (room_router room) (peer_clientIp peer) ;;
     mutate_peer sock c (add_transport t) ;;
     modify (upd_transports (JsMap.set t t)) ;;
     callback sock (TransportCreated t))
    (fun e => callback sock (ErrorPayload e)).

(** [socket.on('connectWebRtcTransport', ...)] *)
Definition on_connectWebRtcTransport (transportId : ObjId)
           (dtls : DtlsParameters) : M unit :=
  try_catch
    (h <- gets (fun w => JsMap.get transportId (transports (stores w))) ;;
     match h with
     | None => throw (TransportNotFound transportId)
     | Some t =>
         engine_call (Engine.connect (media host) t dtls) ;;
         callback sock Success
     end)
    (fun e => callback sock (ErrorPayload e)).

(** [function startRecording(room, producer, peerId)] *)
Definition startRecording (producer : ObjId) : M unit :=
  room <- gets (the_room c) ;;
  match createWriteStream host (room_id room) (conn_peerId c) with
  | Some msg => throw (HostError msg)
  | None =>
      mutate_room c
        (upd_room_recordings
           (JsMap.set producer
              {| rec_room := room_id room; rec_peer := conn_peerId c |}))
  end.

(** [socket.on('produce', async ({ transportId, kind, rtpParameters },
    callback))] *)
Definition on_produce (transportId : ObjId) (kind : string)
           (rtp : RtpParameters) : M unit :=
  try_catch
    (h <- gets (fun w => JsMap.get transportId (transports (stores w))) ;;
     match h with
     | None => throw (TransportNotFound transportId)
     | Some t =>
         p <- engine_call (Engine.produce (media host) t kind rtp) ;;
         mutate_peer sock c (add_producer p) ;;
         modify (upd_producers (JsMap.set p p)) ;;
         emit_to_room sock (conn_roomId c)
           (NewProducer (conn_peerId c) p kind) ;;
         callback sock (ProducerCreated p) ;;
         if String.eqb kind "audio" then startRecording p else ret tt
     end)
    (fun e => callback sock (ErrorPayload e)).

(** [socket.on('consume', async ({ producerId, rtpCapabilities },
    callback))]: the request's [transportId] is not destructured. *)
Definition on_consume (producerId : ObjId) (caps : RtpCapabilities)
           (transportId : ObjId) : M unit :=
  try_catch
    (p <- gets (fun w => JsMap.get producerId (producers (stores w))) ;;
     match p with
     | None => throw (ProducerNotFound producerId)
     | Some _ =>
         room <- gets (the_room c) ;;
         ok <- gets (fun w => canConsume (media host) (room_router room)
                                producerId caps (engine w)) ;;
         if negb ok then throw (CannotConsume producerId)
         else
           peer <- gets (the_peer sock c) ;;
           match JsMap.first_value (peer_transports peer) with
           | None => throw NoTransportAvailable
           | Some consumerTransport =>
               co <- engine_call
                       (Engine.consume (media host) consumerTransport producerId
                                       caps true) ;;
               mutate_peer sock c (add_consumer (consumer_id co)) ;;
               modify (upd_consumers
                         (JsMap.set (consumer_id co) (consumer_id co))) ;;
               callback sock
                 (ConsumerCreated (consumer_id co) producerId
                    (consumer_kind co) (consumer_rtpParameters co))
           end
     end)
    (fun e => callback sock (ErrorPayload e)).

(** [socket.on('resumeConsumer', async ({ consumerId }, callback))] *)
Definition on_resumeConsumer (consumerId : ObjId) : M unit :=
  try_catch
    (h <- gets (fun w => JsMap.get consumerId (consumers (stores w))) ;;
     match h with
     | None => throw (ConsumerNotFound consumerId)
     | Some co =>
         engine_call (Engine.resume (media host) co) ;;
         callback sock Success
     end)
    (fun e => callback sock (ErrorPayload e)).

(** [socket.on('stopRecording', async ({ producerId }, callback))] *)
Definition on_stopRecording (producerId : ObjId) : M unit :=
  try_catch
    (room <- gets (the_room c) ;;
     match JsMap.get producerId (room_recordings room) with
     | Some _ =>
         mutate_room c (upd_room_recordings (JsMap.delete producerId)) ;;
         callback sock Success
     | None => callback sock (ErrorPayload RecordingNotFound)
     end)
    (fun e => callback sock (ErrorPayload e)).

(** [socket.on('disconnect', () => ...)] *)
Definition on_disconnect : M unit :=
  peer <- gets (the_peer sock c) ;;
  modify (upd_engine (fun e =>
    fold_left (fun e t => Engine.close t e)
              (JsMap.values (peer_transports peer)) e)) ;;
  emit_to_room sock (conn_roomId c) (PeerDisconnected (conn_peerId c)) ;;
  emit_to_room sock (conn_roomId c) (UserLeft (conn_peerId c)) ;;
  mutate_room c (upd_room_peers (JsMap.delete (conn_peerId c))) ;;
  modify (upd_peers (JsMap.delete sock)) ;;
  modify (upd_users (JsMap.delete (conn_peerId c))) ;;
  room <- gets (the_room c) ;;
  if Nat.eqb (JsMap.size (room_peers room)) 0
  then modify (upd_rooms (JsMap.delete (conn_roomId c)))
  else ret tt.

Definition dispatch (r : Request) : M unit :=
  match r with
  | GetRouterRtpCapabilities => on_getRouterRtpCapabilities
  | JoinRoom userId username roomId => on_joinRoom userId username roomId
  | Speaking roomId peerId speaking => on_speaking roomId peerId speaking
  | CreateWebRtcTransportReq sender => on_createWebRtcTransport sender
  | ConnectWebRtcTransport t dtls => on_connectWebRtcTransport t dtls
  | ProduceReq t kind rtp => on_produce t kind rtp
  | ConsumeReq p caps t => on_consume p caps t
  | ResumeConsumer co => on_resumeConsumer co
  | StopRecording p => on_stopRecording p
  end.
End Handlers.

(** *** [createRoom] and the connection handler *)

(** [async function createRoom(roomId)] up to its [await]: the check of
    [workers], then the call of [worker.createRouter]. The value is the
    outcome the awaited promise settles with. *)
Definition createRoom_call (host : Host) : M (string + ObjId) :=
  n <- gets (fun w => workers (stores w)) ;;
  if Nat.eqb n 0 then throw NoWorkers
  else
    fun w =>
      let '(res, e') := Engine.createRouter (media host) (engine w) in
      (Ok res, upd_engine (fun _ => e') w).

(** [createRoom] from its [await] on: build the room object around the
    router, [rooms.set(roomId, room)], return the room. *)
Definition createRoom_resume (roomId : string) (res : string + ObjId)
  : M RoomRef :=
  match res with
  | inl msg => throw (EngineError msg)
  | inr router =>
      ref <- gets (fun w => JsMap.size (room_objs (heap w))) ;;
      modify (upd_room_objs
                (JsMap.set ref
                   {| room_id := roomId; room_router := router;
                      room_peers := JsMap.empty;
                      room_recordings := JsMap.empty |})) ;;
      modify (upd_rooms (JsMap.set roomId ref)) ;;
      ret ref
  end.

Section Connection.
Variable host : Host.
Variable sock : SocketId.
Variables (roomId peerId clientIp : string).

(** From [socket.join(roomId)] to the registration of the handlers. *)
Definition finish_connection (room : RoomRef) : M unit :=
  let c := {| conn_roomId := roomId; conn_peerId := peerId;
              conn_clientIp := clientIp; conn_room := room |} in
  modify (upd_joined (JsMap.set sock roomId)) ;;
  modify (upd_peer_objs
            (JsMap.set sock
               {| peer_id := peerId; peer_transports := JsMap.empty;
                  peer_producers := JsMap.empty;
                  peer_consumers := JsMap.empty;
                  peer_clientIp := clientIp |})) ;;
  mutate_room c (upd_room_peers (JsMap.set peerId sock)) ;;
  modify (upd_peers (JsMap.set sock sock)) ;;
  modify (upd_conns (JsMap.set sock c)).

(** [io.on('connection', async (socket) => ...)] up to its first
    suspension. With a known room it runs to its end. Otherwise it
    enters [createRoom] and is parked on [await createRoom(roomId)]
    together with the outcome it will resume with. *)
Definition on_connection : M unit :=
  r <- gets (fun w => JsMap.get roomId (rooms (stores w))) ;;
  match r with
  | Some room => finish_connection room
  | None =>
      res <- createRoom_call host ;;
      modify (upd_pending
                (JsMap.set sock
                   {| pend_roomId := roomId; pend_peerId := peerId;
                      pend_clientIp := clientIp; pend_router := res |}))
  end.
End Connection.

(** The continuation of [await createRoom(roomId)]: the rest of
    [createRoom], then the rest of the connection handler. *)
Definition on_router_ready (sock : SocketId) (p : Pending) : M unit :=
  room <- createRoom_resume (pend_roomId p) (pend_router p) ;;
  finish_connection sock (pend_roomId p) (pend_peerId p)
                    (pend_clientIp p) room.

(** *** The event loop *)

(** A handler run from the event loop: an exception that escapes it
    is reported, the state changes made before it stay. *)
Definition run_handler (sock : SocketId) (m : M unit) (w : World)
  : World :=
  match m w with
  | (Ok _, w') => w'
  | (Throw e, w') => log [Uncaught sock e] w'
  end.

(** What arrives on a socket: an event name with an object payload,
    or with [null] in its place. *)
Inductive Message :=
| WithPayload (r : Request)
| NullPayload (event : string).

(** Handlers whose first parameter is an object pattern
    ([async ({ transportId, ... }, callback) => ...]). Only
    [getRouterRtpCapabilities] binds the payload to a plain name. *)
Definition destructuring_handlers : list string :=
  [ "joinRoom"; "speaking"; "createWebRtcTransport";
    "connectWebRtcTransport"; "produce"; "consume"; "resumeConsumer";
    "stopRecording" ].

(** Calling the listener registered for the message. Binding an
    object pattern to [null] throws before the body, and so before the
    body's [try], is entered. An event without a listener is dropped. *)
Definition receive (host : Host) (sock : SocketId) (c : Conn)
           (m : Message) : M unit :=
  match m with
  | WithPayload r => dispatch host sock c r
  | NullPayload event =>
      if String.eqb event "getRouterRtpCapabilities"
      then on_getRouterRtpCapabilities sock c
      else if existsb (String.eqb event) destructuring_handlers
           then throw (TypeError event)
           else ret tt
  end.

(** One turn of the event loop. Socket handlers are taken as one turn
    each; the connection handler is split at its [await]. *)
Inductive Event :=
| Connection (sock : SocketId) (roomId peerId clientIp : string)
| RouterReady (sock : SocketId)
| Incoming (sock : SocketId) (m : Message)
| Disconnect (sock : SocketId).

Definition step (host : Host) (ev : Event) (w : World) : World :=
  match ev with
  | Connection sock roomId peerId clientIp =>
      if JsMap.has sock (conns (net w)) || JsMap.has sock (pending (net w))
      then w
      else run_handler sock
             (on_connection host sock roomId peerId clientIp) w
  | RouterReady sock =>
      match JsMap.get sock (pending (net w)) with
      | None => w
      | Some p =>
          run_handler sock (on_router_ready sock p)
                      (upd_pending (JsMap.delete sock) w)
      end
  | Incoming sock m =>
      match JsMap.get sock (conns (net w)) with
      | None => w
      | Some c => run_handler sock (receive host sock c m) w
      end
  | Disconnect sock =>
      match JsMap.get sock (conns (net w)) with
      | None => w
      | Some c =>
          upd_conns (JsMap.delete sock)
            (run_handler sock (on_disconnect sock c)
                         (upd_joined (JsMap.delete sock) w))
      end
  end.

Definition run (host : Host) (evs : list Event) (w : World) : World :=
  fold_left (fun w ev => step host ev w) evs w.

(** A request with its payload, as the client of this repository
    sends it. *)
Definition request (sock : SocketId) (r : Request) : Event :=
  Incoming sock (WithPayload r).

(** *** Observations *)

Definition acks_to (sock : SocketId) (l : list Output) : list Payload :=
  flat_map (fun o => match o with
                     | Ack s p => if String.eqb s sock then [p] else []
                     | _ => []
                     end) l.

Definition uncaught_in (l : list Output) : list Error :=
  flat_map (fun o => match o with Uncaught _ e => [e] | _ => [] end) l.

Definition deliveries_to (sock : SocketId) (l : list Output)
  : list Push :=
  flat_map (fun o => match o with
                     | Deliver s ev => if String.eqb s sock then [ev] else []
                     | _ => []
                     end) l.


(** Room objects created so far for a room id. *)
Definition room_instances (roomId : string) (w : World) : list Room :=
  filter (fun r => String.eqb (room_id r) roomId)
         (JsMap.values (room_objs (heap w))).

(** [app.get('/status')] *)
Record Status := {
  status_rooms : list string;
  roomCount : nat;
  peerCount : nat;
  workerCount : nat
}.

Definition get_status (w : World) : Status :=
  {| status_rooms := JsMap.keys (rooms (stores w));
     roomCount := JsMap.size (rooms (stores w));
     peerCount := JsMap.size (peers (stores w));
     workerCount := workers (stores w) |}.

(** [app.get('/rooms/:roomId')]: [None] is the 404 answer; otherwise the
    peer count, the peer ids and the recording count of the room. *)
Definition get_room_data (roomId : string) (w : World)
  : option (nat * list string * nat) :=
  match JsMap.get roomId (rooms (stores w)) with
  | None => None
  | Some ref =>
      match JsMap.get ref (room_objs (heap w)) with
      | None => None
      | Some room =>
          Some (JsMap.size (room_peers room),
                JsMap.keys (room_peers room),
                JsMap.size (room_recordings room))
      end
  end.

Definition consumer_active (w : World) (co : ObjId) : bool :=
  consumer_active_in (engine w) co.

Definition consumer_paused (w : World) (co : ObjId) : bool :=
  consumer_paused_in (engine w) co.

(** *** Relating the worlds before and after a computation *)

Definition keeps (R : World -> World -> Prop) {A : Type} (m : M A) : Prop :=
  forall w, R w (snd (m w)).

(** The engine transitions caused by the handlers' calls other than
    [consumer.resume()]; consumers are always created with
    [paused: true]. *)
Inductive quiet_move (pol : Policy) : Engine.State -> Engine.State -> Prop :=
| mv_createRouter e :
    quiet_move pol e (snd (Engine.createRouter pol e))
| mv_createWebRtcTransport e router ip :
    quiet_move pol e (snd (Engine.createWebRtcTransport pol router ip e))
| mv_connect e t dtls :
    quiet_move pol e (snd (Engine.connect pol t dtls e))
| mv_produce e t kind rtp :
    quiet_move pol e (snd (Engine.produce pol t kind rtp e))
| mv_consume e t p caps :
    quiet_move pol e (snd (Engine.consume pol t p caps true e))
| mv_close e t :
    quiet_move pol e (Engine.close t e).

(** Consumer [x] is not active afterwards unless it was before. *)
Definition no_activation (x : ObjId) (w w' : World) : Prop :=
  consumer_active w' x = true -> consumer_active w x = true.

(** Every handle of the global consumer store sits under its own id. *)
Definition self_keyed (w : World) : Prop :=
  forall k h, JsMap.get k (consumers (stores w)) = Some h -> k = h.

Definition keeps_self_keyed (w w' : World) : Prop :=
  self_keyed w -> self_keyed w'.

(** The references held by the registered handlers and by [rooms]
    point to objects of the heap. *)
Definition rooted (w : World) : Prop :=
  (forall sock c,
     In (sock, c) (conns (net w)) ->
     JsMap.has (conn_room c) (room_objs (heap w)) = true /\
     JsMap.has sock (peer_objs (heap w)) = true) /\
  (forall roomId ref,
     In (roomId, ref) (rooms (stores w)) ->
     JsMap.has ref (room_objs (heap w)) = true).

(** No object leaves the heap. *)
Definition heap_grows (w w' : World) : Prop :=
  (forall k, JsMap.has k (room_objs (heap w)) = true ->
             JsMap.has k (room_objs (heap w')) = true) /\
  (forall k, JsMap.has k (peer_objs (heap w)) = true ->
             JsMap.has k (peer_objs (heap w')) = true).

Definition is_resume (ev : Event) : bool :=
  match ev with
  | Incoming _ (WithPayload (ResumeConsumer _)) => true
  | _ => false
  end.

End Server.

Create HintDb keeps.


(* ------------------------------------------------------------------ *)
(** ** Scenarios used as concrete inputs *)
(* ------------------------------------------------------------------ *)

Module Scenario.
Import Server.

(** Alice and Bob join room [r1] one after the other; Alice opens a
    transport (engine id 1), connects it and produces audio (id 2);
    Bob opens a transport (id 3), connects it, consumes Alice's
    producer (consumer id 4) and resumes the consumer. *)
Definition session : list Event :=
  [ Connection "sA" "r1" "alice" "10.0.0.1";
    RouterReady "sA";
    Connection "sB" "r1" "bob" "10.0.0.2";
    request "sA" (CreateWebRtcTransportReq true);
    request "sA" (ConnectWebRtcTransport 1 "dtlsA");
    request "sA" (ProduceReq 1 "audio" "rtpA");
    request "sB" (CreateWebRtcTransportReq false);
    request "sB" (ConnectWebRtcTransport 3 "dtlsB");
    request "sB" (ConsumeReq 2 "capsB" 3);
    request "sB" (ResumeConsumer 4) ].

Definition in_session : World := run permissive_host session (initial 1).

(** Two connections for the unknown room [r1] arrive before either
    [createRouter] promise resolves. *)
Definition race : list Event :=
  [ Connection "sA" "r1" "alice" "10.0.0.1";
    Connection "sB" "r1" "bob" "10.0.0.2";
    RouterReady "sA";
    RouterReady "sB" ].

(** Nobody ever calls [connectWebRtcTransport]: Bob opens a send and a
    receive transport (ids 1 and 2), Alice opens none. *)
Definition unconnected : list Event :=
  [ Connection "sA" "r1" "alice" "10.0.0.1";
    RouterReady "sA";
    Connection "sB" "r1" "bob" "10.0.0.2";
    request "sB" (CreateWebRtcTransportReq true);
    request "sB" (CreateWebRtcTransportReq false) ].

Definition before_connect : World :=
  run permissive_host unconnected (initial 1).

Fixpoint has_nul (s : string) : bool :=
  match s with
  | EmptyString => false
  | String ch rest => Ascii.eqb ch Ascii.zero || has_nul rest
  end.

(** A host whose [fs.createWriteStream] rejects a path with a NUL
    character in it, as path validation does. *)
Definition validating_host : Host :=
  {| media := Engine.permissive;
     createWriteStream := fun room peer =>
       if has_nul room || has_nul peer
       then Some "The argument 'path' must be a string without null bytes"
       else None |}.

(** A peer whose handshake [peerId] contains a NUL character opens a
    transport (id 1). *)
Definition nul_peer : list Event :=
  [ Connection "sA" "r1" (String Ascii.zero "alice") "10.0.0.1";
    RouterReady "sA";
    request "sA" (CreateWebRtcTransportReq true) ].

End Scenario.

(* ------------------------------------------------------------------ *)
(** ** Client side: the session object ([class MediasoupClient]) *)
(* ------------------------------------------------------------------ *)

(** The client is driven by method calls of the page and by callbacks
    of the socket and of the media library. What the library and the
    browser decide (whether the microphone is granted, whether a local
    transport call succeeds) comes with the event. The model records
    what the client sends and which objects it closes.

    [connect], [produce] and the acknowledgement callback of [consume]
    are asynchronous: between two of their [await]s any other method or
    callback may run. Each of them is therefore given twice: one
    suspension at a time ([connect_begin], [connect_loaded], ...), the
    suspended calls being kept with the state, and as the function of
    all its answers that a call is when nothing else happens before it
    returns ([connect], [produce], [on_consume_response]). *)

Module Client.
Import Engine.

(** A consumer object of the receive transport with the [appData] the
    client attaches to it. *)
Record Consumer := {
  c_id : ObjId;
  c_producerId : ObjId;
  c_kind : string;
  c_appPeerId : string;      (* [appData.peerId] *)
  c_audioElement : bool      (* [appData.audioElement] is set *)
}.

Inductive Effect :=
| Emit (r : Server.Request)        (* [socket.emit(...)] *)
| ConsumerClosed (id : ObjId)      (* [consumer.close()] *)
| AudioCleaned (id : ObjId)        (* [cleanupAudioResources(appData)] *)
| ProducerClosed (id : ObjId)      (* [producer.close()] *)
| TransportClosed (id : ObjId)     (* [transport.close()] *)
| MicrophoneAcquired               (* [getUserMedia] resolved *)
| IntervalSet                      (* [setInterval(..., 100)] *)
| IntervalCleared.                 (* [clearInterval] *)

(** The [await] a suspended call waits at. *)
Inductive Await :=
| AtDeviceLoad          (* [connect]: [await this.device.load(...)] *)
| AtSendTransport       (* [connect]: [await this.createTransport('send')] *)
| AtRecvTransport       (* [connect]: [await this.createTransport('recv')] *)
| AtGetUserMedia        (* [produce]: [await ...getUserMedia(...)] *)
| AtTransportProduce    (* [produce]: [await this.sendTransport.produce] *)
| AtTransportConsume (id producerId : ObjId) (kind : string).
                        (* [await this.recvTransport.consume(...)] with
                           the [id], [producerId] and [kind] of the
                           response *)

Definition same_await (a b : Await) : bool :=
  match a, b with
  | AtDeviceLoad, AtDeviceLoad
  | AtSendTransport, AtSendTransport
  | AtRecvTransport, AtRecvTransport
  | AtGetUserMedia, AtGetUserMedia
  | AtTransportProduce, AtTransportProduce => true
  | AtTransportConsume i p k, AtTransportConsume i' p' k' =>
      Nat.eqb i i' && Nat.eqb p p' && String.eqb k k'
  | _, _ => false
  end.

(** The fields of the object, and with them the calls of its
    asynchronous methods that are suspended at an [await]. *)
Record State := {
  roomId : string;
  peerId : string;
  rtpCapabilities : RtpCapabilities;   (* of the local device *)
  deviceLoaded : bool;
  sendTransport : option ObjId;
  recvTransport : option ObjId;
  producer : option ObjId;
  consumers : JsMap.t ObjId Consumer;
  isConnected : bool;
  isProducing : bool;
  isRecording : bool;
  audioContext : option bool;          (* [Some closed] when non-null *)
  audioAnalyser : bool;
  audioSource : bool;
  audioLevelInterval : bool;
  suspended : list Await               (* most recent first *)
}.

(** [constructor(options)] *)
Definition make (room peer : string) (caps : RtpCapabilities) : State :=
  {| roomId := room; peerId := peer; rtpCapabilities := caps;
     deviceLoaded := false; sendTransport := None; recvTransport := None;
     producer := None; consumers := JsMap.empty; isConnected := false;
     isProducing := false; isRecording := false; audioContext := None;
     audioAnalyser := false; audioSource := false;
     audioLevelInterval := false; suspended := [] |}.

Definition set_transports (loaded : bool) (s r : option ObjId)
           (connected : bool) (st : State) : State :=
  {| roomId := roomId st; peerId := peerId st;
     rtpCapabilities := rtpCapabilities st;
     deviceLoaded := loaded; sendTransport := s; recvTransport := r;
     producer := producer st; consumers := consumers st;
     isConnected := connected;
     isProducing := isProducing st; isRecording := isRecording st;
     audioContext := audioContext st; audioAnalyser := audioAnalyser st;
     audioSource := audioSource st;
     audioLevelInterval := audioLevelInterval st;
     suspended := suspended st |}.

Definition set_production (p : option ObjId) (producing recording : bool)
           (st : State) : State :=
  {| roomId := roomId st; peerId := peerId st;
     rtpCapabilities := rtpCapabilities st;
     deviceLoaded := deviceLoaded st; sendTransport := sendTransport st;
     recvTransport := recvTransport st;
     producer := p; consumers := consumers st;
     isConnected := isConnected st;
     isProducing := producing; isRecording := recording;
     audioContext := audioContext st; audioAnalyser := audioAnalyser st;
     audioSource := audioSource st;
     audioLevelInterval := audioLevelInterval st;
     suspended := suspended st |}.

Definition set_consumers (m : JsMap.t ObjId Consumer) (st : State)
  : State :=
  {| roomId := roomId st; peerId := peerId st;
     rtpCapabilities := rtpCapabilities st;
     deviceLoaded := deviceLoaded st; sendTransport := sendTransport st;
     recvTransport := recvTransport st;
     producer := producer st; consumers := m;
     isConnected := isConnected st;
     isProducing := isProducing st; isRecording := isRecording st;
     audioContext := audioContext st; audioAnalyser := audioAnalyser st;
     audioSource := audioSource st;
     audioLevelInterval := audioLevelInterval st;
     suspended := suspended st |}.

Definition set_audio (ctx : option bool) (analyser source interval : bool)
           (st : State) : State :=
  {| roomId := roomId st; peerId := peerId st;
     rtpCapabilities := rtpCapabilities st;
     deviceLoaded := deviceLoaded st; sendTransport := sendTransport st;
     recvTransport := recvTransport st;
     producer := producer st; consumers := consumers st;
     isConnected := isConnected st;
     isProducing := isProducing st; isRecording := isRecording st;
     audioContext := ctx; audioAnalyser := analyser;
     audioSource := source; audioLevelInterval := interval;
     suspended := suspended st |}.

Definition set_suspended (l : list Await) (st : State) : State :=
  {| roomId := roomId st; peerId := peerId st;
     rtpCapabilities := rtpCapabilities st;
     deviceLoaded := deviceLoaded st; sendTransport := sendTransport st;
     recvTransport := recvTransport st;
     producer := producer st; consumers := consumers st;
     isConnected := isConnected st;
     isProducing := isProducing st; isRecording := isRecording st;
     audioContext := audioContext st; audioAnalyser := audioAnalyser st;
     audioSource := audioSource st;
     audioLevelInterval := audioLevelInterval st;
     suspended := l |}.

(** A call reaches an [await]. *)
Definition suspend (a : Await) (st : State) : State :=
  set_suspended (a :: suspended st) st.

(** The suspended calls without the most recent one that waits at [a];
    [None] when no call waits there. *)
Fixpoint without (a : Await) (l : list Await) : option (list Await) :=
  match l with
  | [] => None
  | b :: rest =>
      if same_await a b then Some rest
      else option_map (cons b) (without a rest)
  end.

(** What a call suspended at [a] was waiting for has settled and the
    rest [k] of the call runs up to its next [await]. Nothing happens
    when no call is suspended at [a]. *)
Definition resume_at (a : Await) (k : State -> State * list Effect)
           (st : State) : State * list Effect :=
  match without a (suspended st) with
  | None => (st, [])
  | Some rest => k (set_suspended rest st)
  end.

(** Answer of the server to [createWebRtcTransport]. *)
Inductive TransportReply :=
| NoReply
| TransportError (msg : string)
| TransportParams (id : ObjId).

(** The [getRouterRtpCapabilities] requests of the capability fetch: one
    for every attempt. *)
Definition capability_requests (script : list CapFetch.Reply)
  : list Effect :=
  repeat (Emit Server.GetRouterRtpCapabilities)
         (CapFetch.attempts (CapFetch.loadRouterRtpCapabilities script)).

(** [public async connect()] one suspension at a time.

    [connect_begin]: from the call to [await this.device.load(...)].
    The capability fetch is [CapFetch.loadRouterRtpCapabilities] on the
    server's behaviour [script]; it reads and writes no field of the
    object, and its requests are listed with the call. A fetch that
    stays pending or is rejected ends the call. *)
Definition connect_begin (script : list CapFetch.Reply) (st : State)
  : State * list Effect :=
  (match CapFetch.promise (CapFetch.loadRouterRtpCapabilities script) with
   | CapFetch.Resolved _ => suspend AtDeviceLoad st
   | _ => st
   end,
   capability_requests script).

(** [device.load] has settled; [loadOk] tells whether it succeeded. *)
Definition connect_loaded (loadOk : bool)
  : State -> State * list Effect :=
  resume_at AtDeviceLoad
    (fun st =>
       if loadOk
       then (suspend AtSendTransport
               (set_transports true (sendTransport st) (recvTransport st)
                               (isConnected st) st),
             [Emit (Server.CreateWebRtcTransportReq true)])
       else (st, [])).

(** The answer to the first [createWebRtcTransport] has arrived. An
    answer with an [error] ends the call: a non-empty one rejects the
    promise, the empty one passes [if (response.error)] and the
    callback throws at [params.iceParameters], so the promise is never
    settled. *)
Definition connect_send (reply : TransportReply) (st : State)
  : State * list Effect :=
  match reply with
  | NoReply => (st, [])
  | TransportError _ => resume_at AtSendTransport (fun st => (st, [])) st
  | TransportParams s =>
      resume_at AtSendTransport
        (fun st =>
           (suspend AtRecvTransport
              (set_transports (deviceLoaded st) (Some s) (recvTransport st)
                              (isConnected st) st),
            [Emit (Server.CreateWebRtcTransportReq false)])) st
  end.

(** The answer to the second [createWebRtcTransport] has arrived. *)
Definition connect_recv (reply : TransportReply) (st : State)
  : State * list Effect :=
  match reply with
  | NoReply => (st, [])
  | TransportError _ => resume_at AtRecvTransport (fun st => (st, [])) st
  | TransportParams r =>
      resume_at AtRecvTransport
        (fun st =>
           (set_transports (deviceLoaded st) (sendTransport st) (Some r)
                           true st, [])) st
  end.

(** [public async connect()] when nothing else happens before it
    returns: [None] when the method never returns (a promise it awaits
    is never settled). [loadOk] tells whether [device.load] succeeds. *)
Definition connect (script : list CapFetch.Reply) (loadOk : bool)
           (sendReply recvReply : TransportReply) (st : State)
  : option bool * State * list Effect :=
  let e0 := capability_requests script in
  match CapFetch.promise (CapFetch.loadRouterRtpCapabilities script) with
  | CapFetch.Pending => (None, st, e0)
  | CapFetch.Rejected _ _ => (Some false, st, e0)
  | CapFetch.Resolved _ =>
      if negb loadOk then (Some false, st, e0)
      else
        let st1 := set_transports true (sendTransport st) (recvTransport st)
                                  (isConnected st) st in
        let e1 := e0 ++ [Emit (Server.CreateWebRtcTransportReq true)] in
        match sendReply with
        | NoReply => (None, st1, e1)
        | TransportError msg =>
            (if String.eqb msg "" then None else Some false, st1, e1)
        | TransportParams s =>
            let st2 := set_transports true (Some s) (recvTransport st)
                                      (isConnected st) st in
            let e2 := e1 ++ [Emit (Server.CreateWebRtcTransportReq false)] in
            match recvReply with
            | NoReply => (None, st2, e2)
            | TransportError msg =>
                (if String.eqb msg "" then None else Some false, st2, e2)
            | TransportParams r =>
                (Some true, set_transports true (Some s) (Some r) true st,
                 e2)
            end
        end
  end.

(** The callbacks [createTransport] registers on a transport; the media
    library calls them while it connects the transport and while
    [transport.produce] runs. *)
Definition on_transport_connect (transportId : ObjId)
           (dtlsParameters : DtlsParameters) (st : State)
  : State * list Effect :=
  (st, [Emit (Server.ConnectWebRtcTransport transportId dtlsParameters)]).

Definition on_transport_produce (transportId : ObjId) (kind : string)
           (rtpParameters : RtpParameters) (st : State)
  : State * list Effect :=
  (st, [Emit (Server.ProduceReq transportId kind rtpParameters)]).

(** [private stopAudioLevelDetection()] *)
Definition stopAudioLevelDetection (st : State) : State * list Effect :=
  (set_audio (match audioContext st with
              | Some false => None
              | other => other
              end) false false false st,
   if audioLevelInterval st then [IntervalCleared] else []).

(** Outcome of [navigator.mediaDevices.getUserMedia({ audio: true })]. *)
Inductive UserMedia :=
| Denied
| NoAudioTrack
| Track.

(** [public async produce()] one suspension at a time.

    [produce_begin]: from the call to [await ...getUserMedia(...)]. *)
Definition produce_begin (st : State) : State * list Effect :=
  match sendTransport st with
  | None => (st, [])
  | Some _ =>
      if negb (isConnected st) then (st, [])
      else (suspend AtGetUserMedia st, [])
  end.

(** [getUserMedia] has settled. With a track the call goes on to
    [this.sendTransport.produce(...)], which throws when the field has
    been reset in the meantime. *)
Definition produce_media (um : UserMedia) : State -> State * list Effect :=
  resume_at AtGetUserMedia
    (fun st =>
       match um with
       | Denied => (st, [])
       | NoAudioTrack => (st, [MicrophoneAcquired])
       | Track =>
           match sendTransport st with
           | None => (st, [MicrophoneAcquired])
           | Some _ => (suspend AtTransportProduce st, [MicrophoneAcquired])
           end
       end).

(** [sendTransport.produce(...)] has settled: [lib] is the producer id,
    or a rejection, and [detection] tells whether the audio context
    could be created in [setupAudioLevelDetection]. *)
Definition produce_settled (lib : option ObjId) (detection : bool)
  : State -> State * list Effect :=
  resume_at AtTransportProduce
    (fun st =>
       match lib with
       | None => (st, [])
       | Some p =>
           let st1 := set_production (Some p) true true st in
           if detection
           then (set_audio (Some false) true true true st1, [IntervalSet])
           else (st1, [])
       end).

(** [public async produce()] when nothing else happens before it
    returns. The requests of the transport's callbacks are not part of
    its effects, see [on_transport_connect] and [on_transport_produce]. *)
Definition produce (um : UserMedia) (lib : option ObjId) (detection : bool)
           (st : State) : bool * State * list Effect :=
  match sendTransport st with
  | None => (false, st, [])
  | Some _ =>
      if negb (isConnected st) then (false, st, [])
      else
        match um with
        | Denied => (false, st, [])
        | NoAudioTrack => (false, st, [MicrophoneAcquired])
        | Track =>
            match lib with
            | None => (false, st, [MicrophoneAcquired])
            | Some p =>
                let st1 := set_production (Some p) true true st in
                if detection
                then (true, set_audio (Some false) true true true st1,
                      [MicrophoneAcquired; IntervalSet])
                else (true, st1, [MicrophoneAcquired])
            end
        end
  end.

(** [this.producer.on('transportclose', ...)] *)
Definition on_producer_transportclose (st : State) : State * list Effect :=
  let '(st1, e) := stopAudioLevelDetection st in
  (set_production None false false st1, e).

(** [public async consume(producerId)] up to the emit. Reading
    [device.rtpCapabilities] throws on a device that is not loaded. *)
Definition consume (producerId : ObjId) (st : State)
  : State * list Effect :=
  match recvTransport st with
  | None => (st, [])
  | Some r =>
      if negb (isConnected st) || negb (deviceLoaded st) then (st, [])
      else (st, [Emit (Server.ConsumeReq producerId (rtpCapabilities st) r)])
  end.

(** [socket.on('newProducer', async ({ peerId, producerId, kind }))] *)
Definition on_newProducer (peer : string) (producerId : ObjId)
           (kind : string) (st : State) : State * list Effect :=
  if negb (String.eqb peer (peerId st)) && String.eqb kind "audio"
  then consume producerId st
  else (st, []).

(** The acknowledgement callback of the [consume] emit, one suspension
    at a time: up to [await this.recvTransport.consume(...)], which
    throws when the field has been reset. *)
Definition consume_replied (resp : Server.Payload) (st : State)
  : State * list Effect :=
  match resp with
  | Server.ConsumerCreated id producerId kind _ =>
      match recvTransport st with
      | Some _ => (suspend (AtTransportConsume id producerId kind) st, [])
      | None => (st, [])
      end
  | _ => (st, [])
  end.

(** [recvTransport.consume(...)] has settled: [lib] is a rejection, or
    whether the new consumer has a track. *)
Definition consume_settled (id producerId : ObjId) (kind : string)
           (lib : option bool) : State -> State * list Effect :=
  resume_at (AtTransportConsume id producerId kind)
    (fun st =>
       match lib with
       | Some hasTrack =>
           let consumer :=
             {| c_id := id; c_producerId := producerId; c_kind := kind;
                c_appPeerId := peerId st;
                c_audioElement := String.eqb kind "audio" && hasTrack |} in
           (set_consumers (JsMap.set id consumer (consumers st)) st,
            [Emit (Server.ResumeConsumer id)])
       | None => (st, [])
       end).

(** The acknowledgement callback of the [consume] emit when nothing
    else happens before it ends. *)
Definition on_consume_response (resp : Server.Payload) (lib : option bool)
           (st : State) : State * list Effect :=
  match resp with
  | Server.ConsumerCreated id producerId kind _ =>
      match recvTransport st, lib with
      | Some _, Some hasTrack =>
          let consumer :=
            {| c_id := id; c_producerId := producerId; c_kind := kind;
               c_appPeerId := peerId st;
               c_audioElement := String.eqb kind "audio" && hasTrack |} in
          (set_consumers (JsMap.set id consumer (consumers st)) st,
           [Emit (Server.ResumeConsumer id)])
      | _, _ => (st, [])
      end
  | _ => (st, [])
  end.

(** [consumer.on('transportclose', ...)] *)
Definition on_consumer_transportclose (id : ObjId) (st : State)
  : State * list Effect :=
  (set_consumers (JsMap.delete id (consumers st)) st, [AudioCleaned id]).

(** [socket.on('peerDisconnected', ({ peerId }))] *)
Definition on_peerDisconnected (peer : string) (st : State)
  : State * list Effect :=
  (set_consumers
     (filter (fun kc => negb (String.eqb (c_appPeerId (snd kc)) peer))
             (consumers st)) st,
   map (fun kc => ConsumerClosed (fst kc))
       (filter (fun kc => String.eqb (c_appPeerId (snd kc)) peer)
               (consumers st))).

(** [public stopProducing()] *)
Definition stopProducing (st : State) : State * list Effect :=
  match producer st with
  | None => (st, [])
  | Some p =>
      let '(st1, e) := stopAudioLevelDetection st in
      (set_production None false false st1,
       [Emit (Server.StopRecording p)] ++ e
       ++ [Emit (Server.Speaking (roomId st) (peerId st) false);
           ProducerClosed p])
  end.

(** [public disconnect()]. Calls that are suspended stay suspended. *)
Definition disconnect (st : State) : State * list Effect :=
  let '(st1, e1) := stopProducing st in
  let e2 := flat_map (fun kc => [AudioCleaned (fst kc);
                                 ConsumerClosed (fst kc)])
                     (consumers st1) in
  let e3 := match sendTransport st1 with
            | Some t => [TransportClosed t]
            | None => []
            end in
  let e4 := match recvTransport st1 with
            | Some t => [TransportClosed t]
            | None => []
            end in
  (set_transports (deviceLoaded st1) None None false
                  (set_consumers JsMap.empty st1),
   e1 ++ e2 ++ e3 ++ e4).

(** [isReadyToProduceOrConsume()], [getProducerState()],
    [getConsumerCount()] *)
Definition isReadyToProduceOrConsume (st : State) : bool :=
  deviceLoaded st && isConnected st.

Definition getProducerState (st : State) : bool * bool :=
  (isProducing st, isRecording st).

Definition getConsumerCount (st : State) : nat :=
  JsMap.size (consumers st).

(** What can happen to a client object. The first group takes an
    asynchronous method with all its answers at once, the second group
    takes it one suspension at a time. *)
Inductive Event :=
| CallConnect (script : list CapFetch.Reply) (loadOk : bool)
              (sendReply recvReply : TransportReply)
| CallProduce (um : UserMedia) (lib : option ObjId) (detection : bool)
| ProducerTransportClose
| PushNewProducer (peer : string) (producerId : ObjId) (kind : string)
| ConsumeResponse (resp : Server.Payload) (lib : option bool)
| ConsumerTransportClose (id : ObjId)
| PushPeerDisconnected (peer : string)
| CallStopProducing
| CallDisconnect
| BeginConnect (script : list CapFetch.Reply)
| DeviceLoadSettled (loadOk : bool)
| SendTransportReplied (reply : TransportReply)
| RecvTransportReplied (reply : TransportReply)
| BeginProduce
| UserMediaSettled (um : UserMedia)
| TransportProduceSettled (lib : option ObjId) (detection : bool)
| ConsumeReplied (resp : Server.Payload)
| TransportConsumeSettled (id producerId : ObjId) (kind : string)
                          (lib : option bool)
| TransportConnect (transportId : ObjId) (dtlsParameters : DtlsParameters)
| TransportProduce (transportId : ObjId) (kind : string)
                   (rtpParameters : RtpParameters).

Definition step (ev : Event) (st : State) : State * list Effect :=
  match ev with
  | CallConnect script loadOk sendReply recvReply =>
      let '(_, st', e) := connect script loadOk sendReply recvReply st in
      (st', e)
  | CallProduce um lib detection =>
      let '(_, st', e) := produce um lib detection st in (st', e)
  | ProducerTransportClose =>
      match producer st with
      | Some _ => on_producer_transportclose st
      | None => (st, [])
      end
  | PushNewProducer peer producerId kind =>
      on_newProducer peer producerId kind st
  | ConsumeResponse resp lib => on_consume_response resp lib st
  | ConsumerTransportClose id =>
      match JsMap.get id (consumers st) with
      | Some _ => on_consumer_transportclose id st
      | None => (st, [])
      end
  | PushPeerDisconnected peer => on_peerDisconnected peer st
  | CallStopProducing => stopProducing st
  | CallDisconnect => disconnect st
  | BeginConnect script => connect_begin script st
  | DeviceLoadSettled loadOk => connect_loaded loadOk st
  | SendTransportReplied reply => connect_send reply st
  | RecvTransportReplied reply => connect_recv reply st
  | BeginProduce => produce_begin st
  | UserMediaSettled um => produce_media um st
  | TransportProduceSettled lib detection =>
      produce_settled lib detection st
  | ConsumeReplied resp => consume_replied resp st
  | TransportConsumeSettled id producerId kind lib =>
      consume_settled id producerId kind lib st
  | TransportConnect transportId dtlsParameters =>
      on_transport_connect transportId dtlsParameters st
  | TransportProduce transportId kind rtpParameters =>
      on_transport_produce transportId kind rtpParameters st
  end.

(** State after a sequence of events, with all effects in order. *)
Fixpoint run (evs : list Event) (st : State) : State * list Effect :=
  match evs with
  | [] => (st, [])
  | ev :: rest =>
      let '(st1, e1) := step ev st in
      let '(st2, e2) := run rest st1 in
      (st2, e1 ++ e2)
  end.

(** The flags and references of the client agree with each other, and
    a call of [connect] waits for a transport only on a loaded device. *)
Definition consistent (st : State) : Prop :=
  isRecording st = isProducing st /\
  (isProducing st = true <-> producer st <> None) /\
  (isConnected st = true ->
   deviceLoaded st = true /\ recvTransport st <> None) /\
  (In AtSendTransport (suspended st) \/ In AtRecvTransport (suspended st) ->
   deviceLoaded st = true) /\
  (forall id co, In (id, co) (consumers st) -> c_appPeerId co = peerId st).

End Client.

(* ------------------------------------------------------------------ *)
(** ** Client side: the participant list of the room page *)
(* ------------------------------------------------------------------ *)

Module VoiceRoom.
Import Server.

(** The [users] state and [roomInfo.participantCount]. *)
Record View := {
  users : list User;
  participantCount : nat
}.

Definition initial : View := {| users := []; participantCount := 0 |}.

(** [socket.on('users', roomUsers => ...)] *)
Definition on_users (roomUsers : list User) (v : View) : View :=
  {| users := roomUsers; participantCount := List.length roomUsers |}.

(** [socket.on('userJoined', user => ...)] *)
Definition on_userJoined (u : User) (v : View) : View :=
  {| users := users v ++ [u]; participantCount := participantCount v + 1 |}.

(** [socket.on('userLeft', leftUserId => ...)], when the page renders
    before the next update is queued: the [setRoomInfo] call sits
    inside the [setUsers] updater and both are applied by that render.
    For several pushes before one render see [on_batch]. *)
Definition on_userLeft (leftUserId : string) (v : View) : View :=
  let newUsers :=
    filter (fun u => negb (String.eqb (user_id u) leftUserId)) (users v) in
  {| users := newUsers; participantCount := List.length newUsers |}.

(** [socket.on('userSpeaking', (speakingUserId, speaking) => ...)] *)
Definition on_userSpeaking (speakingUserId : string) (speaking : bool)
           (v : View) : View :=
  {| users :=
       map (fun u =>
              if String.eqb (user_id u) speakingUserId
              then {| user_id := user_id u; user_name := user_name u;
                      user_isSpeaking := speaking |}
              else u) (users v);
     participantCount := participantCount v |}.

(** The local addition after [joinRoom] was emitted:
    [setUsers(prev => prev.some(...) ? prev : [...prev, currentUser])]. *)
Definition add_current_user (userId username : string) (v : View) : View :=
  if existsb (fun u => String.eqb (user_id u) userId) (users v)
  then v
  else {| users := users v
                   ++ [ {| user_id := userId; user_name := username;
                           user_isSpeaking := false |} ];
          participantCount := participantCount v |}.

(** The page's reaction to a server push that is rendered on its own;
    the media pushes are handled by the session object and do not touch
    the list. *)
Definition on_push (ev : Push) (v : View) : View :=
  match ev with
  | Users l => on_users l v
  | UserJoined u => on_userJoined u v
  | UserLeft id => on_userLeft id v
  | UserSpeaking id speaking => on_userSpeaking id speaking v
  | NewProducer _ _ _ | PeerDisconnected _ => v
  end.

Definition on_pushes (evs : list Push) (v : View) : View :=
  fold_left (fun v ev => on_push ev v) evs v.

(** The list after pushes, as a function of the list before. *)
Definition list_after (evs : list Push) (us : list User) : list User :=
  users (on_pushes evs {| users := us; participantCount := 0 |}).

(** *** Several pushes before one render

    React applies the queued state updates when it renders, once for
    all the updates queued since the last render, the [users] queue
    before the [roomInfo] queue. An updater passed to [setUsers] runs
    when the [users] queue is processed, so the [setRoomInfo] call
    inside the updater of [userLeft] is queued behind the [setRoomInfo]
    calls of every listener that ran before the render. The first
    update queued after a render may instead be computed at once when
    it is queued; [eager] tells whether it was. *)

Inductive CountUpdate :=
| SetCount (n : nat)   (* [prev => ({ ...prev, participantCount: n })] *)
| AddOne.              (* [prev => ({ ...prev, participantCount:
                                       prev.participantCount + 1 })] *)

Definition apply_count (n : nat) (u : CountUpdate) : nat :=
  match u with
  | SetCount m => m
  | AddOne => n + 1
  end.

Record Queue := {
  q_users : list User;             (* the list as the [setUsers]
                                      updaters so far leave it *)
  q_listeners : list CountUpdate;  (* [setRoomInfo] calls made when a
                                      push was handled *)
  q_updaters : list CountUpdate    (* [setRoomInfo] calls made by
                                      updaters that run at render *)
}.

(** Does the page queue an update for this push? *)
Definition queues_update (ev : Push) : bool :=
  match ev with
  | NewProducer _ _ _ | PeerDisconnected _ => false
  | _ => true
  end.

(** One push is handled; [eager] holds when its update is computed at
    once. *)
Definition enqueue (eager : bool) (ev : Push) (q : Queue) : Queue :=
  match ev with
  | Users roomUsers =>
      {| q_users := roomUsers;
         q_listeners := q_listeners q ++ [SetCount (List.length roomUsers)];
         q_updaters := q_updaters q |}
  | UserJoined u =>
      {| q_users := q_users q ++ [u];
         q_listeners := q_listeners q ++ [AddOne];
         q_updaters := q_updaters q |}
  | UserLeft leftUserId =>
      let newUsers :=
        filter (fun u => negb (String.eqb (user_id u) leftUserId))
               (q_users q) in
      if eager
      then {| q_users := newUsers;
              q_listeners :=
                q_listeners q ++ [SetCount (List.length newUsers)];
              q_updaters := q_updaters q |}
      else {| q_users := newUsers;
              q_listeners := q_listeners q;
              q_updaters :=
                q_updaters q ++ [SetCount (List.length newUsers)] |}
  | UserSpeaking speakingUserId speaking =>
      {| q_users :=
           map (fun u =>
                  if String.eqb (user_id u) speakingUserId
                  then {| user_id := user_id u; user_name := user_name u;
                          user_isSpeaking := speaking |}
                  else u) (q_users q);
         q_listeners := q_listeners q;
         q_updaters := q_updaters q |}
  | NewProducer _ _ _ | PeerDisconnected _ => q
  end.

Fixpoint enqueue_all (eager : bool) (evs : list Push) (q : Queue) : Queue :=
  match evs with
  | [] => q
  | ev :: rest =>
      enqueue_all (eager && negb (queues_update ev)) rest
                  (enqueue eager ev q)
  end.

(** The pushes [evs] are handled, then the page renders. *)
Definition on_batch (eager : bool) (evs : list Push) (v : View) : View :=
  let q := enqueue_all eager evs
             {| q_users := users v; q_listeners := [];
                q_updaters := [] |} in
  {| users := q_users q;
     participantCount :=
       fold_left apply_count (q_listeners q ++ q_updaters q)
                 (participantCount v) |}.

Definition on_batches (bs : list (bool * list Push)) (v : View) : View :=
  fold_left (fun v b => on_batch (fst b) (snd b) v) bs v.

End VoiceRoom.

(* ------------------------------------------------------------------ *)
(** ** Observations on runs *)
(* ------------------------------------------------------------------ *)

Module Observe.

(** Successive values differ, the first one from [b]. *)
Fixpoint alternates (b : bool) (l : list bool) : Prop :=
  match l with
  | [] => True
  | x :: rest => x = negb b /\ alternates x rest
  end.

(** The server never answers with anything truthy: it stays silent or
    acknowledges with an empty response. *)
Definition only_falsy (script : list CapFetch.Reply) : bool :=
  forallb (fun r => match r with
                    | CapFetch.Silent | CapFetch.Ack _ CapFetch.Falsy => true
                    | _ => false
                    end) script.

(** While no truthy answer has arrived the timer is still armed, or it
    has already rejected the promise. *)
Definition guarded (st : CapFetch.State) : Prop :=
  (CapFetch.timeoutArmed st = true /\
   CapFetch.promise st = CapFetch.Pending) \/
  (exists t,
     CapFetch.promise st = CapFetch.Rejected CapFetch.timeoutMessage t).

(** Rejected by the timer or by giving up after empty answers. *)
Definition rejected (st : CapFetch.State) : Prop :=
  exists msg t,
    CapFetch.promise st = CapFetch.Rejected msg t /\
    (msg = CapFetch.timeoutMessage \/ msg = CapFetch.exhaustedMessage).

(** The consumers closed by a list of client effects, in order. *)
Definition closed_consumers (e : list Client.Effect) : list Engine.ObjId :=
  flat_map (fun x => match x with
                     | Client.ConsumerClosed id => [id]
                     | _ => []
                     end) e.


(** What a server turn appended to the output. *)
Definition new_output (w w' : Server.World) : list Server.Output :=
  skipn (List.length (Server.out (Server.net w)))
        (Server.out (Server.net w')).

(** Every transport of the engine announces the address held in the
    shared transport settings. *)
Definition shared_ip (w : Server.World) : Prop :=
  forall id tr,
    In (id, tr) (Engine.transports (Server.engine w)) ->
    Server.announcedIp (Server.heap w)
    = Some (Engine.transport_announcedIp tr).

(** An announced address, once set, is still set afterwards. *)
Definition ip_pinned (w w' : Server.World) : Prop :=
  forall ip, Server.announcedIp (Server.heap w) = Some ip ->
             Server.announcedIp (Server.heap w') = Some ip.

(** The tracker's messages as they arrive on the sender's socket. *)
Definition speaking_requests (sock : string)
           (msgs : list Tracker.SpeakingMsg) : list Server.Event :=
  map (fun m => Server.request sock
                  (Server.Speaking (Tracker.msg_roomId m)
                                   (Tracker.msg_peerId m)
                                   (Tracker.msg_speaking m))) msgs.

(** The peer table of every room object has one entry per peer id, and
    the entry points to a socket whose handlers are registered for this
    room object under that peer id; no socket is both parked at
    [await createRoom] and registered. *)
Definition peers_sound (w : Server.World) : Prop :=
  NoDup (JsMap.keys (Server.pending (Server.net w))) /\
  (forall s, JsMap.has s (Server.pending (Server.net w)) = true ->
             JsMap.get s (Server.conns (Server.net w)) = None) /\
  (forall ref room,
     JsMap.get ref (Server.room_objs (Server.heap w)) = Some room ->
     NoDup (JsMap.keys (Server.room_peers room)) /\
     forall k s,
       In (k, s) (Server.room_peers room) ->
       exists c, JsMap.get s (Server.conns (Server.net w)) = Some c /\
                 Server.conn_peerId c = k /\ Server.conn_room c = ref).

(** Acknowledgements of a kind in the output so far. *)
Definition acked (kind : Server.Payload -> bool) (l : list Server.Output)
  : nat :=
  List.length
    (filter (fun o => match o with
                      | Server.Ack _ p => kind p
                      | _ => false
                      end) l).

Definition is_transport (p : Server.Payload) : bool :=
  match p with Server.TransportCreated _ => true | _ => false end.
Definition is_producer (p : Server.Payload) : bool :=
  match p with Server.ProducerCreated _ => true | _ => false end.
Definition is_consumer (p : Server.Payload) : bool :=
  match p with Server.ConsumerCreated _ _ _ _ => true | _ => false end.

(** The three global media stores hold one handle per acknowledged
    creation, under ids the engine has already given out. *)
Definition handles_kept (w : Server.World) : Prop :=
  (JsMap.size (Server.transports (Server.stores w))
   = acked is_transport (Server.out (Server.net w)) /\
   JsMap.size (Server.producers (Server.stores w))
   = acked is_producer (Server.out (Server.net w)) /\
   JsMap.size (Server.consumers (Server.stores w))
   = acked is_consumer (Server.out (Server.net w))) /\
  (forall k, In k (JsMap.keys (Server.transports (Server.stores w))) ->
             k < Engine.next_id (Server.engine w)) /\
  (forall k, In k (JsMap.keys (Server.producers (Server.stores w))) ->
             k < Engine.next_id (Server.engine w)) /\
  (forall k, In k (JsMap.keys (Server.consumers (Server.stores w))) ->
             k < Engine.next_id (Server.engine w)).

(** Everything on transport [t] is closed: the transport, the producers
    and consumers created on it, and the consumers of those producers. *)
Definition closed_on (t : Engine.ObjId) (e : Engine.State) : Prop :=
  (forall k tr, In (k, tr) (Engine.transports e) ->
                Engine.transport_id tr = t ->
                Engine.transport_closed tr = true) /\
  (forall k p, In (k, p) (Engine.producers e) ->
               Engine.producer_transport p = t ->
               Engine.producer_closed p = true) /\
  (forall k co, In (k, co) (Engine.consumers e) ->
                Engine.consumer_transport co = t ->
                Engine.consumer_closed co = true) /\
  (forall k co, In (k, co) (Engine.consumers e) ->
                Engine.producer_on t (Engine.producers e)
                                   (Engine.consumer_producerId co) = true ->
                Engine.consumer_closed co = true).

End Observe.

(* ================================================================== *)
(** * Part II: properties *)
(* ================================================================== *)

(** ** Ordered maps *)

Section JsMapFacts.
Context {K V : Type} `{EqDec K}.

Lemma get_set_eq (k : K) (v : V) (m : JsMap.t K V) :
  JsMap.get k (JsMap.set k v m) = Some v.
Proof.
  induction m as [|[k' v'] m IH]; cbn.
  - destruct (eq_dec k k); congruence.
  - destruct (eq_dec k k') as [->|Hne]; cbn.
    + destruct (eq_dec k' k'); congruence.
    + destruct (eq_dec k k'); [contradiction|exact IH].
Qed.

Lemma get_set_neq (k k' : K) (v : V) (m : JsMap.t K V) :
  k <> k' -> JsMap.get k' (JsMap.set k v m) = JsMap.get k' m.
Proof.
  intros Hne. induction m as [|[k0 v0] m IH]; cbn.
  - destruct (eq_dec k' k); congruence.
  - destruct (eq_dec k k0) as [->|Hk]; cbn.
    + destruct (eq_dec k' k0); congruence.
    + destruct (eq_dec k' k0); [reflexivity|exact IH].
Qed.

Lemma get_map_values (f : V -> V) (k : K) (m : JsMap.t K V) :
  JsMap.get k (JsMap.map_values f m) = option_map f (JsMap.get k m).
Proof.
  induction m as [|[k0 v0] m IH]; cbn; [reflexivity|].
  destruct (eq_dec k k0); [reflexivity|exact IH].
Qed.

Lemma has_set_same (k : K) (v : V) (m : JsMap.t K V) :
  JsMap.has k (JsMap.set k v m) = true.
Proof. unfold JsMap.has. now rewrite get_set_eq. Qed.

Lemma has_set_mono (k k' : K) (v : V) (m : JsMap.t K V) :
  JsMap.has k' m = true -> JsMap.has k' (JsMap.set k v m) = true.
Proof.
  unfold JsMap.has. destruct (eq_dec k k') as [->|Hne].
  - now rewrite get_set_eq.
  - now rewrite get_set_neq.
Qed.

Lemma get_in (k : K) (v : V) (m : JsMap.t K V) :
  JsMap.get k m = Some v -> In (k, v) m.
Proof.
  induction m as [|[k0 v0] m IH]; cbn; [discriminate|].
  destruct (eq_dec k k0) as [->|Hne].
  - intros [= ->]. now left.
  - intros Hg. right. now apply IH.
Qed.

Lemma in_set (k k' : K) (v v' : V) (m : JsMap.t K V) :
  In (k', v') (JsMap.set k v m) -> (k', v') = (k, v) \/ In (k', v') m.
Proof.
  induction m as [|[k0 v0] m IH]; cbn.
  - intros [<-|[]]. now left.
  - destruct (eq_dec k k0) as [->|Hne]; cbn.
    + intros [<-|Hin]; [now left|now right; right].
    + intros [<-|Hin]; [now right; left|].
      destruct (IH Hin) as [Heq|Hin']; [now left|now right; right].
Qed.

Lemma in_delete (k k' : K) (v' : V) (m : JsMap.t K V) :
  In (k', v') (JsMap.delete k m) -> In (k', v') m.
Proof.
  induction m as [|[k0 v0] m IH]; cbn; [auto|].
  destruct (eq_dec k k0); cbn.
  - now right.
  - intros [<-|Hin]; [now left|right; now apply IH].
Qed.

Lemma first_value_in (m : JsMap.t K V) (v : V) :
  JsMap.first_value m = Some v -> In v (JsMap.values m).
Proof.
  destruct m as [|[k0 v0] m]; cbn; [discriminate|].
  intros [= ->]. now left.
Qed.

End JsMapFacts.

(** ** Speaking-state tracker *)

Section TrackerFacts.
Import Tracker.
Variables (roomId peerId : string).

(** C7: fed the levels -60, -60, -40, -40, -60 against the threshold
    -50 from the not-speaking state, the tracker emits exactly two
    [speaking] messages, [true] then [false]. *)
Theorem C7_two_events_for_five_samples :
  speakingThreshold = (-50)%float /\
  feed roomId peerId initial
       [(-60)%float; (-60)%float; (-40)%float; (-40)%float; (-60)%float]
  = (initial, [say roomId peerId true; say roomId peerId false]).
Proof. split; reflexivity. Qed.

(** An all-zero frequency frame is taken as -90 dB without calling
    [Math.log10], and is not speech. *)
Lemma silent_frame_is_not_speaking (log10 : float -> float) :
  decibels_of log10 (repeat 0 128) = (-90)%float /\
  on_interval roomId peerId log10 initial (repeat 0 128) = (initial, []).
Proof. split; reflexivity. Qed.

Lemma detect_at_threshold (st : State) :
  detect roomId peerId st (-50)%float
  = if audioAnalyser st && speaking st
    then ({| audioAnalyser := true; speaking := false |}, [say roomId peerId false])
    else (st, []).
Proof. destruct st as [[|] [|]]; reflexivity. Qed.

Lemma feed_at_threshold_quiet (n : nat) (st : State) :
  speaking st = false ->
  feed roomId peerId st (repeat (-50)%float n) = (st, []).
Proof.
  intros Hs; induction n as [|n IH]; [reflexivity|].
  cbn [repeat feed]. rewrite detect_at_threshold, Hs, andb_false_r, IH.
  reflexivity.
Qed.

(** C10: the comparison with the threshold is strict. A level equal
    to the threshold is classified as not speaking, and a signal that
    stays at the threshold emits nothing from the not-speaking state
    and never emits [speaking = true] from any state. *)
Theorem C10_level_at_threshold_is_silence (n : nat) :
  isSpeaking speakingThreshold = false /\
  feed roomId peerId initial (repeat (-50)%float n) = (initial, []) /\
  forall st,
    Forall (fun m => msg_speaking m = false)
           (snd (feed roomId peerId st (repeat (-50)%float n))).
Proof.
  split; [reflexivity|]. split; [now apply feed_at_threshold_quiet|].
  intros st. destruct n as [|n]; [constructor|].
  cbn [repeat feed]. rewrite detect_at_threshold.
  destruct (audioAnalyser st && speaking st) eqn:E.
  - rewrite feed_at_threshold_quiet by reflexivity. cbn.
    repeat constructor.
  - destruct st as [a [|]].
    + destruct a; [discriminate|].
      clear E. cbn.
      assert (H : forall k, feed roomId peerId
                   {| audioAnalyser := false; speaking := true |}
                   (repeat (-50)%float k)
                 = ({| audioAnalyser := false; speaking := true |}, [])).
      { induction k as [|k IH]; [reflexivity|].
        cbn [repeat feed]. rewrite detect_at_threshold. cbn.
        rewrite IH. reflexivity. }
      rewrite H. constructor.
    + rewrite feed_at_threshold_quiet by reflexivity. constructor.
Qed.
End TrackerFacts.

(** ** Capability fetch *)

Section CapFetchFacts.
Import CapFetch.

Lemma attempts_settle (p : Promise) (st : State) :
  attempts (settle p st) = attempts st.
Proof. unfold settle; destruct (promise st); reflexivity. Qed.

Lemma attempts_fire_timeout (st : State) :
  attempts (fire_timeout st) = attempts st.
Proof.
  unfold fire_timeout; destruct (timeoutArmed st); [|reflexivity].
  now rewrite attempts_settle.
Qed.

Lemma attempts_advance (t : N) (st : State) :
  attempts (advance t st) = attempts st.
Proof.
  unfold advance; cbn [attempts].
  destruct (N.leb timeoutDuration t); [apply attempts_fire_timeout|reflexivity].
Qed.

(** The retry guard bounds the number of emits, whatever the server does. *)
Lemma attempts_never_exceed_max (script : list Reply) :
  forall st, attempts st < maxAttempts ->
             attempts (attemptGetCapabilities script st) <= maxAttempts.
Proof.
  induction script as [|r rest IH]; intros st Hlt.
  - cbn. rewrite attempts_fire_timeout. cbn. lia.
  - cbn [attemptGetCapabilities].
    destruct r as [|delay resp].
    + unfold quiesce. rewrite attempts_fire_timeout. cbn. lia.
    + destruct resp as [|msg|caps].
      * destruct (Nat.ltb _ _) eqn:E.
        -- apply IH. rewrite attempts_advance.
           now apply Nat.ltb_lt in E.
        -- unfold quiesce.
           rewrite attempts_fire_timeout, attempts_settle. cbn [clearTimeout attempts].
           rewrite attempts_advance. cbn. lia.
      * destruct (String.eqb msg "");
          [unfold quiesce;
           rewrite attempts_fire_timeout, attempts_settle;
           cbn [clearTimeout attempts];
           rewrite attempts_advance; cbn; lia|].
        destruct (Nat.ltb _ _) eqn:E.
        -- apply IH. rewrite attempts_advance.
           now apply Nat.ltb_lt in E.
        -- unfold quiesce.
           rewrite attempts_fire_timeout, attempts_settle. cbn [clearTimeout attempts].
           rewrite attempts_advance. cbn. lia.
      * unfold quiesce.
        rewrite attempts_fire_timeout, attempts_settle. cbn [clearTimeout attempts].
        rewrite attempts_advance. cbn. lia.
Qed.

Lemma at_most_three_attempts (script : list Reply) :
  attempts (loadRouterRtpCapabilities script) <= 3.
Proof.
  apply (attempts_never_exceed_max script start).
  unfold maxAttempts; cbn; lia.
Qed.

(** A server that stays silent from the first emit on is caught by the
    timer: the promise is rejected at 20 s. *)
Lemma silent_server_times_out :
  promise (loadRouterRtpCapabilities [Silent])
  = Rejected timeoutMessage 20000.
Proof. reflexivity. Qed.

(** An error response before the 20 s mark clears the timer for good:
    if the retry is never answered, nothing is left to settle the
    promise. *)
Lemma error_then_silence_never_settles (delay : N) (msg : string) :
  (delay < timeoutDuration)%N ->
  msg <> "" ->
  let final := loadRouterRtpCapabilities [Ack delay (ErrorResponse msg); Silent] in
  promise final = Pending /\ timeoutArmed final = false /\ attempts final = 2.
Proof.
  intros Hd Hmsg. apply String.eqb_neq in Hmsg.
  assert (E : N.leb timeoutDuration (0 + delay) = false)
    by (apply N.leb_gt; lia).
  unfold loadRouterRtpCapabilities, attemptGetCapabilities, advance,
    start, bump; cbn [now attempts timeoutArmed promise].
  rewrite E, Hmsg; cbn [now attempts timeoutArmed promise clearTimeout].
  unfold quiesce, fire_timeout, clearTimeout, maxAttempts;
    cbn [now attempts timeoutArmed promise Nat.ltb Nat.leb].
  destruct (N.leb timeoutDuration (0 + delay + retryDelay));
    cbn [now attempts timeoutArmed promise]; auto.
Qed.

(** C8 (evaluated at the failing input): the first request is answered
    with an error after 100 ms and the retry is never answered. The
    client has made two attempts, the timer is no longer armed and the
    promise stays pending: no rejection at 20 s. *)
Theorem C8_timeout_lost_after_error_response :
  loadRouterRtpCapabilities [Ack 100 (ErrorResponse "boom"); Silent]
  = {| now := 1100; attempts := 2; timeoutArmed := false;
       promise := Pending |}.
Proof. reflexivity. Qed.

End CapFetchFacts.

(** ** Server: what the handlers do to the stores *)

Section ServerFacts.
Import Server.
Variable host : Host.

(** [resumeConsumer] on an id of the global consumer store: the reply
    is the engine's verdict, never "not found". *)
Lemma on_resumeConsumer_known (sock : SocketId)
      (co h : Engine.ObjId) (w : World) :
  JsMap.get co (consumers (stores w)) = Some h ->
  on_resumeConsumer host sock co w
  = match Engine.resume (media host) h (engine w) with
    | (inr _, e') =>
        (Ok tt, log [Ack sock Success] (upd_engine (fun _ => e') w))
    | (inl msg, e') =>
        (Ok tt, log [Ack sock (ErrorPayload (EngineError msg))]
                    (upd_engine (fun _ => e') w))
    end.
Proof.
  intros H. unfold on_resumeConsumer, try_catch, bind, gets.
  rewrite H. unfold engine_call.
  destruct (Engine.resume (media host) h (engine w)) as [[msg|[]] e'];
    reflexivity.
Qed.

Lemma on_resumeConsumer_unknown (sock : SocketId)
      (co : Engine.ObjId) (w : World) :
  JsMap.get co (consumers (stores w)) = None ->
  on_resumeConsumer host sock co w
  = (Ok tt, log [Ack sock (ErrorPayload (ConsumerNotFound co))] w).
Proof.
  intros H. unfold on_resumeConsumer, try_catch, bind, gets.
  now rewrite H.
Qed.

(** The disconnect handler deletes from [room.peers], [peers], [users]
    and [rooms]; the three media stores come out as they went in. *)
Lemma disconnect_keeps_media_stores (sock : SocketId) (w : World) :
  let w' := step host (Disconnect sock) w in
  transports (stores w') = transports (stores w) /\
  producers (stores w') = producers (stores w) /\
  consumers (stores w') = consumers (stores w).
Proof.
  unfold step. destruct (JsMap.get sock (conns (net w))) as [c|]; [|now auto].
  unfold run_handler, on_disconnect, bind, gets, modify, emit_to_room,
    mutate_room. cbn.
  match goal with |- context [Nat.eqb ?a 0] => destruct (Nat.eqb a 0) end;
    cbn; auto.
Qed.

End ServerFacts.

Section ScenarioFacts.
Import Server Scenario.

(** When the connections do not overlap, the second one finds the room
    of the first: one room object, shared. *)
Lemma sequential_connections_share_room :
  let w := run permissive_host
             [ Connection "sA" "r1" "alice" "10.0.0.1"; RouterReady "sA";
               Connection "sB" "r1" "bob" "10.0.0.2" ] (initial 1) in
  map room_router (room_instances "r1" w) = [0] /\
  option_map conn_room (JsMap.get "sA" (conns (net w))) = Some 0 /\
  option_map conn_room (JsMap.get "sB" (conns (net w))) = Some 0.
Proof. repeat split; reflexivity. Qed.

(** C9 (evaluated at the failing input): two connections for the same
    unknown room id, the second arriving while the first is suspended in
    [createRoom]. Both find [rooms] without the id and both build a
    room: two room objects with two routers exist for the id, each peer
    is registered in its own, and [rooms] keeps the later one. *)
Theorem C9_racing_connections_create_two_rooms :
  let w := run permissive_host race (initial 1) in
  map room_router (room_instances "r1" w) = [0; 1] /\
  map room_peers (room_instances "r1" w)
    = [ [("alice", "sA")]; [("bob", "sB")] ] /\
  option_map conn_room (JsMap.get "sA" (conns (net w))) = Some 0 /\
  option_map conn_room (JsMap.get "sB" (conns (net w))) = Some 1 /\
  JsMap.get "r1" (rooms (stores w)) = Some 1.
Proof. repeat split; reflexivity. Qed.

(** C2 (evaluated at the failing input): Alice and Bob leave the room
    of the [session] scenario. The room is gone from [rooms] and the
    peers from [peers], but the transports, the producer and the
    consumer created in the room are still in the global stores. *)
Theorem C2_handles_retained_after_last_peer_left :
  let w := run permissive_host
             (session ++ [Disconnect "sA"; Disconnect "sB"]) (initial 1) in
  JsMap.get "r1" (rooms (stores w)) = None /\
  map room_peers (room_instances "r1" w) = [ [] ] /\
  peers (stores w) = [] /\
  get_status w = {| status_rooms := []; roomCount := 0; peerCount := 0;
                    workerCount := 1 |} /\
  get_room_data "r1" w = None /\
  transports (stores w) = [(1, 1); (3, 3)] /\
  producers (stores w) = [(2, 2)] /\
  consumers (stores w) = [(4, 4)].
Proof. repeat split; reflexivity. Qed.

(** C6 (evaluated at two failing inputs).
    (1) A [produce] event whose payload is [null]: the parameter pattern
    throws before the handler's [try] is entered, so the callback is
    not invoked and the exception escapes the handler.
    (2) A well-formed [produce] of kind audio from a peer whose id makes
    [fs.createWriteStream] throw: [callback({ id })] has already run
    when [startRecording] throws inside the [try], and the [catch]
    invokes the callback a second time with [{ error }]. *)
Theorem C6_produce_callback_not_exactly_once :
  (let w := in_session in
   out (net (step permissive_host (Incoming "sA" (NullPayload "produce")) w))
   = out (net w) ++ [Uncaught "sA" (TypeError "produce")]) /\
  (let w := run validating_host nul_peer (initial 1) in
   out (net (step validating_host
                  (request "sA" (ProduceReq 1 "audio" "rtpA")) w))
   = out (net w)
     ++ [ Ack "sA" (ProducerCreated 2);
          Ack "sA" (ErrorPayload
            (HostError
               "The argument 'path' must be a string without null bytes")) ]).
Proof. split; vm_compute; reflexivity. Qed.

(** C1 (counterexample): in the [unconnected] scenario transport 2 was
    opened by Bob with [sender: false] and never connected. Alice, who
    owns no transport, asks to produce on it: the request succeeds and a
    producer is registered for her on Bob's unconnected transport. *)
Lemma C1_produce_on_unconnected_foreign_transport :
  let w := before_connect in
  let w' := step permissive_host
                 (request "sA" (ProduceReq 2 "audio" "rtpA")) w in
  Engine.transport_connected_in (engine w) 2 = false /\
  option_map peer_transports (JsMap.get "sA" (peer_objs (heap w)))
    = Some [] /\
  option_map peer_transports (JsMap.get "sB" (peer_objs (heap w)))
    = Some [(1, 1); (2, 2)] /\
  acks_to "sA" (skipn (List.length (out (net w))) (out (net w')))
    = [ProducerCreated 3] /\
  option_map Engine.producer_transport
    (JsMap.get 3 (Engine.producers (engine w'))) = Some 2 /\
  option_map peer_producers (JsMap.get "sA" (peer_objs (heap w')))
    = Some [(3, 3)].
Proof. repeat split; vm_compute; reflexivity. Qed.


End ScenarioFacts.

(** ** Produce and consume: what decides the reply *)

Section ProduceConsume.
Import Server.
Variable host : Host.
Variable sock : SocketId.
Variable c : Conn.

(** C1 (amended): the [produce] handler consults the global transport
    store and nothing else. An id that is not a key of the store is
    answered with "Transport <id> not found"; for a known id the engine
    is asked. If it rejects, its message is the reply; if it accepts,
    the producer exists on that transport, is registered in the
    requesting peer's [producers] and in the global store, is announced
    to the rest of the room and acknowledged with its id. Neither the
    transport's connection state, nor its direction, nor its owner is
    looked at. *)
Theorem C1_produce_decided_by_store_and_engine
        (transportId : Engine.ObjId) (kind : string)
        (rtp : Engine.RtpParameters) (w : World) :
  match JsMap.get transportId (transports (stores w)) with
  | None =>
      on_produce host sock c transportId kind rtp w
      = (Ok tt, log [Ack sock (ErrorPayload (TransportNotFound transportId))] w)
  | Some t =>
      match Engine.produce (media host) t kind rtp (engine w) with
      | (inl msg, e') =>
          on_produce host sock c transportId kind rtp w
          = (Ok tt, log [Ack sock (ErrorPayload (EngineError msg))]
                        (upd_engine (fun _ => e') w))
      | (inr p, e') =>
          let w' := snd (on_produce host sock c transportId kind rtp w) in
          engine w' = e' /\
          option_map Engine.producer_transport
            (JsMap.get p (Engine.producers (engine w'))) = Some t /\
          JsMap.get p (producers (stores w')) = Some p /\
          JsMap.get p (peer_producers (the_peer sock c w')) = Some p /\
          exists rest,
            out (net w')
            = out (net w)
              ++ map (fun s => Deliver s (NewProducer (conn_peerId c) p kind))
                     (recipients sock (conn_roomId c) w)
              ++ Ack sock (ProducerCreated p) :: rest
      end
  end.
Proof.
  unfold on_produce, try_catch, bind, gets.
  destruct (JsMap.get transportId (transports (stores w))) as [t|];
    [|reflexivity].
  unfold engine_call.
  destruct (Engine.produce (media host) t kind rtp (engine w))
    as [[msg|p] e'] eqn:Hp; [reflexivity|].
  assert (He : JsMap.get p (Engine.producers e') =
               Some {| Engine.producer_id := p;
                       Engine.producer_transport := t;
                       Engine.producer_kind := kind;
                       Engine.producer_rtpParameters := rtp;
                       Engine.producer_closed := false |}).
  { unfold Engine.produce in Hp.
    destruct (Engine.rejects _ _ _); [discriminate|].
    injection Hp as <- <-. cbn. apply get_set_eq. }
  unfold mutate_peer, modify, emit_to_room, callback, startRecording,
    bind, gets, mutate_room, modify.
  destruct (String.eqb kind "audio"); cbn.
  - destruct (createWriteStream host _ _); cbn;
      (split; [reflexivity|]);
      (split; [now rewrite He|]);
      (split; [apply get_set_eq|]);
      (split; [unfold the_peer; cbn; rewrite get_set_eq; cbn;
               apply get_set_eq|]).
    + unfold recipients; cbn. rewrite <- app_assoc. cbn.
      eexists. rewrite <- app_assoc. reflexivity.
    + unfold recipients; cbn. eexists. rewrite <- app_assoc. reflexivity.
  - (split; [reflexivity|]);
      (split; [now rewrite He|]);
      (split; [apply get_set_eq|]);
      (split; [unfold the_peer; cbn; rewrite get_set_eq; cbn;
               apply get_set_eq|]).
    unfold recipients; cbn. eexists. rewrite <- app_assoc. reflexivity.
Qed.


End ProduceConsume.

(** ** Consumer life cycle *)

(** Facts that hold for every relation between worlds that
    - is transitive,
    - holds when neither the engine nor the global consumer store
      changed,
    - holds across the engine's quiet moves, and
    - holds when a handle is stored under its own id. *)
Section Keeps.
Import Server.
Variable host : Host.
Variable R : World -> World -> Prop.
Hypothesis R_trans : forall a b c, R a b -> R b c -> R a c.
Hypothesis R_frame :
  forall w w', engine w' = engine w ->
               consumers (stores w') = consumers (stores w) -> R w w'.
Hypothesis R_move :
  forall w e', quiet_move (media host) (engine w) e' ->
               R w (upd_engine (fun _ => e') w).
Hypothesis R_store :
  forall w id, R w (upd_consumers (JsMap.set id id) w).

Lemma keeps_ret {A} (a : A) : keeps R (ret a).
Proof. intros w. now apply R_frame. Qed.

Lemma keeps_throw {A} (e : Error) : keeps R (@throw A e).
Proof. intros w. now apply R_frame. Qed.

Lemma keeps_gets {A} (f : World -> A) : keeps R (gets f).
Proof. intros w. now apply R_frame. Qed.

Lemma keeps_bind {A B} (m : M A) (k : A -> M B) :
  keeps R m -> (forall a, keeps R (k a)) -> keeps R (bind m k).
Proof.
  intros Hm Hk w. unfold bind. specialize (Hm w).
  destruct (m w) as [[a|e] w1]; cbn in *; [|exact Hm].
  exact (R_trans Hm (Hk a w1)).
Qed.

Lemma keeps_try (body : M unit) (handler : Error -> M unit) :
  keeps R body -> (forall e, keeps R (handler e)) ->
  keeps R (try_catch body handler).
Proof.
  intros Hb Hh w. unfold try_catch. specialize (Hb w).
  destruct (body w) as [[u|e] w1]; cbn in *; [exact Hb|].
  exact (R_trans Hb (Hh e w1)).
Qed.

Lemma keeps_modify (f : World -> World) :
  (forall w, engine (f w) = engine w) ->
  (forall w, consumers (stores (f w)) = consumers (stores w)) ->
  keeps R (modify f).
Proof. intros He Hs w. cbn. now apply R_frame. Qed.

Lemma keeps_store (id : Engine.ObjId) :
  keeps R (modify (upd_consumers (JsMap.set id id))).
Proof. intros w. apply R_store. Qed.

Lemma keeps_engine_call {A}
      (op : Engine.State -> (string + A) * Engine.State) :
  (forall e, quiet_move (media host) e (snd (op e))) ->
  keeps R (engine_call op).
Proof.
  intros Hop w. unfold engine_call. specialize (Hop (engine w)).
  destruct (op (engine w)) as [[msg|a] e']; cbn in *; now apply R_move.
Qed.

Lemma keeps_close_all (l : list Engine.ObjId) :
  keeps R (modify (upd_engine (fun e =>
    fold_left (fun e t => Engine.close t e) l e))).
Proof.
  induction l as [|t l IH] using rev_ind; intros w.
  - now apply R_frame.
  - pose (w1 := upd_engine (fun e =>
                  fold_left (fun e t => Engine.close t e) l e) w).
    apply R_trans with w1; [apply (IH w)|].
    unfold modify; cbn [snd]. unfold upd_engine at 1.
    rewrite fold_left_app.
    exact (R_move w1 (mv_close (media host) (engine w1) t)).
Qed.

#[local] Hint Resolve keeps_ret keeps_throw keeps_gets keeps_bind keeps_try
  keeps_store keeps_engine_call keeps_close_all : keeps.
#[local] Hint Constructors quiet_move : keeps.
#[local] Hint Extern 2 (keeps _ (modify _)) =>
  (apply keeps_modify; intros; reflexivity) : keeps.
#[local] Hint Extern 4 (keeps _ _) =>
  match goal with
  | |- keeps _ (match ?x with _ => _ end) => destruct x
  end : keeps.
#[local] Hint Extern 1 (keeps _ (callback _ _)) => unfold callback : keeps.
#[local] Hint Extern 1 (keeps _ (emit_self _ _)) => unfold emit_self : keeps.
#[local] Hint Extern 1 (keeps _ (emit_to_room _ _ _)) =>
  unfold emit_to_room : keeps.
#[local] Hint Extern 1 (keeps _ (mutate_room _ _)) =>
  unfold mutate_room : keeps.
#[local] Hint Extern 1 (keeps _ (mutate_peer _ _ _)) =>
  unfold mutate_peer : keeps.
#[local] Hint Extern 1 (keeps _ (startRecording _ _ _)) =>
  unfold startRecording : keeps.
#[local] Hint Extern 1 (keeps _ (createWebRtcTransport _ _ _)) =>
  unfold createWebRtcTransport : keeps.

Lemma keeps_dispatch (sock : SocketId) (c : Conn) (r : Request) :
  (forall co, r <> ResumeConsumer co) -> keeps R (dispatch host sock c r).
Proof.
  intros Hr. destruct r; cbn [dispatch];
    try (exfalso; eapply Hr; reflexivity).
  - unfold on_getRouterRtpCapabilities. eauto 20 with keeps.
  - unfold on_joinRoom. eauto 20 with keeps.
  - unfold on_speaking. eauto 20 with keeps.
  - unfold on_createWebRtcTransport. eauto 30 with keeps.
  - unfold on_connectWebRtcTransport. eauto 20 with keeps.
  - unfold on_produce. eauto 30 with keeps.
  - unfold on_consume. eauto 30 with keeps.
  - unfold on_stopRecording. eauto 20 with keeps.
Qed.

Lemma keeps_on_disconnect (sock : SocketId) (c : Conn) :
  keeps R (on_disconnect sock c).
Proof. unfold on_disconnect. eauto 40 with keeps. Qed.

Lemma keeps_finish_connection (sock : SocketId)
      (roomId peerId clientIp : string) (room : RoomRef) :
  keeps R (finish_connection sock roomId peerId clientIp room).
Proof. unfold finish_connection. eauto 30 with keeps. Qed.

Lemma keeps_createRoom_call : keeps R (createRoom_call host).
Proof.
  unfold createRoom_call.
  apply keeps_bind; [apply keeps_gets|intros n].
  destruct (Nat.eqb n 0); [apply keeps_throw|].
  intros w.
  pose proof (mv_createRouter (media host) (engine w)) as Hmv.
  destruct (Engine.createRouter (media host) (engine w)) as [res e'].
  exact (R_move w Hmv).
Qed.

Lemma keeps_createRoom_resume (roomId : string)
      (res : string + Engine.ObjId) :
  keeps R (createRoom_resume roomId res).
Proof. unfold createRoom_resume. destruct res; eauto 20 with keeps. Qed.

Lemma keeps_on_connection (sock : SocketId)
      (roomId peerId clientIp : string) :
  keeps R (on_connection host sock roomId peerId clientIp).
Proof.
  pose proof keeps_finish_connection. pose proof keeps_createRoom_call.
  unfold on_connection. eauto 20 with keeps.
Qed.

Lemma keeps_on_router_ready (sock : SocketId) (p : Pending) :
  keeps R (on_router_ready sock p).
Proof.
  pose proof keeps_finish_connection. pose proof keeps_createRoom_resume.
  unfold on_router_ready. eauto 20 with keeps.
Qed.

Lemma keeps_receive (sock : SocketId) (c : Conn) (m : Message) :
  (forall co, m <> WithPayload (ResumeConsumer co)) ->
  keeps R (receive host sock c m).
Proof.
  intros Hm. destruct m as [r|event]; cbn [receive].
  - apply keeps_dispatch. intros co ->. now apply (Hm co).
  - destruct (String.eqb event "getRouterRtpCapabilities").
    + unfold on_getRouterRtpCapabilities. eauto 20 with keeps.
    + destruct (existsb _ _); auto with keeps.
Qed.

Lemma run_handler_keeps (sock : SocketId) (m : M unit) (w : World) :
  keeps R m -> R w (run_handler sock m w).
Proof.
  intros Hm. unfold run_handler. specialize (Hm w).
  destruct (m w) as [[u|e] w1]; cbn in *; [exact Hm|].
  eapply R_trans; [exact Hm|]. now apply R_frame.
Qed.

(** Every turn of the event loop other than a [resumeConsumer] request
    respects the relation. *)
Lemma step_keeps (ev : Event) (w : World) :
  is_resume ev = false -> R w (step host ev w).
Proof.
  intros Hev. destruct ev as [sock roomId peerId ip|sock|sock m|sock];
    cbn [step].
  - destruct (_ || _); [now apply R_frame|].
    apply run_handler_keeps, keeps_on_connection.
  - destruct (JsMap.get sock (pending (net w))) as [p|];
      [|now apply R_frame].
    apply R_trans with (b := upd_pending (JsMap.delete sock) w);
      [now apply R_frame|].
    apply run_handler_keeps, keeps_on_router_ready.
  - destruct (JsMap.get sock (conns (net w))) as [c|];
      [|now apply R_frame].
    apply run_handler_keeps, keeps_receive.
    intros co ->. discriminate Hev.
  - destruct (JsMap.get sock (conns (net w))) as [c|];
      [|now apply R_frame].
    apply R_trans with (b := upd_joined (JsMap.delete sock) w);
      [now apply R_frame|].
    eapply R_trans; [apply run_handler_keeps, keeps_on_disconnect|].
    now apply R_frame.
Qed.

End Keeps.

Section ConsumerLifeCycle.
Import Server.
Variable host : Host.
Variable x : Engine.ObjId.

(** No engine call other than [resume] turns a consumer active: a new
    consumer is created paused, and closing keeps the paused flag. *)
Lemma quiet_move_no_activation (e e' : Engine.State) :
  quiet_move (media host) e e' ->
  Engine.consumer_active_in e' x = true ->
  Engine.consumer_active_in e x = true.
Proof.
  unfold Engine.consumer_active_in.
  intros [e0|e0 router ip|e0 t dtls|e0 t kind rtp|e0 t p caps|e0 t].
  - unfold Engine.createRouter.
    destruct (Engine.rejects _ _ _); cbn; auto.
  - unfold Engine.createWebRtcTransport.
    destruct (Engine.rejects _ _ _); cbn; auto.
  - unfold Engine.connect.
    destruct (Engine.rejects _ _ _); cbn; auto.
    destruct (JsMap.get t (Engine.transports e0)); cbn; auto.
  - unfold Engine.produce.
    destruct (Engine.rejects _ _ _); cbn; auto.
  - unfold Engine.consume.
    destruct (Engine.rejects _ _ _); cbn; auto.
    destruct (JsMap.get p (Engine.producers e0)); cbn; auto.
    destruct (Nat.eq_dec (Engine.next_id e0) x) as [->|Hne].
    + rewrite get_set_eq. cbn. discriminate.
    + now rewrite get_set_neq.
  - cbn. rewrite get_map_values.
    destruct (JsMap.get x (Engine.consumers e0)) as [co|]; cbn; auto.
    destruct (_ || _); auto.
Qed.

Lemma no_activation_step (ev : Event) (w : World) :
  is_resume ev = false -> no_activation x w (step host ev w).
Proof.
  apply step_keeps.
  - unfold no_activation. auto.
  - unfold no_activation, consumer_active. intros w0 w1 -> _. auto.
  - unfold no_activation, consumer_active. intros w0 e' Hmv. cbn.
    now apply quiet_move_no_activation.
  - unfold no_activation, consumer_active. intros w0 id. cbn. auto.
Qed.

(** [resume] on a handle [h] changes the paused flag of [h] only, and
    only if [h] names a consumer of the engine. *)
Lemma resume_activates_only_its_handle (h : Engine.ObjId)
      (e : Engine.State) :
  let e' := snd (Engine.resume (media host) h e) in
  Engine.consumer_active_in e' x = true ->
  Engine.consumer_active_in e x = true \/
  (h = x /\ Engine.consumer_paused_in e x = true).
Proof.
  unfold Engine.resume, Engine.consumer_active_in,
    Engine.consumer_paused_in.
  destruct (Engine.rejects _ _ _); cbn; auto.
  destruct (JsMap.get h (Engine.consumers e)) as [co|] eqn:Hh; cbn; auto.
  destruct (Engine.consumer_closed co); cbn; auto.
  destruct (Nat.eq_dec h x) as [->|Hne].
  - rewrite Hh. intros _. destruct (Engine.consumer_paused co); auto.
  - rewrite get_set_neq by assumption. auto.
Qed.

(** The only turn of the event loop after which a consumer is active
    that was not active before is a [resumeConsumer] request that names
    the consumer's handle, and the consumer was paused before it. *)
Lemma activation_is_a_resume (ev : Event) (w : World) :
  consumer_active (step host ev w) x = true ->
  consumer_active w x = true \/
  (consumer_paused w x = true /\
   exists sock k, ev = request sock (ResumeConsumer k) /\
                  JsMap.get k (consumers (stores w)) = Some x).
Proof.
  destruct (is_resume ev) eqn:Hev.
  - destruct ev as [| |sock [[| | | | | | |k|]|]|]; try discriminate Hev.
    cbn [step]. destruct (JsMap.get sock (conns (net w))) as [c|]; auto.
    unfold run_handler, receive, dispatch.
    destruct (JsMap.get k (consumers (stores w))) as [h|] eqn:Hk.
    + rewrite (on_resumeConsumer_known host sock k w Hk).
      pose proof (resume_activates_only_its_handle h (engine w)) as Hres.
      destruct (Engine.resume (media host) h (engine w)) as [[msg|[]] e'];
        cbn in Hres |- *; unfold consumer_active, consumer_paused; cbn;
        (intros Ha; destruct (Hres Ha) as [Hb|[-> Hp]];
         [now left|right; split; [exact Hp|now exists sock, k]]).
    + rewrite (on_resumeConsumer_unknown host sock k w Hk). cbn. auto.
  - intros Ha. left. exact (no_activation_step ev w Hev Ha).
Qed.

Lemma self_keyed_step (ev : Event) (w : World) :
  self_keyed w -> self_keyed (step host ev w).
Proof.
  destruct (is_resume ev) eqn:Hev.
  - destruct ev as [| |sock [[| | | | | | |k|]|]|]; try discriminate Hev.
    cbn [step]. destruct (JsMap.get sock (conns (net w))) as [c|]; auto.
    unfold run_handler, receive, dispatch.
    destruct (JsMap.get k (consumers (stores w))) as [h|] eqn:Hk.
    + rewrite (on_resumeConsumer_known host sock k w Hk).
      destruct (Engine.resume (media host) h (engine w)) as [[msg|[]] e'];
        cbn; auto.
    + rewrite (on_resumeConsumer_unknown host sock k w Hk). cbn. auto.
  - change (keeps_self_keyed w (step host ev w)).
    apply step_keeps; [| | | |exact Hev]; unfold keeps_self_keyed, self_keyed.
    + auto.
    + intros w0 w1 _ ->. auto.
    + intros w0 e' _. cbn. auto.
    + intros w0 id Hw k h. cbn.
      destruct (Nat.eq_dec id k) as [->|Hne].
      * rewrite get_set_eq. now intros [= <-].
      * rewrite get_set_neq by assumption. apply Hw.
Qed.

Lemma self_keyed_run (evs : list Event) (w : World) :
  self_keyed w -> self_keyed (run host evs w).
Proof.
  revert w. induction evs as [|ev evs IH]; intros w Hw; [exact Hw|].
  cbn. apply IH. now apply self_keyed_step.
Qed.

Lemma run_snoc (evs : list Event) (ev : Event) (w : World) :
  run host (evs ++ [ev]) w = step host ev (run host evs w).
Proof. unfold run. now rewrite fold_left_app. Qed.

(** C4: a consumer is paused when it comes into existence, the only
    turn of the event loop that makes it active is a [resumeConsumer]
    request for its id while it is paused, and so in every run of the
    server from its initial state a consumer that is active has been
    paused at an earlier point and was then explicitly resumed. *)
Theorem C4_consumer_active_only_via_paused_and_resume (numWorkers : nat) :
  (forall ev w,
     JsMap.get x (Engine.consumers (engine w)) = None ->
     JsMap.get x (Engine.consumers (engine (step host ev w))) <> None ->
     consumer_paused (step host ev w) x = true) /\
  (forall ev w,
     self_keyed w ->
     consumer_active w x = false ->
     consumer_active (step host ev w) x = true ->
     consumer_paused w x = true /\
     exists sock, ev = request sock (ResumeConsumer x)) /\
  (forall evs,
     consumer_active (run host evs (initial numWorkers)) x = true ->
     exists pre sock post,
       evs = pre ++ request sock (ResumeConsumer x) :: post /\
       consumer_paused (run host pre (initial numWorkers)) x = true).
Proof.
  assert (Hstep : forall ev w,
            self_keyed w ->
            consumer_active (step host ev w) x = true ->
            consumer_active w x = true \/
            (consumer_paused w x = true /\
             exists sock, ev = request sock (ResumeConsumer x))).
  { intros ev w Hw Ha.
    destruct (activation_is_a_resume ev w Ha)
      as [Hb|[Hp (sock & k & -> & Hk)]]; [now left|].
    right. split; [exact Hp|]. exists sock. now rewrite (Hw k x Hk). }
  split; [|split].
  - intros ev w Habsent Hpresent.
    unfold consumer_paused, Engine.consumer_paused_in.
    destruct (JsMap.get x (Engine.consumers (engine (step host ev w))))
      as [co|] eqn:Hco; [|contradiction].
    destruct (Engine.consumer_paused co) eqn:Hp; [reflexivity|].
    assert (Ha : consumer_active (step host ev w) x = true).
    { unfold consumer_active, Engine.consumer_active_in.
      now rewrite Hco, Hp. }
    destruct (activation_is_a_resume ev w Ha) as [Hb|[Hb _]];
      unfold consumer_active, Engine.consumer_active_in,
        consumer_paused, Engine.consumer_paused_in in Hb;
      rewrite Habsent in Hb; discriminate.
  - intros ev w Hw Hbefore Hafter.
    destruct (Hstep ev w Hw Hafter) as [Hb|H]; [congruence|exact H].
  - intros evs. induction evs as [|ev evs IH] using rev_ind.
    + discriminate.
    + rewrite run_snoc. intros Ha.
      assert (Hw : self_keyed (run host evs (initial numWorkers))).
      { apply self_keyed_run. intros k h. discriminate. }
      destruct (Hstep _ _ Hw Ha) as [Hb|[Hp (sock & ->)]].
      * destruct (IH Hb) as (pre & sock & post & -> & Hp).
        exists pre, sock, (post ++ [ev]).
        split; [|exact Hp]. now rewrite <- app_assoc.
      * now exists evs, sock, [].
Qed.

End ConsumerLifeCycle.

(** The [session] scenario as an instance: consumer 4 is active at its
    end, and the run splits at Bob's [resumeConsumer] request. *)
Lemma C4_session_witness :
  Server.consumer_active
    (Server.run Server.permissive_host Scenario.session (Server.initial 1)) 4
  = true /\
  exists pre sock post,
    Scenario.session
    = pre ++ Server.request sock (Server.ResumeConsumer 4) :: post /\
    Server.consumer_paused
      (Server.run Server.permissive_host pre (Server.initial 1)) 4 = true.
Proof.
  split; [vm_compute; reflexivity|].
  apply (proj2 (proj2
    (C4_consumer_active_only_via_paused_and_resume
       Server.permissive_host 4 1))).
  vm_compute; reflexivity.
Defined.

(** ** Acknowledgements *)

Section Acknowledgements.
Import Server.
Variable host : Host.
Variable sock : SocketId.
Variable c : Conn.

Lemma no_ack_among_pushes (ev : Push) (l : list SocketId) :
  acks_to sock (map (fun s => Deliver s ev) l) = [] /\
  uncaught_in (map (fun s => Deliver s ev) l) = [].
Proof. induction l as [|s l [IH1 IH2]]; cbn; auto. Qed.

(** With an object payload, and when [fs.createWriteStream] accepts the
    recording path, every request that carries a callback is answered
    by exactly one invocation of it, after the pushes the handler sends
    to other sockets, and no exception escapes the handler. *)
Lemma object_payload_acked_once (r : Request) (w : World) :
  (forall room peer, createWriteStream host room peer = None) ->
  carries_callback r = true ->
  exists pre p,
    out (net (run_handler sock (dispatch host sock c r) w))
    = out (net w) ++ pre ++ [Ack sock p] /\
    acks_to sock pre = [] /\ uncaught_in pre = [].
Proof.
  intros Hfs Hcb.
  destruct r; try discriminate Hcb; clear Hcb;
    unfold run_handler, dispatch,
      on_getRouterRtpCapabilities, on_createWebRtcTransport,
      on_connectWebRtcTransport, on_produce, on_consume,
      on_resumeConsumer, on_stopRecording,
      createWebRtcTransport, startRecording, engine_call,
      try_catch, bind, gets, throw, ret, callback, emit_to_room,
      mutate_peer, mutate_room, modify;
    repeat match goal with
           | |- context [createWriteStream host ?a ?b] =>
               rewrite (Hfs a b)
           | |- context [match ?x with _ => _ end] =>
               lazymatch x with
               | context [match _ with _ => _ end] => fail
               | _ => destruct x eqn:?
               end
           end;
    cbn [out net log upd_net upd_engine upd_stores upd_heap
         upd_transports upd_producers upd_consumers upd_room_objs
         upd_peer_objs set_announcedIp];
    try (eexists [], _; split; [reflexivity|split; reflexivity]);
    (eexists _, _; split;
     [rewrite <- app_assoc; reflexivity|apply no_ack_among_pushes]).
Qed.

End Acknowledgements.

(** ** References are never dangling *)

Section Rooted.
Import Server.
Variable host : Host.

Lemma rooted_frame (w w' : World) :
  heap_grows w w' ->
  conns (net w') = conns (net w) ->
  rooms (stores w') = rooms (stores w) ->
  rooted w -> rooted w'.
Proof.
  intros [Hr Hp] Hc Hs [Ha Hb]. split.
  - intros sock c Hin. rewrite Hc in Hin.
    destruct (Ha sock c Hin). split; auto.
  - intros roomId ref Hin. rewrite Hs in Hin. apply Hr. eauto.
Qed.

(** A socket handler only adds to or overwrites in the heaps, and
    leaves [rooms] and the registered handlers alone. *)
Lemma receive_grows_heap (sock : SocketId) (c : Conn) (m : Message)
      (w : World) :
  let w' := run_handler sock (receive host sock c m) w in
  heap_grows w w' /\
  conns (net w') = conns (net w) /\
  rooms (stores w') = rooms (stores w).
Proof.
  destruct m as [r|event]; [destruct r|];
    unfold heap_grows, run_handler, receive, dispatch,
      on_getRouterRtpCapabilities, on_joinRoom, on_speaking,
      on_createWebRtcTransport, on_connectWebRtcTransport, on_produce,
      on_consume, on_resumeConsumer, on_stopRecording,
      createWebRtcTransport, startRecording, engine_call,
      try_catch, bind, gets, throw, ret, callback, emit_to_room,
      emit_self, mutate_peer, mutate_room, modify;
    repeat match goal with
           | |- context [match ?x with _ => _ end] =>
               lazymatch x with
               | context [match _ with _ => _ end] => fail
               | _ => destruct x eqn:?
               end
           end;
    cbn;
    (split; [split; intros k Hk; auto using has_set_mono
            |split; reflexivity]).
Qed.

Lemma finish_connection_rooted (sock : SocketId)
      (roomId peerId clientIp : string) (room : RoomRef) (w : World) :
  rooted w ->
  JsMap.has room (room_objs (heap w)) = true ->
  rooted (run_handler sock
            (finish_connection sock roomId peerId clientIp room) w).
Proof.
  intros [Ha Hb] Hroom.
  unfold run_handler, finish_connection, bind, modify, mutate_room. cbn.
  split; cbn.
  - intros s c' Hin. apply in_set in Hin. destruct Hin as [[= -> ->]|Hin].
    + cbn. split; [apply has_set_same|apply has_set_same].
    + destruct (Ha s c' Hin). split; now apply has_set_mono.
  - intros rid ref Hin. apply has_set_mono. eauto.
Qed.

(** Every turn of the event loop keeps the references rooted. *)
Lemma step_rooted (ev : Event) (w : World) :
  rooted w -> rooted (step host ev w).
Proof.
  intros Hw. destruct ev as [sock roomId peerId ip|sock|sock m|sock];
    cbn [step].
  - destruct (_ || _); [exact Hw|].
    unfold on_connection, run_handler, bind, gets.
    destruct (JsMap.get roomId (rooms (stores w))) as [room|] eqn:Hroom.
    + apply finish_connection_rooted; [exact Hw|].
      destruct Hw as [_ Hb]. apply (Hb roomId room). now apply get_in.
    + unfold createRoom_call, bind, gets, throw, modify.
      destruct (Nat.eqb (workers (stores w)) 0); [exact Hw|].
      destruct (Engine.createRouter (media host) (engine w)) as [res e'].
      exact Hw.
  - destruct (JsMap.get sock (pending (net w))) as [p|]; [|exact Hw].
    unfold on_router_ready, createRoom_resume, run_handler.
    destruct (pend_router p) as [msg|router]; [exact Hw|].
    unfold bind at 1. unfold bind at 1. unfold gets at 1.
    unfold bind at 1. unfold modify at 1.
    unfold bind at 1. unfold modify at 1. unfold ret. cbn [fst snd].
    apply finish_connection_rooted.
    + destruct Hw as [Ha Hb]. split; cbn.
      * intros s c' Hin. destruct (Ha s c' Hin).
        split; [now apply has_set_mono|assumption].
      * intros rid ref Hin. apply in_set in Hin.
        destruct Hin as [[= -> ->]|Hin]; [apply has_set_same|].
        apply has_set_mono. eauto.
    + cbn. apply has_set_same.
  - destruct (JsMap.get sock (conns (net w))) as [c|]; [|exact Hw].
    destruct (receive_grows_heap sock c m w) as (Hg & Hc & Hs).
    exact (rooted_frame Hg Hc Hs Hw).
  - destruct (JsMap.get sock (conns (net w))) as [c|]; [|exact Hw].
    destruct Hw as [Ha Hb].
    unfold run_handler, on_disconnect, bind, gets, modify, emit_to_room,
      mutate_room; cbn.
    match goal with |- context [Nat.eqb ?a 0] => destruct (Nat.eqb a 0) end;
      cbn; split; cbn.
    + intros s c' Hin. apply in_delete in Hin. destruct (Ha s c' Hin).
      split; [now apply has_set_mono|assumption].
    + intros rid ref Hin. apply in_delete in Hin.
      apply has_set_mono. eauto.
    + intros s c' Hin. apply in_delete in Hin. destruct (Ha s c' Hin).
      split; [now apply has_set_mono|assumption].
    + intros rid ref Hin. apply has_set_mono. eauto.
Qed.

(** In every state the server reaches, the [room] and [peer] variables
    of every registered handler are bound to objects: dereferencing
    them never takes the fallback of [the_room] and [the_peer]. *)
Lemma reachable_rooted (numWorkers : nat) (evs : list Event) :
  rooted (run host evs (initial numWorkers)).
Proof.
  unfold run.
  assert (H0 : rooted (initial numWorkers)) by (split; intros ? ? []).
  revert H0. generalize (initial numWorkers).
  induction evs as [|ev evs IH]; intros w Hw; [exact Hw|].
  cbn. apply IH. now apply step_rooted.
Qed.

Lemma registered_handler_has_its_objects
      (numWorkers : nat) (evs : list Event) (sock : SocketId) (c : Conn) :
  let w := run host evs (initial numWorkers) in
  JsMap.get sock (conns (net w)) = Some c ->
  JsMap.get (conn_room c) (room_objs (heap w)) = Some (the_room c w) /\
  JsMap.get sock (peer_objs (heap w)) = Some (the_peer sock c w).
Proof.
  intros w Hc. destruct (reachable_rooted numWorkers evs) as [Ha _].
  fold w in Ha. clearbody w.
  destruct (Ha sock c (get_in _ _ Hc)) as [Hr Hp].
  unfold JsMap.has in Hr, Hp. unfold the_room, the_peer.
  destruct (JsMap.get (conn_room c) (room_objs (heap w))); [|discriminate].
  destruct (JsMap.get sock (peer_objs (heap w))); [|discriminate].
  now split.
Qed.

End Rooted.

(* ================================================================== *)
(** * Part III: further properties of the code *)
(* ================================================================== *)

(** ** The participant list of the room page *)

Section ParticipantList.
Import Server VoiceRoom.

Lemma on_push_keeps_count (ev : Push) (v : View) :
  participantCount v = List.length (users v) ->
  participantCount (on_push ev v) = List.length (users (on_push ev v)).
Proof.
  intros Hv. destruct ev; cbn; try assumption; try reflexivity.
  - rewrite length_app, Hv. reflexivity.
  - now rewrite length_map.
Qed.

Lemma on_pushes_keep_count (evs : list Push) (v : View) :
  participantCount v = List.length (users v) ->
  participantCount (on_pushes evs v) = List.length (users (on_pushes evs v)).
Proof.
  unfold on_pushes. revert v.
  induction evs as [|ev evs IH]; intros v Hv; [exact Hv|].
  cbn. apply IH. now apply on_push_keeps_count.
Qed.

(** A push that is rendered on its own is [on_push], whether its update
    was computed at once or at the render. *)
Lemma on_batch_single (eager : bool) (ev : Push) (v : View) :
  on_batch eager [ev] v = on_push ev v.
Proof.
  destruct v as [us n]. destruct ev; try reflexivity.
  unfold on_batch. cbn. now destruct eager.
Qed.

Lemma on_batches_single (evs : list (bool * Push)) (v : View) :
  on_batches (map (fun x => (fst x, [snd x])) evs) v
  = on_pushes (map snd evs) v.
Proof.
  unfold on_batches, on_pushes. revert v.
  induction evs as [|[e ev] evs IH]; intros v; [reflexivity|].
  cbn [map fold_left fst snd]. rewrite on_batch_single. apply IH.
Qed.

Lemma users_on_push (ev : Push) (v : View) (n : nat) :
  users (on_push ev v)
  = users (on_push ev {| users := users v; participantCount := n |}).
Proof. destruct ev; reflexivity. Qed.

Lemma users_on_pushes (evs : list Push) (v : View) :
  users (on_pushes evs v) = list_after evs (users v).
Proof.
  unfold list_after, on_pushes.
  generalize 0. revert v.
  induction evs as [|ev evs IH]; intros v n; [reflexivity|].
  cbn [fold_left]. rewrite (IH (on_push ev v) n).
  rewrite (IH (on_push ev {| users := users v; participantCount := n |}) n).
  f_equal. f_equal. f_equal. apply users_on_push.
Qed.

Lemma q_users_enqueue (eager : bool) (ev : Push) (q : Queue) :
  q_users (enqueue eager ev q)
  = users (on_push ev {| users := q_users q; participantCount := 0 |}).
Proof. destruct ev; try reflexivity. cbn. now destruct eager. Qed.

Lemma q_users_enqueue_all (evs : list Push) (eager : bool) (q : Queue) :
  q_users (enqueue_all eager evs q) = list_after evs (q_users q).
Proof.
  revert eager q. induction evs as [|ev evs IH]; intros eager q;
    [reflexivity|].
  cbn [enqueue_all]. rewrite IH, q_users_enqueue.
  unfold list_after at 2. unfold on_pushes. cbn [fold_left].
  fold (on_pushes evs (on_push ev {| users := q_users q;
                                     participantCount := 0 |})).
  now rewrite users_on_pushes.
Qed.

Lemma users_on_batch (eager : bool) (evs : list Push) (v : View) :
  users (on_batch eager evs v) = list_after evs (users v).
Proof. unfold on_batch. cbn [users]. now rewrite q_users_enqueue_all. Qed.

Lemma list_after_app (a b : list Push) (us : list User) :
  list_after (a ++ b) us = list_after b (list_after a us).
Proof.
  unfold list_after at 1 2. unfold on_pushes. rewrite fold_left_app.
  fold (on_pushes a {| users := us; participantCount := 0 |}).
  fold (on_pushes b (on_pushes a {| users := us; participantCount := 0 |})).
  now rewrite users_on_pushes.
Qed.

Lemma users_on_batches (bs : list (bool * list Push)) (v : View) :
  users (on_batches bs v) = list_after (List.concat (map snd bs)) (users v).
Proof.
  unfold on_batches. revert v.
  induction bs as [|[e evs] bs IH]; intros v.
  - now destruct v.
  - cbn [fold_left map List.concat fst snd].
    rewrite IH, users_on_batch, list_after_app. reflexivity.
Qed.

Lemma enqueue_joins (cs : list User) (q : Queue) :
  enqueue_all false (map UserJoined cs) q
  = {| q_users := q_users q ++ cs;
       q_listeners := q_listeners q ++ repeat AddOne (List.length cs);
       q_updaters := q_updaters q |}.
Proof.
  revert q. induction cs as [|c cs IH]; intros q.
  - cbn. rewrite !app_nil_r. now destruct q.
  - cbn [map enqueue_all andb]. rewrite IH. cbn.
    now rewrite <- !app_assoc.
Qed.

(** X1: when the page renders after every push, the participant count
    it shows equals the length of the user list. The list itself is the
    same however the pushes are spread over renders. The count is not:
    when [userJoined], [userLeft] and further [userJoined] pushes are
    handled before one render, the count set by the [userLeft] updater
    is applied last and the page shows the length the list had at the
    [userLeft], short by the users that joined after it. *)
Theorem X1_participant_count_under_batching :
  (forall evs : list (bool * Push),
     let v := on_batches (map (fun x => (fst x, [snd x])) evs) initial in
     v = on_pushes (map snd evs) initial /\
     participantCount v = List.length (users v)) /\
  (forall (bs : list (bool * list Push)) (v : View),
     users (on_batches bs v)
     = users (on_pushes (List.concat (map snd bs)) v)) /\
  (forall (eager : bool) (a : User) (leftUserId : string)
          (cs : list User) (v : View),
     let v' := on_batch eager
                 (UserJoined a :: UserLeft leftUserId :: map UserJoined cs)
                 v in
     participantCount v' + List.length cs = List.length (users v')).
Proof.
  split; [|split].
  - intros evs. cbv zeta. rewrite on_batches_single.
    split; [reflexivity|]. now apply on_pushes_keep_count.
  - intros bs v. now rewrite users_on_batches, users_on_pushes.
  - intros eager a leftUserId cs v. cbv zeta.
    unfold on_batch.
    destruct eager; cbn [enqueue_all enqueue queues_update negb andb];
      rewrite enqueue_joins;
      cbn [q_users q_listeners q_updaters users participantCount];
      rewrite fold_left_app; cbn [fold_left apply_count];
      now rewrite (length_app _ cs).
Qed.

(** X2: the local addition of the current user after [joinRoom] never
    duplicates an id that is already listed, and when it does add the
    user it leaves the participant count as it was, one short of the
    list. *)
Theorem X2_local_add_skips_the_count (userId username : string) (v : View) :
  let v' := add_current_user userId username v in
  participantCount v' = participantCount v /\
  (existsb (fun u => String.eqb (user_id u) userId) (users v) = true ->
   v' = v) /\
  (existsb (fun u => String.eqb (user_id u) userId) (users v) = false ->
   List.length (users v') = S (List.length (users v)) /\
   count_occ string_dec (map user_id (users v')) userId = 1).
Proof.
  unfold add_current_user.
  destruct (existsb _ (users v)) eqn:E; cbn.
  - repeat split; try discriminate; reflexivity.
  - split; [reflexivity|]. split; [discriminate|]. intros _.
    rewrite length_app, map_app, count_occ_app.
    split; [cbn [List.length]; lia|].
    cbn [map user_id].
    rewrite (count_occ_cons_eq string_dec [] (eq_refl userId)).
    cbn [count_occ].
    assert (H : count_occ string_dec (map user_id (users v)) userId = 0).
    { apply count_occ_not_In. intros Hin. apply in_map_iff in Hin.
      destruct Hin as (u & Hu & Hin).
      assert (Hex : existsb (fun u => String.eqb (user_id u) userId)
                            (users v) = true).
      { apply existsb_exists. exists u. split; [exact Hin|].
        now apply String.eqb_eq. }
      congruence. }
    lia.
Qed.

(** X3: [userLeft] removes every entry with the id, also duplicates
    that repeated [userJoined] pushes created, keeps the other entries
    in order, and a second [userLeft] for the id changes nothing. *)
Theorem X3_userLeft_removes_all_entries
        (leftUserId : string) (twice : User) (v : View) :
  (forall u, In u (users (on_userLeft leftUserId v)) <->
             In u (users v) /\ user_id u <> leftUserId) /\
  on_userLeft leftUserId (on_userLeft leftUserId v)
  = on_userLeft leftUserId v /\
  on_userLeft (user_id twice) (on_userJoined twice (on_userJoined twice v))
  = on_userLeft (user_id twice) v.
Proof.
  split; [|split].
  - intros u. cbn. rewrite filter_In. split.
    + intros [Hin Hne]. split; [exact Hin|].
      intros Heq. apply String.eqb_eq in Heq. rewrite Heq in Hne.
      discriminate.
    + intros [Hin Hne]. split; [exact Hin|].
      destruct (String.eqb (user_id u) leftUserId) eqn:E; [|reflexivity].
      apply String.eqb_eq in E. contradiction.
  - unfold on_userLeft. cbn.
    assert (H : forall l,
              filter (fun u => negb (String.eqb (user_id u) leftUserId))
                (filter (fun u => negb (String.eqb (user_id u) leftUserId)) l)
              = filter (fun u => negb (String.eqb (user_id u) leftUserId)) l).
    { induction l as [|u l IH]; cbn; [reflexivity|].
      destruct (negb (String.eqb (user_id u) leftUserId)) eqn:E; cbn.
      - rewrite E, IH. reflexivity.
      - exact IH. }
    now rewrite H.
  - unfold on_userLeft, on_userJoined. cbn.
    rewrite !filter_app. cbn. rewrite String.eqb_refl. cbn.
    now rewrite !app_nil_r.
Qed.

(** X4: [userSpeaking] keeps the ids and names of the list, sets the
    flag of exactly the entries with the id, and the last of two pushes
    for the same id wins. *)
Theorem X4_userSpeaking_last_write_wins
        (id : string) (first second : bool) (v : View) :
  map user_id (users (on_userSpeaking id second v)) = map user_id (users v) /\
  map user_name (users (on_userSpeaking id second v))
    = map user_name (users v) /\
  (forall u, In u (users (on_userSpeaking id second v)) ->
             user_id u = id -> user_isSpeaking u = second) /\
  on_userSpeaking id second (on_userSpeaking id first v)
  = on_userSpeaking id second v.
Proof.
  unfold on_userSpeaking. cbn. repeat split.
  - rewrite map_map. apply map_ext. intros u.
    now destruct (String.eqb (user_id u) id).
  - rewrite map_map. apply map_ext. intros u.
    now destruct (String.eqb (user_id u) id).
  - intros u Hin Hid. apply in_map_iff in Hin.
    destruct Hin as (u0 & <- & _).
    destruct (String.eqb (user_id u0) id) eqn:E; [reflexivity|].
    cbn in Hid. apply String.eqb_neq in E. contradiction.
  - f_equal. rewrite map_map. apply map_ext. intros u.
    destruct (String.eqb (user_id u) id) eqn:E; cbn; now rewrite E.
Qed.

End ParticipantList.

(** ** The speaking-state tracker on arbitrary signals *)

Section TrackerRuns.
Import Tracker Observe.
Variables (roomId peerId : string).
#[local] Arguments isSpeaking : simpl never.

Lemma detect_cases (st : State) (d : float) :
  detect roomId peerId st d
  = if audioAnalyser st && negb (Bool.eqb (isSpeaking d) (speaking st))
    then ({| audioAnalyser := true; speaking := isSpeaking d |},
          [say roomId peerId (isSpeaking d)])
    else (st, []).
Proof.
  unfold detect.
  destruct st as [[|] s]; cbn [audioAnalyser speaking negb andb];
    [|reflexivity].
  destruct (Bool.eqb (isSpeaking d) s); reflexivity.
Qed.

(** X5: the tracker is edge-triggered on every signal. The messages of
    a run alternate between [speaking = true] and [speaking = false],
    the first one differs from the state the run started in, and there
    are never more messages than samples. *)
Theorem X5_speaking_messages_alternate (levels : list float) :
  forall st,
    alternates (speaking st)
               (map msg_speaking (snd (feed roomId peerId st levels))) /\
    List.length (snd (feed roomId peerId st levels)) <= List.length levels.
Proof.
  induction levels as [|d rest IH]; intros st; [cbn; auto|].
  cbn [feed]. rewrite detect_cases.
  destruct (audioAnalyser st
            && negb (Bool.eqb (isSpeaking d) (speaking st))) eqn:E.
  - specialize (IH {| audioAnalyser := true; speaking := isSpeaking d |}).
    assert (Hd : isSpeaking d = negb (speaking st)).
    { apply andb_prop in E. destruct E as [_ E].
      destruct (isSpeaking d), (speaking st); cbn in E |- *; congruence. }
    destruct (feed roomId peerId _ rest) as [st2 out2].
    cbn [snd speaking] in IH.
    cbn [snd app map say msg_speaking alternates List.length].
    destruct IH as [IH1 IH2]. split; [|lia]. split; [exact Hd|exact IH1].
  - specialize (IH st).
    destruct (feed roomId peerId st rest) as [st2 out2]. cbn in *.
    destruct IH as [IH1 IH2]. split; [exact IH1|lia].
Qed.

(** X6: while the analyser is in place, the tracker's state after a run
    is the classification of the last sample. *)
Theorem X6_state_follows_last_sample
        (levels : list float) (d : float) (st : State) :
  audioAnalyser st = true ->
  speaking (fst (feed roomId peerId st (levels ++ [d]))) = isSpeaking d /\
  audioAnalyser (fst (feed roomId peerId st (levels ++ [d]))) = true.
Proof.
  revert st. induction levels as [|x rest IH]; intros st Ha.
  - cbn [app feed]. rewrite detect_cases, Ha. cbn [andb].
    destruct (Bool.eqb (isSpeaking d) (speaking st)) eqn:E; cbn.
    + apply Bool.eqb_prop in E. split; [now symmetry|exact Ha].
    + split; reflexivity.
  - cbn [app feed]. rewrite detect_cases, Ha. cbn [andb].
    destruct (negb (Bool.eqb (isSpeaking x) (speaking st))).
    + specialize (IH {| audioAnalyser := true; speaking := isSpeaking x |}
                     eq_refl).
      destruct (feed roomId peerId _ (rest ++ [d])) as [st2 out2].
      exact IH.
    + specialize (IH st Ha).
      destruct (feed roomId peerId st (rest ++ [d])) as [st2 out2].
      exact IH.
Qed.

End TrackerRuns.

Lemma X6_witness :
  Tracker.speaking
    (fst (Tracker.feed "r1" "alice" Tracker.initial
            ([(-60)%float; (-20)%float] ++ [(-45)%float])))
  = Tracker.isSpeaking (-45)%float /\
  Tracker.audioAnalyser
    (fst (Tracker.feed "r1" "alice" Tracker.initial
            ([(-60)%float; (-20)%float] ++ [(-45)%float]))) = true.
Proof.
  apply (X6_state_follows_last_sample "r1" "alice"
           [(-60)%float; (-20)%float] (-45)%float Tracker.initial).
  reflexivity.
Defined.

(** ** The capability fetch under other server behaviours *)

Section CapFetchRuns.
Import CapFetch Observe.

(** X7: whatever the server does, the client sends the capability
    request at least once and at most three times. *)
Theorem X7_between_one_and_three_attempts (script : list Reply) :
  1 <= attempts (loadRouterRtpCapabilities script) <= 3.
Proof.
  split; [|apply at_most_three_attempts].
  unfold loadRouterRtpCapabilities.
  assert (H : forall s st, attempts st <= attempts (attemptGetCapabilities s st)
                           /\ 1 <= attempts (attemptGetCapabilities s st)).
  { induction s as [|r rest IH]; intros st.
    - cbn. rewrite attempts_fire_timeout. cbn. lia.
    - cbn [attemptGetCapabilities]. destruct r as [|delay resp].
      + unfold quiesce. rewrite attempts_fire_timeout. cbn. lia.
      + destruct resp as [|msg|caps].
        * destruct (Nat.ltb _ _).
          -- match goal with
             | |- context [attemptGetCapabilities rest ?s] =>
                 destruct (IH s) as [H1 H2];
                 assert (Hs : attempts s = S (attempts st))
                   by (rewrite attempts_advance;
                       cbn [clearTimeout attempts];
                       rewrite ?attempts_advance; reflexivity);
                 rewrite Hs in H1; lia
             end.
          -- unfold quiesce.
             rewrite attempts_fire_timeout, attempts_settle.
             cbn [clearTimeout attempts]. rewrite attempts_advance. cbn.
             lia.
        * destruct (String.eqb msg "");
            [unfold quiesce;
             rewrite attempts_fire_timeout, attempts_settle;
             cbn [clearTimeout attempts]; rewrite attempts_advance; cbn;
             lia|].
          destruct (Nat.ltb _ _).
          -- match goal with
             | |- context [attemptGetCapabilities rest ?s] =>
                 destruct (IH s) as [H1 H2];
                 assert (Hs : attempts s = S (attempts st))
                   by (rewrite attempts_advance;
                       cbn [clearTimeout attempts];
                       rewrite ?attempts_advance; reflexivity);
                 rewrite Hs in H1; lia
             end.
          -- unfold quiesce.
             rewrite attempts_fire_timeout, attempts_settle.
             cbn [clearTimeout attempts]. rewrite attempts_advance. cbn.
             lia.
        * unfold quiesce.
          rewrite attempts_fire_timeout, attempts_settle.
          cbn [clearTimeout attempts]. rewrite attempts_advance. cbn.
          lia. }
  apply (H script start).
Qed.

(** X8: capabilities that arrive as the first answer resolve the promise
    exactly when they arrive before the 20 s mark; from 20 s on the
    timer has rejected it and the late answer changes nothing. The rest
    of the server's behaviour plays no part. *)
Theorem X8_first_answer_against_the_timer
        (delay : N) (caps : string) (rest : list Reply) :
  promise (loadRouterRtpCapabilities (Ack delay (Capabilities caps) :: rest))
  = if (delay <? timeoutDuration)%N
    then Resolved (Capabilities caps)
    else Rejected timeoutMessage timeoutDuration.
Proof.
  unfold loadRouterRtpCapabilities, attemptGetCapabilities.
  destruct rest; unfold advance, start, bump;
    cbn [now attempts timeoutArmed promise N.add];
    (destruct (N.ltb_spec delay timeoutDuration) as [Hlt|Hge];
     [ replace (N.leb timeoutDuration delay) with false
         by (symmetry; apply N.leb_gt; exact Hlt)
     | replace (N.leb timeoutDuration delay) with true
         by (symmetry; apply N.leb_le; exact Hge) ];
     reflexivity).
Qed.

End CapFetchRuns.

Section CapFetchSettles.
Import CapFetch Observe.

Lemma guarded_bump (st : State) : guarded st -> guarded (bump st).
Proof. intros H. exact H. Qed.

Lemma guarded_fire (st : State) : guarded st -> rejected (fire_timeout st).
Proof.
  unfold guarded, rejected, fire_timeout, settle.
  intros [[Ha Hp]|[t Ht]].
  - rewrite Ha. cbn. rewrite Hp. cbn. eauto.
  - destruct (timeoutArmed st); cbn; rewrite Ht; eauto.
Qed.

Lemma guarded_advance (t : N) (st : State) :
  guarded st -> guarded (advance t st).
Proof.
  unfold guarded, advance, fire_timeout, settle.
  intros [[Ha Hp]|[t0 Ht]].
  - destruct (N.leb timeoutDuration t); cbn.
    + rewrite Ha. cbn. rewrite Hp. cbn. right. eauto.
    + left. auto.
  - right. exists t0.
    destruct (N.leb timeoutDuration t); cbn; [|exact Ht].
    destruct (timeoutArmed st); cbn; rewrite ?Ht; cbn; rewrite ?Ht;
      reflexivity.
Qed.

Lemma guarded_give_up (st : State) :
  guarded st ->
  rejected (quiesce (settle (Rejected exhaustedMessage (now st))
                            (clearTimeout st))).
Proof.
  unfold guarded, rejected, quiesce, fire_timeout, settle, clearTimeout.
  cbn. intros [[Ha Hp]|[t0 Ht]].
  - rewrite Hp. cbn. eauto.
  - rewrite Ht. cbn. eauto.
Qed.

(** X9: if the server never sends a truthy answer (it stays silent or
    acknowledges with nothing), the promise does not stay pending: it is
    rejected, by the 20 s timer or after the third empty answer. *)
Theorem X9_no_answer_always_rejects (script : list Reply) :
  only_falsy script = true ->
  exists msg t,
    promise (loadRouterRtpCapabilities script) = Rejected msg t /\
    (msg = timeoutMessage \/ msg = exhaustedMessage).
Proof.
  unfold loadRouterRtpCapabilities.
  assert (H0 : guarded start) by (left; split; reflexivity).
  revert H0. generalize start.
  induction script as [|r rest IH]; intros st Hst Hf.
  - cbn. now apply guarded_fire, guarded_bump.
  - cbn [attemptGetCapabilities]. cbn in Hf.
    destruct r as [|delay [| |]]; try discriminate Hf.
    + now apply guarded_fire, guarded_bump.
    + destruct (Nat.ltb _ _).
      * apply IH; [|exact Hf].
        now apply guarded_advance, guarded_advance, guarded_bump.
      * now apply guarded_give_up, guarded_advance, guarded_bump.
Qed.

Lemma advance_disarmed (t n : N) (a : nat) (p : Promise) :
  advance t {| now := n; attempts := a; timeoutArmed := false;
               promise := p |}
  = {| now := t; attempts := a; timeoutArmed := false; promise := p |}.
Proof.
  unfold advance, fire_timeout. cbn [timeoutArmed].
  now destruct (N.leb timeoutDuration t).
Qed.

Lemma advance_early (t n : N) (a : nat) (armed : bool) (p : Promise) :
  (t < timeoutDuration)%N ->
  advance t {| now := n; attempts := a; timeoutArmed := armed;
               promise := p |}
  = {| now := t; attempts := a; timeoutArmed := armed; promise := p |}.
Proof.
  intros Ht. unfold advance.
  assert (E : N.leb timeoutDuration t = false) by (apply N.leb_gt; lia).
  now rewrite E.
Qed.

(** One answer with a non-empty [error] that arrives while the promise
    is pending and the timer has not fired: the timer is cleared, then
    either a retry is scheduled one back-off later or the promise is
    rejected with the answer's message. *)
Lemma error_answer (d : N) (m : string) (rest : list Reply)
      (n : N) (a : nat) (armed : bool) :
  m <> "" ->
  armed = false \/ (n + d < timeoutDuration)%N ->
  attemptGetCapabilities (Ack d (ErrorResponse m) :: rest)
    {| now := n; attempts := a; timeoutArmed := armed;
       promise := Pending |}
  = if Nat.ltb (S a) maxAttempts
    then attemptGetCapabilities rest
           {| now := n + d + retryDelay; attempts := S a;
              timeoutArmed := false; promise := Pending |}
    else {| now := n + d; attempts := S a; timeoutArmed := false;
            promise := Rejected m (n + d) |}.
Proof.
  intros Hm H. apply String.eqb_neq in Hm.
  cbn [attemptGetCapabilities]. unfold bump.
  cbn [now attempts timeoutArmed promise].
  rewrite Hm.
  assert (E : advance (n + d)
                {| now := n; attempts := S a; timeoutArmed := armed;
                   promise := Pending |}
              = {| now := n + d; attempts := S a; timeoutArmed := armed;
                   promise := Pending |}).
  { destruct H as [-> | H];
      [apply advance_disarmed | now apply advance_early]. }
  rewrite E. unfold clearTimeout.
  cbn [now attempts timeoutArmed promise].
  rewrite advance_disarmed.
  destruct (Nat.ltb (S a) maxAttempts); reflexivity.
Qed.

(** X10: three answers that each carry a non-empty error, the first of
    them before the 20 s mark, exhaust the retries: the promise is
    rejected with the third error message when the third answer arrives,
    one second of back-off after each of the first two, and nothing the
    server would do next is looked at. *)
Theorem X10_third_error_rejects
        (d1 d2 d3 : N) (m1 m2 m3 : string) (rest : list Reply) :
  (d1 < timeoutDuration)%N ->
  m1 <> "" -> m2 <> "" -> m3 <> "" ->
  loadRouterRtpCapabilities
    (Ack d1 (ErrorResponse m1) :: Ack d2 (ErrorResponse m2)
       :: Ack d3 (ErrorResponse m3) :: rest)
  = {| now := d1 + retryDelay + d2 + retryDelay + d3;
       attempts := 3; timeoutArmed := false;
       promise := Rejected m3 (d1 + retryDelay + d2 + retryDelay + d3) |}.
Proof.
  intros Hd H1 H2 H3. unfold loadRouterRtpCapabilities, start.
  rewrite error_answer; [|exact H1|right; lia].
  change (Nat.ltb 1 maxAttempts) with true. cbv iota.
  rewrite error_answer; [|exact H2|now left].
  change (Nat.ltb 2 maxAttempts) with true. cbv iota.
  rewrite error_answer; [|exact H3|now left].
  change (Nat.ltb 3 maxAttempts) with false. cbv iota.
  now rewrite N.add_0_l.
Qed.

End CapFetchSettles.

Lemma X9_witness :
  exists msg t,
    CapFetch.promise
      (CapFetch.loadRouterRtpCapabilities
         [CapFetch.Ack 10 CapFetch.Falsy; CapFetch.Silent])
    = CapFetch.Rejected msg t /\
    (msg = CapFetch.timeoutMessage \/ msg = CapFetch.exhaustedMessage).
Proof.
  apply (X9_no_answer_always_rejects
           [CapFetch.Ack 10 CapFetch.Falsy; CapFetch.Silent]).
  reflexivity.
Defined.

Lemma X10_witness :
  CapFetch.loadRouterRtpCapabilities
    [CapFetch.Ack 50 (CapFetch.ErrorResponse "a");
     CapFetch.Ack 30000 (CapFetch.ErrorResponse "b");
     CapFetch.Ack 70 (CapFetch.ErrorResponse "c");
     CapFetch.Ack 1 (CapFetch.Capabilities "late")]
  = {| CapFetch.now := 32120; CapFetch.attempts := 3;
       CapFetch.timeoutArmed := false;
       CapFetch.promise := CapFetch.Rejected "c" 32120 |}.
Proof.
  apply (@X10_third_error_rejects 50 30000 70 "a" "b" "c"
           [CapFetch.Ack 1 (CapFetch.Capabilities "late")]);
    [reflexivity | discriminate | discriminate | discriminate].
Defined.

(** ** The client's session object *)

Section ClientFacts.
Import Client Observe.

Lemma same_await_eq (a b : Await) : same_await a b = true -> a = b.
Proof.
  destruct a, b; cbn; try discriminate; try reflexivity.
  intros H. apply andb_prop in H. destruct H as [H Hk].
  apply andb_prop in H. destruct H as [Hi Hp].
  apply Nat.eqb_eq in Hi, Hp. apply String.eqb_eq in Hk. now subst.
Qed.

Lemma same_await_refl (a : Await) : same_await a a = true.
Proof.
  destruct a; cbn; try reflexivity.
  now rewrite !Nat.eqb_refl, String.eqb_refl.
Qed.

Lemma without_incl (a : Await) (l rest : list Await) :
  without a l = Some rest -> forall b, In b rest -> In b l.
Proof.
  revert rest. induction l as [|c l IH]; intros rest H b Hb; [discriminate|].
  cbn in H. destruct (same_await a c).
  - injection H as <-. now right.
  - destruct (without a l) as [r|]; [|discriminate].
    injection H as <-. destruct Hb as [<-|Hb]; [now left|right; eauto].
Qed.

Lemma without_In (a : Await) (l rest : list Await) :
  without a l = Some rest -> In a l.
Proof.
  revert rest. induction l as [|c l IH]; intros rest H; [discriminate|].
  cbn in H. destruct (same_await a c) eqn:E.
  - apply same_await_eq in E. now left.
  - destruct (without a l) as [r|]; [|discriminate]. right. eauto.
Qed.

Lemma without_head (a : Await) (l : list Await) :
  without a (a :: l) = Some l.
Proof. cbn. now rewrite same_await_refl. Qed.

(** What holds before a resumption and of every continuation holds
    after it. *)
Lemma resume_inv (P : State -> Prop) (a : Await)
      (k : State -> State * list Effect) (st : State) :
  P st ->
  (forall rest, without a (suspended st) = Some rest ->
                P (fst (k (set_suspended rest st)))) ->
  P (fst (resume_at a k st)).
Proof.
  intros H0 Hk. unfold resume_at.
  destruct (without a (suspended st)); [now apply Hk|exact H0].
Qed.

Lemma stopAudio_keeps (st : State) :
  let st' := fst (stopAudioLevelDetection st) in
  peerId st' = peerId st /\ roomId st' = roomId st /\
  producer st' = producer st /\ consumers st' = consumers st /\
  isProducing st' = isProducing st /\ isRecording st' = isRecording st /\
  isConnected st' = isConnected st /\ deviceLoaded st' = deviceLoaded st /\
  sendTransport st' = sendTransport st /\
  recvTransport st' = recvTransport st.
Proof. cbn. repeat split. Qed.

Lemma stopProducing_keeps (st : State) :
  let st' := fst (stopProducing st) in
  peerId st' = peerId st /\ roomId st' = roomId st /\
  consumers st' = consumers st /\
  isConnected st' = isConnected st /\ deviceLoaded st' = deviceLoaded st /\
  sendTransport st' = sendTransport st /\
  recvTransport st' = recvTransport st /\
  (producer st <> None ->
   producer st' = None /\ isProducing st' = false /\
   isRecording st' = false) /\
  (producer st = None -> st' = st).
Proof.
  unfold stopProducing. destruct (producer st); cbn;
    repeat split; congruence.
Qed.

Lemma stopProducing_suspended (st : State) :
  suspended (fst (stopProducing st)) = suspended st.
Proof. unfold stopProducing. now destruct (producer st). Qed.

Lemma step_keeps_peerId (ev : Event) (st : State) :
  peerId (fst (step ev st)) = peerId st.
Proof.
  destruct ev; cbn [step].
  - unfold connect.
    destruct (CapFetch.promise _); try reflexivity.
    destruct (negb loadOk); try reflexivity.
    destruct sendReply; try reflexivity.
    destruct recvReply; reflexivity.
  - unfold produce.
    destruct (sendTransport st); try reflexivity.
    destruct (negb (isConnected st)); try reflexivity.
    destruct um; try reflexivity.
    destruct lib; try reflexivity.
    destruct detection; reflexivity.
  - destruct (producer st); reflexivity.
  - unfold on_newProducer, consume.
    destruct (_ && _); try reflexivity.
    destruct (recvTransport st); try reflexivity.
    destruct (_ || _); reflexivity.
  - unfold on_consume_response.
    destruct resp; try reflexivity.
    destruct (recvTransport st); try reflexivity.
    destruct lib; reflexivity.
  - destruct (JsMap.get id (consumers st)); reflexivity.
  - reflexivity.
  - apply (stopProducing_keeps st).
  - unfold disconnect.
    pose proof (stopProducing_keeps st) as (H & _).
    destruct (stopProducing st) as [st1 e1]. exact H.
  - unfold connect_begin. destruct (CapFetch.promise _); reflexivity.
  - unfold connect_loaded.
    apply (resume_inv (fun s => peerId s = peerId st)); [reflexivity|].
    intros rest _. destruct loadOk; reflexivity.
  - unfold connect_send. destruct reply; try reflexivity;
      apply (resume_inv (fun s => peerId s = peerId st)); reflexivity.
  - unfold connect_recv. destruct reply; try reflexivity;
      apply (resume_inv (fun s => peerId s = peerId st)); reflexivity.
  - unfold produce_begin.
    destruct (sendTransport st); try reflexivity.
    destruct (negb (isConnected st)); reflexivity.
  - unfold produce_media.
    apply (resume_inv (fun s => peerId s = peerId st)); [reflexivity|].
    intros rest _. destruct um; try reflexivity. cbn.
    destruct (sendTransport st); reflexivity.
  - unfold produce_settled.
    apply (resume_inv (fun s => peerId s = peerId st)); [reflexivity|].
    intros rest _. destruct lib; try reflexivity.
    destruct detection; reflexivity.
  - unfold consume_replied.
    destruct resp; try reflexivity.
    destruct (recvTransport st); reflexivity.
  - unfold consume_settled.
    apply (resume_inv (fun s => peerId s = peerId st)); [reflexivity|].
    intros rest _. destruct lib; reflexivity.
  - reflexivity.
  - reflexivity.
Qed.

Lemma consistent_resumed (rest : list Await) (st : State) :
  consistent st ->
  (forall b, In b rest -> In b (suspended st)) ->
  consistent (set_suspended rest st).
Proof.
  intros (H1 & H2 & H3 & H4 & H5) Hin.
  unfold consistent; cbn.
  split; [exact H1|]. split; [exact H2|]. split; [exact H3|].
  split; [|exact H5].
  intros [H|H]; apply H4; [left|right]; now apply Hin.
Qed.

Lemma step_consistent (ev : Event) (st : State) :
  consistent st -> consistent (fst (step ev st)).
Proof.
  intros Hst. pose proof Hst as (H1 & H2 & H3 & H4 & H5).
  destruct ev; cbn [step].
  - (* connect *)
    unfold connect.
    destruct (CapFetch.promise _); try exact Hst.
    destruct (negb loadOk); try exact Hst.
    destruct sendReply; [| |destruct recvReply]; cbn;
      (split; [exact H1|split; [exact H2|split; [|split; [|exact H5]]]]);
      cbn; intuition congruence.
  - (* produce *)
    unfold produce.
    destruct (sendTransport st) eqn:Hs; try exact Hst.
    destruct (negb (isConnected st)); try exact Hst.
    destruct um; try exact Hst.
    destruct lib; try exact Hst.
    destruct detection;
      (split; [reflexivity|split; [cbn; intuition congruence
                                  |split; [exact H3|split; [exact H4
                                                           |exact H5]]]]).
  - (* producer transportclose *)
    destruct (producer st); try exact Hst.
    unfold on_producer_transportclose.
    split; [reflexivity|split; [cbn; intuition congruence
                               |split; [exact H3|split; [exact H4
                                                        |exact H5]]]].
  - (* newProducer *)
    unfold on_newProducer, consume.
    destruct (_ && _); try exact Hst.
    destruct (recvTransport st); try exact Hst.
    destruct (_ || _); exact Hst.
  - (* consume response *)
    unfold on_consume_response.
    destruct resp; try exact Hst.
    destruct (recvTransport st) eqn:Hr; try exact Hst.
    destruct lib; try exact Hst. rewrite <- Hr in H3.
    cbn. split; [exact H1|split; [exact H2|split; [exact H3|]]].
    split; [exact H4|].
    intros id' co' Hin. cbn in Hin. apply in_set in Hin.
    destruct Hin as [[= -> ->]|Hin]; [reflexivity|eauto].
  - (* consumer transportclose *)
    destruct (JsMap.get id (consumers st)); try exact Hst.
    unfold on_consumer_transportclose; cbn.
    split; [exact H1|split; [exact H2|split; [exact H3|]]].
    split; [exact H4|].
    intros id' co' Hin. cbn in Hin. apply in_delete in Hin. eauto.
  - (* peerDisconnected *)
    unfold on_peerDisconnected; cbn.
    split; [exact H1|split; [exact H2|split; [exact H3|]]].
    split; [exact H4|].
    intros id' co' Hin. cbn in Hin. apply filter_In in Hin.
    destruct Hin as [Hin _]. eauto.
  - (* stopProducing *)
    unfold stopProducing.
    destruct (producer st); try exact Hst.
    split; [reflexivity|split; [cbn; intuition congruence
                               |split; [exact H3|split; [exact H4
                                                        |exact H5]]]].
  - (* disconnect *)
    unfold disconnect.
    pose proof (stopProducing_keeps st)
      as (_ & _ & _ & _ & Hd & _ & _ & Hs & Hn).
    pose proof (stopProducing_suspended st) as Hsu.
    destruct (stopProducing st) as [st1 e1]. cbn in Hs, Hn, Hd, Hsu. cbn.
    destruct (producer st) eqn:Hp.
    + destruct Hs as (Hs1 & Hs2 & Hs3); [discriminate|].
      unfold consistent; cbn.
      split; [congruence|].
      split; [rewrite Hs1, Hs2; intuition congruence|].
      split; [discriminate|].
      split; [rewrite Hd, Hsu; exact H4|intros ? ? []].
    + rewrite (Hn eq_refl). unfold consistent; cbn.
      split; [exact H1|]. split; [rewrite Hp; exact H2|].
      split; [discriminate|]. split; [exact H4|intros ? ? []].
  - (* connect, from the call *)
    unfold connect_begin. destruct (CapFetch.promise _); try exact Hst.
    unfold consistent; cbn.
    split; [exact H1|split; [exact H2|split; [exact H3|split; [|exact H5]]]].
    intros [[H|H]|[H|H]]; try discriminate; apply H4; auto.
  - (* connect, device loaded *)
    unfold connect_loaded. apply resume_inv; [exact Hst|].
    intros rest Hw.
    pose proof (@consistent_resumed _ _ Hst (@without_incl _ _ _ Hw)) as R.
    destruct loadOk; [|exact R].
    destruct R as (R1 & R2 & R3 & R4 & R5).
    unfold consistent; cbn.
    split; [exact R1|split; [exact R2|split; [|split; [|exact R5]]]].
    + intros Hc. split; [reflexivity|]. now apply R3.
    + reflexivity.
  - (* connect, send transport *)
    unfold connect_send. destruct reply; try exact Hst.
    + apply resume_inv; [exact Hst|]. intros rest Hw.
      exact (@consistent_resumed _ _ Hst (@without_incl _ _ _ Hw)).
    + apply resume_inv; [exact Hst|]. intros rest Hw.
      pose proof (@consistent_resumed _ _ Hst (@without_incl _ _ _ Hw))
        as (R1 & R2 & R3 & R4 & R5).
      assert (Hl : deviceLoaded st = true)
        by (apply H4; left; exact (@without_In _ _ _ Hw)).
      unfold consistent; cbn.
      split; [exact R1|split; [exact R2|split; [|split; [|exact R5]]]].
      * intros Hc. split; [exact Hl|]. now apply R3.
      * intros _. exact Hl.
  - (* connect, receive transport *)
    unfold connect_recv. destruct reply; try exact Hst.
    + apply resume_inv; [exact Hst|]. intros rest Hw.
      exact (@consistent_resumed _ _ Hst (@without_incl _ _ _ Hw)).
    + apply resume_inv; [exact Hst|]. intros rest Hw.
      pose proof (@consistent_resumed _ _ Hst (@without_incl _ _ _ Hw))
        as (R1 & R2 & R3 & R4 & R5).
      assert (Hl : deviceLoaded st = true)
        by (apply H4; right; exact (@without_In _ _ _ Hw)).
      unfold consistent; cbn.
      split; [exact R1|split; [exact R2|split; [|split; [|exact R5]]]].
      * intros _. split; [exact Hl|discriminate].
      * intros _. exact Hl.
  - (* produce, from the call *)
    unfold produce_begin.
    destruct (sendTransport st); try exact Hst.
    destruct (negb (isConnected st)); try exact Hst.
    unfold consistent; cbn.
    split; [exact H1|split; [exact H2|split; [exact H3|split; [|exact H5]]]].
    intros [[H|H]|[H|H]]; try discriminate; apply H4; auto.
  - (* produce, microphone *)
    unfold produce_media. apply resume_inv; [exact Hst|].
    intros rest Hw.
    pose proof (@consistent_resumed _ _ Hst (@without_incl _ _ _ Hw)) as R.
    destruct um; try exact R. cbn [sendTransport set_suspended].
    destruct (sendTransport st); try exact R.
    destruct R as (R1 & R2 & R3 & R4 & R5).
    unfold consistent; cbn.
    split; [exact R1|split; [exact R2|split; [exact R3|split; [|exact R5]]]].
    intros [[H|H]|[H|H]]; try discriminate; apply R4; auto.
  - (* produce, producer *)
    unfold produce_settled. apply resume_inv; [exact Hst|].
    intros rest Hw.
    pose proof (@consistent_resumed _ _ Hst (@without_incl _ _ _ Hw)) as R.
    destruct lib; try exact R.
    destruct R as (R1 & R2 & R3 & R4 & R5).
    destruct detection;
      (split; [reflexivity|split; [cbn; intuition congruence
                                  |split; [exact R3|split; [exact R4
                                                           |exact R5]]]]).
  - (* consume response, up to the library call *)
    unfold consume_replied.
    destruct resp; try exact Hst.
    destruct (recvTransport st) eqn:Hr; try exact Hst.
    rewrite <- Hr in H3.
    unfold consistent; cbn.
    split; [exact H1|split; [exact H2|split; [exact H3|split; [|exact H5]]]].
    intros [[H|H]|[H|H]]; try discriminate; apply H4; auto.
  - (* consume response, consumer created *)
    unfold consume_settled. apply resume_inv; [exact Hst|].
    intros rest Hw.
    pose proof (@consistent_resumed _ _ Hst (@without_incl _ _ _ Hw)) as R.
    destruct lib; try exact R.
    destruct R as (R1 & R2 & R3 & R4 & R5).
    unfold consistent; cbn.
    split; [exact R1|split; [exact R2|split; [exact R3|split; [exact R4|]]]].
    intros id' co' Hin. apply in_set in Hin.
    destruct Hin as [[= -> ->]|Hin]; [reflexivity|].
    exact (H5 _ _ Hin).
  - exact Hst.
  - exact Hst.
Qed.

Lemma run_consistent (evs : list Event) (st : State) :
  consistent st -> consistent (fst (run evs st)).
Proof.
  revert st. induction evs as [|ev rest IH]; intros st Hst; [exact Hst|].
  cbn [run]. pose proof (step_consistent ev Hst) as H1.
  destruct (step ev st) as [st1 e1]. specialize (IH st1 H1).
  destruct (run rest st1) as [st2 e2]. exact IH.
Qed.

Lemma run_keeps_peerId (evs : list Event) (st : State) :
  peerId (fst (run evs st)) = peerId st.
Proof.
  revert st. induction evs as [|ev rest IH]; intros st; [reflexivity|].
  cbn [run]. pose proof (step_keeps_peerId ev st) as H1.
  destruct (step ev st) as [st1 e1]. specialize (IH st1).
  destruct (run rest st1) as [st2 e2]. cbn in *. congruence.
Qed.

Lemma make_consistent (room peer : string) (caps : Engine.RtpCapabilities) :
  consistent (make room peer caps).
Proof.
  unfold consistent; cbn.
  repeat split; try discriminate; try congruence.
  - intros [[]|[]].
  - intros ? ? [].
Qed.

Lemma set_suspended_same (st : State) :
  set_suspended (suspended st) st = st.
Proof. destruct st; reflexivity. Qed.

(** A call of [connect] whose answers all arrive, taken one suspension
    at a time with nothing in between, is [connect]. *)
Lemma connect_in_stages
      (script : list CapFetch.Reply) (loadOk : bool)
      (sendReply recvReply : TransportReply) (st : State) :
  suspended st = [] ->
  sendReply <> NoReply -> recvReply <> NoReply ->
  run [BeginConnect script; DeviceLoadSettled loadOk;
       SendTransportReplied sendReply; RecvTransportReplied recvReply] st
  = (snd (fst (connect script loadOk sendReply recvReply st)),
     snd (connect script loadOk sendReply recvReply st)).
Proof.
  intros Hs Hsend Hrecv.
  destruct st; cbn in Hs; subst.
  cbn [run step]. unfold connect_begin, connect.
  destruct (CapFetch.promise _).
  - cbn. destruct sendReply, recvReply; cbn; now rewrite ?app_nil_r.
  - destruct loadOk; cbn.
    + destruct sendReply as [|ms|s]; [contradiction| |]; cbn.
      * destruct recvReply; cbn;
          destruct (String.eqb ms ""); now rewrite <- ?app_assoc.
      * destruct recvReply as [|mr|r]; [contradiction| |]; cbn.
        -- destruct (String.eqb mr ""); now rewrite <- ?app_assoc.
        -- now rewrite <- ?app_assoc.
    + destruct sendReply, recvReply; cbn; now rewrite ?app_nil_r.
  - cbn. destruct sendReply, recvReply; cbn; now rewrite ?app_nil_r.
Qed.

(** A call of [produce], taken one suspension at a time with nothing in
    between, is [produce]. *)
Lemma produce_in_stages
      (um : UserMedia) (lib : option Engine.ObjId) (detection : bool)
      (st : State) :
  suspended st = [] ->
  run [BeginProduce; UserMediaSettled um;
       TransportProduceSettled lib detection] st
  = (snd (fst (produce um lib detection st)),
     snd (produce um lib detection st)).
Proof.
  intros Hs. destruct st; cbn in Hs; subst.
  cbn [run step]. unfold produce_begin, produce; cbn.
  destruct sendTransport0; [|reflexivity].
  destruct isConnected0; [|reflexivity]. cbn.
  destruct um; try reflexivity. cbn.
  destruct lib; [|reflexivity]. cbn.
  destruct detection; reflexivity.
Qed.

(** The acknowledgement callback of [consume], taken one suspension at
    a time with nothing in between, is [on_consume_response]. *)
Lemma consume_response_in_stages
      (id producerId : Engine.ObjId) (kind : string)
      (rtp : Engine.RtpParameters) (lib : option bool) (st : State) :
  suspended st = [] ->
  run [ConsumeReplied (Server.ConsumerCreated id producerId kind rtp);
       TransportConsumeSettled id producerId kind lib] st
  = on_consume_response (Server.ConsumerCreated id producerId kind rtp)
                        lib st.
Proof.
  intros Hs. destruct st; cbn in Hs; subst.
  cbn [run step]. unfold consume_replied, on_consume_response; cbn.
  destruct recvTransport0; [|reflexivity].
  cbn. unfold consume_settled, resume_at. cbn.
  rewrite !Nat.eqb_refl, String.eqb_refl. cbn.
  destruct lib; reflexivity.
Qed.

(** X11: in every state a client object reaches, with the asynchronous
    methods interleaved in any way, [getProducerState] reports
    [isRecording] equal to [isProducing] and reports producing exactly
    when a producer object is held; [isReadyToProduceOrConsume] is the
    connected flag, and it holds only with a receive transport. It does
    not require a send transport: a [disconnect] between the two
    transport answers of [connect] leaves the client ready without one,
    and every [produce] is refused. *)
Theorem X11_client_state_is_consistent
        (room peer : string) (caps : Engine.RtpCapabilities) :
  (forall evs : list Event,
     let st := fst (run evs (make room peer caps)) in
     snd (getProducerState st) = fst (getProducerState st) /\
     (fst (getProducerState st) = true <-> producer st <> None) /\
     isReadyToProduceOrConsume st = isConnected st /\
     (isReadyToProduceOrConsume st = true -> recvTransport st <> None)) /\
  (exists (script : list CapFetch.Reply) (s r : Engine.ObjId),
     let st := fst (run [BeginConnect script; DeviceLoadSettled true;
                         SendTransportReplied (TransportParams s);
                         CallDisconnect;
                         RecvTransportReplied (TransportParams r)]
                        (make room peer caps)) in
     isReadyToProduceOrConsume st = true /\
     sendTransport st = None /\
     forall um lib detection, produce um lib detection st = (false, st, [])).
Proof.
  split.
  - intros evs. cbv zeta.
    destruct (run_consistent evs (make_consistent room peer caps))
      as (H1 & H2 & H3 & _).
    split; [exact H1|]. split; [exact H2|].
    unfold isReadyToProduceOrConsume.
    destruct (isConnected (fst (run evs (make room peer caps)))) eqn:Hc.
    + destruct (H3 eq_refl) as [Hl Hr]. rewrite Hl. now split.
    + rewrite andb_false_r. split; [reflexivity|discriminate].
  - exists [CapFetch.Ack 5 (CapFetch.Capabilities "caps")], 1, 2.
    cbv zeta.
    set (st := fst (run _ (make room peer caps))).
    assert (Hs : sendTransport st = None) by (vm_compute; reflexivity).
    assert (Hr : isReadyToProduceOrConsume st = true)
      by (vm_compute; reflexivity).
    split; [exact Hr|]. split; [exact Hs|].
    intros um lib detection. unfold produce. now rewrite Hs.
Qed.

End ClientFacts.

Section ClientBehaviour.
Import Client Observe.

Lemma set_consumers_same (st : State) : set_consumers (consumers st) st = st.
Proof. destruct st; reflexivity. Qed.

Lemma filter_all {A} (f : A -> bool) (l : list A) :
  (forall x, In x l -> f x = true) -> filter f l = l.
Proof.
  induction l as [|a l IH]; intros H; cbn; [reflexivity|].
  rewrite (H a (or_introl eq_refl)). f_equal. apply IH.
  intros x Hx. apply H. now right.
Qed.

Lemma filter_none {A} (f : A -> bool) (l : list A) :
  (forall x, In x l -> f x = false) -> filter f l = [].
Proof.
  induction l as [|a l IH]; intros H; cbn; [reflexivity|].
  rewrite (H a (or_introl eq_refl)). apply IH.
  intros x Hx. apply H. now right.
Qed.

(** X12: every consumer the client creates carries the client's own
    peer id in its [appData], so a [peerDisconnected] push for another
    peer closes no consumer and removes none: the consumer map and
    [getConsumerCount] are as before. *)
Theorem X12_peerDisconnected_removes_nothing
        (room me : string) (caps : Engine.RtpCapabilities)
        (evs : list Event) (other : string) :
  other <> me ->
  let st := fst (run evs (make room me caps)) in
  on_peerDisconnected other st = (st, []).
Proof.
  intros Hne. cbv zeta.
  pose proof (run_consistent evs (make_consistent room me caps))
    as (_ & _ & _ & _ & H4).
  pose proof (run_keeps_peerId evs (make room me caps)) as Hp.
  cbn [peerId make] in Hp.
  set (st := fst (run evs (make room me caps))) in *.
  unfold on_peerDisconnected.
  assert (Hall : forall kc, In kc (consumers st) ->
                   String.eqb (c_appPeerId (snd kc)) other = false).
  { intros [id co] Hin. cbn. rewrite (H4 id co Hin), Hp.
    apply String.eqb_neq. congruence. }
  rewrite filter_all, filter_none.
  - cbn. now rewrite set_consumers_same.
  - exact Hall.
  - intros kc Hin. now rewrite (Hall kc Hin).
Qed.

(** X13: a [newProducer] push never changes the client's state.
    Nothing is sent when the push names the client's own peer id or a
    kind other than audio, or when the client has no receive transport,
    is not connected or its device is not loaded; in the remaining case
    exactly one request is sent, [consume] for that producer with the
    device's capabilities on the receive transport. On a client object
    as it is reached from its constructor the remaining case is: another
    peer's audio while the client is connected. *)
Theorem X13_newProducer_consumes_others_audio_once
        (peer : string) (producerId : Engine.ObjId) (kind : string) :
  (forall st : State,
     fst (on_newProducer peer producerId kind st) = st /\
     (peer = peerId st \/ kind <> "audio" \/ recvTransport st = None \/
      isConnected st = false \/ deviceLoaded st = false ->
      snd (on_newProducer peer producerId kind st) = []) /\
     (forall r,
        peer <> peerId st -> kind = "audio" -> recvTransport st = Some r ->
        isConnected st = true -> deviceLoaded st = true ->
        snd (on_newProducer peer producerId kind st)
        = [Emit (Server.ConsumeReq producerId (rtpCapabilities st) r)])) /\
  (forall (room me : string) (caps : Engine.RtpCapabilities)
          (evs : list Event),
     let st := fst (run evs (make room me caps)) in
     peer <> me -> kind = "audio" -> isConnected st = true ->
     exists r,
       recvTransport st = Some r /\
       on_newProducer peer producerId kind st
       = (st, [Emit (Server.ConsumeReq producerId (rtpCapabilities st)
                                       r)])).
Proof.
  assert (Hgen : forall st r,
             peer <> peerId st -> kind = "audio" ->
             recvTransport st = Some r ->
             isConnected st = true -> deviceLoaded st = true ->
             on_newProducer peer producerId kind st
             = (st, [Emit (Server.ConsumeReq producerId
                                             (rtpCapabilities st) r)])).
  { intros st r Hp Hk Hr Hc Hl. unfold on_newProducer, consume.
    apply String.eqb_neq in Hp. rewrite Hp, Hk, Hr, Hc, Hl. reflexivity. }
  split.
  - intros st. split; [|split].
    + unfold on_newProducer, consume.
      destruct (_ && _); [|reflexivity].
      destruct (recvTransport st); [|reflexivity].
      now destruct (_ || _).
    + unfold on_newProducer, consume.
      intros [H|[H|[H|[H|H]]]].
      * apply String.eqb_eq in H. now rewrite H.
      * apply String.eqb_neq in H. rewrite H. now rewrite andb_false_r.
      * rewrite H. now destruct (_ && _).
      * rewrite H. destruct (_ && _); [|reflexivity].
        now destruct (recvTransport st).
      * rewrite H. destruct (_ && _); [|reflexivity].
        destruct (recvTransport st); [|reflexivity].
        now rewrite orb_true_r.
    + intros r Hp Hk Hr Hc Hl. now rewrite (Hgen st r).
  - intros room me caps evs. cbv zeta. intros Hp Hk Hc.
    destruct (run_consistent evs (make_consistent room me caps))
      as (_ & _ & H3 & _).
    pose proof (run_keeps_peerId evs (make room me caps)) as Hid.
    cbn [peerId make] in Hid.
    destruct (H3 Hc) as [Hl Hr].
    destruct (recvTransport (fst (run evs (make room me caps))))
      as [r|] eqn:Er; [|contradiction].
    exists r. split; [reflexivity|].
    rewrite (Hgen _ r); [reflexivity|congruence|assumption..].
Qed.


Lemma closed_consumers_app (a b : list Effect) :
  closed_consumers (a ++ b) = closed_consumers a ++ closed_consumers b.
Proof. apply flat_map_app. Qed.

Lemma closed_consumers_cleanup (l : JsMap.t Engine.ObjId Consumer) :
  closed_consumers
    (flat_map (fun kc => [AudioCleaned (fst kc); ConsumerClosed (fst kc)]) l)
  = JsMap.keys l.
Proof.
  unfold closed_consumers, JsMap.keys.
  induction l as [|[k v] l IH]; [reflexivity|].
  cbn. f_equal. exact IH.
Qed.

Lemma stopProducing_closes_no_consumer (st : State) :
  closed_consumers (snd (stopProducing st)) = [].
Proof.
  unfold stopProducing. destruct (producer st); [|reflexivity].
  cbn. destruct (audioLevelInterval st); reflexivity.
Qed.

(** X15: [disconnect] releases everything the client holds. Each
    consumer of the map is closed exactly once, in map order, both
    transports are closed, the client ends with no consumer, no
    transport, no producer and not ready, and a second [disconnect]
    does nothing. *)
Theorem X15_disconnect_releases_everything (st : State) :
  let st' := fst (disconnect st) in
  let e := snd (disconnect st) in
  closed_consumers e = JsMap.keys (consumers st) /\
  (forall t, sendTransport st = Some t -> In (TransportClosed t) e) /\
  (forall t, recvTransport st = Some t -> In (TransportClosed t) e) /\
  getConsumerCount st' = 0 /\
  sendTransport st' = None /\ recvTransport st' = None /\
  producer st' = None /\
  isReadyToProduceOrConsume st' = false /\
  disconnect st' = (st', []).
Proof.
  cbv zeta. unfold disconnect.
  pose proof (stopProducing_keeps st)
    as (_ & _ & Hc & _ & _ & Hs & Hr & Hp & Hn).
  pose proof (stopProducing_closes_no_consumer st) as He.
  destruct (stopProducing st) as [st1 e1]. cbn [fst snd] in *.
  assert (Hp1 : producer st1 = None).
  { destruct (producer st) eqn:E; [apply Hp; discriminate|].
    now rewrite (Hn eq_refl). }
  split.
  { rewrite !closed_consumers_app, He, closed_consumers_cleanup, Hc.
    destruct (sendTransport st1), (recvTransport st1); cbn;
      now rewrite ?app_nil_r. }
  split.
  { intros t Ht. rewrite Hs, Ht, !in_app_iff. right; right; left.
    now left. }
  split.
  { intros t Ht. rewrite Hr, Ht, !in_app_iff. right; right; right.
    now left. }
  split; [reflexivity|]. split; [reflexivity|]. split; [reflexivity|].
  split; [exact Hp1|].
  split; [apply andb_false_r|].
  unfold stopProducing. cbn. rewrite Hp1. reflexivity.
Qed.

(** X16: after a [connect] that did not return [true] on a new client,
    the client is not connected, and both [produce] and [consume]
    refuse without sending anything or touching the microphone. *)
Theorem X16_failed_connect_blocks_media
        (room peer : string) (caps : Engine.RtpCapabilities)
        (script : list CapFetch.Reply) (loadOk : bool)
        (sendReply recvReply : TransportReply)
        (um : UserMedia) (lib : option Engine.ObjId) (detection : bool)
        (producerId : Engine.ObjId) :
  let result := connect script loadOk sendReply recvReply
                        (make room peer caps) in
  fst (fst result) <> Some true ->
  let st := snd (fst result) in
  isReadyToProduceOrConsume st = false /\
  produce um lib detection st = (false, st, []) /\
  consume producerId st = (st, []).
Proof.
  cbv zeta. unfold connect.
  destruct (CapFetch.promise _); cbn; try (intros _; repeat split; fail).
  destruct loadOk; cbn; [|intros _; repeat split].
  destruct sendReply; cbn; try (intros _; repeat split; fail).
  destruct recvReply; cbn; try (intros _; repeat split; fail).
  intros H. contradiction.
Qed.

(** X17: when the first capability request is answered with a non-empty
    error before the 20 s mark and the retry is never answered,
    [connect] never returns: it has sent the capability request twice
    and nothing else, it neither reports failure nor changes the
    client. *)
Theorem X17_connect_hangs_with_the_fetch
        (delay : N) (msg : string) (loadOk : bool)
        (sendReply recvReply : TransportReply) (st : State) :
  (delay < CapFetch.timeoutDuration)%N ->
  msg <> "" ->
  connect [CapFetch.Ack delay (CapFetch.ErrorResponse msg); CapFetch.Silent]
          loadOk sendReply recvReply st
  = (None, st, [Emit Server.GetRouterRtpCapabilities;
                Emit Server.GetRouterRtpCapabilities]).
Proof.
  intros Hd Hm. unfold connect, capability_requests.
  pose proof (@error_then_silence_never_settles delay msg Hd Hm) as H.
  cbv zeta in H. destruct H as (Hp & _ & Ha).
  now rewrite Hp, Ha.
Qed.

End ClientBehaviour.

(** ** Server: capabilities and the announced address *)

Section ServerReach.
Import Server Observe.
Variable host : Host.

(** X18: in every state the server reaches, a registered socket that
    asks for the router capabilities gets exactly the capabilities of
    its room's router, also when the payload is [null]: the branch
    "Room or router not initialized" is never taken, and nothing else
    changes. *)
Theorem X18_capabilities_request_never_fails
        (numWorkers : nat) (evs : list Event) (sock : SocketId)
        (c : Conn) (nullPayload : bool) :
  let w := run host evs (initial numWorkers) in
  JsMap.get sock (conns (net w)) = Some c ->
  exists room,
    JsMap.get (conn_room c) (room_objs (heap w)) = Some room /\
    step host
         (Incoming sock
            (if nullPayload then NullPayload "getRouterRtpCapabilities"
             else WithPayload GetRouterRtpCapabilities)) w
    = log [Ack sock (RouterCapabilities (room_router room))] w.
Proof.
  intros w Hc.
  destruct (registered_handler_has_its_objects host numWorkers evs sock Hc)
    as [Hr _].
  fold w in Hr. exists (the_room c w). split; [exact Hr|].
  cbn [step]. rewrite Hc.
  assert (E : run_handler sock (on_getRouterRtpCapabilities sock c) w
              = log [Ack sock (RouterCapabilities (room_router (the_room c w)))] w).
  { unfold run_handler, on_getRouterRtpCapabilities, try_catch, bind, gets.
    rewrite Hr. reflexivity. }
  destruct nullPayload; cbn [receive dispatch]; [|exact E].
  exact E.
Qed.


Lemma close_keeps_ips (t : Engine.ObjId) (e : Engine.State)
      (id : Engine.ObjId) (tr : Engine.Transport) :
  In (id, tr) (Engine.transports (Engine.close t e)) ->
  exists tr0, In (id, tr0) (Engine.transports e) /\
              Engine.transport_announcedIp tr
              = Engine.transport_announcedIp tr0.
Proof.
  cbn. unfold JsMap.map_values. intros Hin. apply in_map_iff in Hin.
  destruct Hin as ([k tr0] & [= <- <-] & Hin). exists tr0.
  split; [exact Hin|]. cbn. now destruct (Nat.eqb _ _).
Qed.

Lemma close_all_keeps_ips (l : list Engine.ObjId) (e : Engine.State)
      (id : Engine.ObjId) (tr : Engine.Transport) :
  In (id, tr)
     (Engine.transports (fold_left (fun e t => Engine.close t e) l e)) ->
  exists tr0, In (id, tr0) (Engine.transports e) /\
              Engine.transport_announcedIp tr
              = Engine.transport_announcedIp tr0.
Proof.
  revert e tr. induction l as [|t l IH]; intros e tr Hin; cbn in Hin.
  - now exists tr.
  - destruct (IH _ _ Hin) as (tr1 & Hin1 & E1).
    destruct (close_keeps_ips _ _ _ _ Hin1) as (tr0 & Hin0 & E0).
    exists tr0. split; [exact Hin0|congruence].
Qed.

Lemma receive_shared_ip (sock : SocketId) (c : Conn) (m : Message)
      (w : World) :
  shared_ip w ->
  shared_ip (run_handler sock (receive host sock c m) w) /\
  ip_pinned w (run_handler sock (receive host sock c m) w).
Proof.
  intros Hw.
  destruct m as [r|event]; [destruct r|];
    unfold shared_ip, ip_pinned, run_handler, receive, dispatch,
      on_getRouterRtpCapabilities, on_joinRoom, on_speaking,
      on_createWebRtcTransport, on_connectWebRtcTransport, on_produce,
      on_consume, on_resumeConsumer, on_stopRecording,
      createWebRtcTransport, startRecording, engine_call,
      Engine.createWebRtcTransport, Engine.connect, Engine.produce,
      Engine.consume, Engine.resume,
      try_catch, bind, gets, throw, ret, callback, emit_to_room,
      emit_self, mutate_peer, mutate_room, modify;
    repeat match goal with
           | |- context [match ?x with _ => _ end] =>
               lazymatch x with
               | context [match _ with _ => _ end] => fail
               | _ => destruct x eqn:?
               end
           end;
    cbn;
    (split;
     [intros id tr Hin;
      repeat match goal with
             | H : In _ (JsMap.set _ _ _) |- _ =>
                 apply in_set in H; destruct H as [[= -> ->]|H]
             | H : JsMap.get _ (Engine.transports _) = Some _ |- _ =>
                 apply get_in in H; apply Hw in H
             | H : In _ (Engine.transports (engine w)) |- _ =>
                 apply Hw in H
             end;
      cbn in *; congruence
     |intros ip Hip; congruence]).
Qed.

Lemma step_shared_ip (ev : Event) (w : World) :
  shared_ip w -> shared_ip (step host ev w) /\ ip_pinned w (step host ev w).
Proof.
  intros Hw.
  assert (Hsame : shared_ip w /\ ip_pinned w w) by (split; [exact Hw|now intros ip]).
  destruct ev as [sock roomId peerId ip|sock|sock m|sock]; cbn [step].
  - destruct (_ || _); [exact Hsame|].
    unfold on_connection, run_handler, bind, gets.
    destruct (JsMap.get roomId (rooms (stores w))) as [room|].
    + unfold finish_connection, bind, modify, mutate_room. cbn.
      exact Hsame.
    + unfold createRoom_call, bind, gets, throw, modify.
      destruct (Nat.eqb (workers (stores w)) 0); [exact Hsame|].
      unfold Engine.createRouter.
      destruct (Engine.rejects _ _ _); exact Hsame.
  - destruct (JsMap.get sock (pending (net w))) as [p|]; [|exact Hsame].
    unfold on_router_ready, createRoom_resume, run_handler.
    destruct (pend_router p) as [msg|router]; [exact Hsame|].
    unfold finish_connection, bind, gets, modify, mutate_room, ret. cbn.
    exact Hsame.
  - destruct (JsMap.get sock (conns (net w))) as [c|]; [|exact Hsame].
    now apply receive_shared_ip.
  - destruct (JsMap.get sock (conns (net w))) as [c|]; [|exact Hsame].
    unfold run_handler, on_disconnect, bind, gets, modify, emit_to_room,
      mutate_room; cbn.
    match goal with |- context [Nat.eqb ?a 0] => destruct (Nat.eqb a 0) end;
      cbn; (split; [|now intros ip]);
      intros id tr Hin; cbn in Hin;
      apply close_all_keeps_ips in Hin;
      destruct Hin as (tr0 & Hin & ->); exact (Hw id tr0 Hin).
Qed.

(** X19: [createWebRtcTransport] copies the transport settings only
    one level deep, so the announced address it writes lands in the
    shared settings. In every state the server reaches all transports
    announce the same address, the one in the settings; once set it is
    never changed by any later event; and it is set by the first
    transport request to that client's address (or 127.0.0.1 when the
    client has none), whoever asks later. *)
Theorem X19_announced_ip_fixed_by_first_transport
        (numWorkers : nat) (evs : list Event) :
  let w := run host evs (initial numWorkers) in
  (forall id tr,
     JsMap.get id (Engine.transports (engine w)) = Some tr ->
     announcedIp (heap w) = Some (Engine.transport_announcedIp tr)) /\
  (forall ip more,
     announcedIp (heap w) = Some ip ->
     announcedIp (heap (run host more w)) = Some ip) /\
  (forall sock c sender,
     JsMap.get sock (conns (net w)) = Some c ->
     announcedIp (heap w) = None ->
     announcedIp
       (heap (step host (request sock (CreateWebRtcTransportReq sender)) w))
     = Some (if String.eqb (peer_clientIp (the_peer sock c w)) ""
             then "127.0.0.1"
             else peer_clientIp (the_peer sock c w))).
Proof.
  cbv zeta.
  assert (Hreach : forall evs w, shared_ip w ->
            shared_ip (run host evs w) /\ ip_pinned w (run host evs w)).
  { clear evs. unfold run.
    induction evs as [|ev evs IH]; intros w Hw; cbn.
    - split; [exact Hw|now intros ip].
    - destruct (step_shared_ip ev Hw) as [H1 H2].
      destruct (IH _ H1) as [H3 H4].
      split; [exact H3|]. intros ip Hip. apply H4, H2, Hip. }
  assert (H0 : shared_ip (initial numWorkers)) by (intros ? ? []).
  destruct (Hreach evs _ H0) as [Hw _].
  split; [|split].
  - intros id tr Hget. apply (Hw id tr). now apply get_in.
  - intros ip more. apply (Hreach more _ Hw).
  - intros sock c sender Hc Hnone. cbn [step request]. rewrite Hc.
    unfold run_handler, receive, dispatch, on_createWebRtcTransport,
      createWebRtcTransport, try_catch, bind, gets.
    rewrite Hnone.
    unfold modify, engine_call, Engine.createWebRtcTransport.
    cbn. destruct (Engine.rejects _ _ _); reflexivity.
Qed.

End ServerReach.

(** ** The speaking flag from one page to the other *)

Section SpeakingRelay.
Import Server Observe.
Variable host : Host.

Lemma in_keys_set {V} (k x : string) (v : V) (m : JsMap.t string V) :
  In x (JsMap.keys (JsMap.set k v m)) -> x = k \/ In x (JsMap.keys m).
Proof.
  unfold JsMap.keys. induction m as [|[k0 v0] m IH]; cbn.
  - intros [<-|[]]. now left.
  - destruct (eq_dec k k0) as [->|Hne]; cbn.
    + intros [<-|H]; auto.
    + intros [<-|H]; auto. destruct (IH H); auto.
Qed.

Lemma keys_set_nodup {V} (k : string) (v : V) (m : JsMap.t string V) :
  NoDup (JsMap.keys m) -> NoDup (JsMap.keys (JsMap.set k v m)).
Proof.
  induction m as [|[k0 v0] m IH]; cbn; intros Hnd.
  - constructor; [intros []|constructor].
  - inversion Hnd as [|? ? Hnot Hnd']; subst.
    destruct (eq_dec k k0) as [->|Hne]; cbn.
    + constructor; assumption.
    + constructor; [|now apply IH].
      intros H. apply in_keys_set in H.
      destruct H as [->|H]; [now apply Hne|contradiction].
Qed.

Lemma keys_delete_nodup {V} (k : string) (m : JsMap.t string V) :
  NoDup (JsMap.keys m) -> NoDup (JsMap.keys (JsMap.delete k m)).
Proof.
  unfold JsMap.keys.
  induction m as [|[k0 v0] m IH]; cbn; intros Hnd; [constructor|].
  inversion Hnd as [|? ? Hnot Hnd']; subst.
  destruct (eq_dec k k0); cbn; [exact Hnd'|].
  constructor; [|now apply IH].
  intros H. apply Hnot. apply in_map_iff in H.
  destruct H as ([k1 v1] & <- & H). apply in_delete in H.
  apply in_map_iff. now exists (k1, v1).
Qed.

(** A socket handler leaves the connection tables alone. *)
Lemma receive_keeps_tables (sock : SocketId) (c : Conn) (m : Message)
      (w : World) :
  let w' := run_handler sock (receive host sock c m) w in
  conns (net w') = conns (net w) /\
  pending (net w') = pending (net w) /\
  joined (net w') = joined (net w) /\
  peers (stores w') = peers (stores w) /\
  rooms (stores w') = rooms (stores w).
Proof.
  destruct m as [r|event]; [destruct r|];
    unfold run_handler, receive, dispatch,
      on_getRouterRtpCapabilities, on_joinRoom, on_speaking,
      on_createWebRtcTransport, on_connectWebRtcTransport, on_produce,
      on_consume, on_resumeConsumer, on_stopRecording,
      createWebRtcTransport, startRecording, engine_call,
      try_catch, bind, gets, throw, ret, callback, emit_to_room,
      emit_self, mutate_peer, mutate_room, modify;
    repeat match goal with
           | |- context [match ?x with _ => _ end] =>
               lazymatch x with
               | context [match _ with _ => _ end] => fail
               | _ => destruct x eqn:?
               end
           end;
    cbn; repeat split.
Qed.

Lemma step_joined_nodup (ev : Event) (w : World) :
  NoDup (JsMap.keys (joined (net w))) ->
  NoDup (JsMap.keys (joined (net (step host ev w)))).
Proof.
  intros Hw.
  destruct ev as [sock roomId peerId ip|sock|sock m|sock]; cbn [step].
  - destruct (_ || _); [exact Hw|].
    unfold on_connection, run_handler, bind, gets.
    destruct (JsMap.get roomId (rooms (stores w))) as [room|].
    + unfold finish_connection, bind, modify, mutate_room. cbn.
      now apply keys_set_nodup.
    + unfold createRoom_call, bind, gets, throw, modify.
      destruct (Nat.eqb (workers (stores w)) 0); [exact Hw|].
      destruct (Engine.createRouter _ _); exact Hw.
  - destruct (JsMap.get sock (pending (net w))) as [p|]; [|exact Hw].
    unfold on_router_ready, createRoom_resume, run_handler.
    destruct (pend_router p) as [msg|router]; [exact Hw|].
    unfold finish_connection, bind, gets, modify, mutate_room, ret. cbn.
    now apply keys_set_nodup.
  - destruct (JsMap.get sock (conns (net w))) as [c|]; [|exact Hw].
    destruct (receive_keeps_tables sock c m w) as (_ & _ & -> & _).
    exact Hw.
  - destruct (JsMap.get sock (conns (net w))) as [c|]; [|exact Hw].
    unfold run_handler, on_disconnect, bind, gets, modify, emit_to_room,
      mutate_room; cbn.
    match goal with |- context [Nat.eqb ?a 0] => destruct (Nat.eqb a 0) end;
      cbn; now apply keys_delete_nodup.
Qed.

Lemma reachable_joined_nodup (numWorkers : nat) (evs : list Event) :
  NoDup (JsMap.keys (joined (net (run host evs (initial numWorkers))))).
Proof.
  unfold run.
  assert (H0 : NoDup (JsMap.keys (joined (net (initial numWorkers)))))
    by constructor.
  revert H0. generalize (initial numWorkers).
  induction evs as [|ev evs IH]; intros w Hw; [exact Hw|].
  cbn. apply IH. now apply step_joined_nodup.
Qed.

Lemma no_delivery_outside (sA sB roomId : string) (ev : Push)
      (j : JsMap.t SocketId string) :
  ~ In sB (JsMap.keys j) ->
  deliveries_to sB
    (map (fun s => Deliver s ev)
       (map fst
          (filter (fun sr => String.eqb (snd sr) roomId
                             && negb (String.eqb (fst sr) sA)) j)))
  = [].
Proof.
  induction j as [|[k r] j IH]; cbn; intros Hnot; [reflexivity|].
  destruct (String.eqb r roomId && negb (String.eqb k sA)); cbn.
  - destruct (String.eqb k sB) eqn:E.
    + apply String.eqb_eq in E. exfalso. apply Hnot. now left.
    + apply IH. intros H. apply Hnot. now right.
  - apply IH. intros H. apply Hnot. now right.
Qed.

(** A broadcast to a room reaches each other member exactly once. *)
Lemma one_delivery_per_member (sA sB roomId : string) (ev : Push)
      (j : JsMap.t SocketId string) :
  NoDup (JsMap.keys j) ->
  JsMap.get sB j = Some roomId ->
  sB <> sA ->
  deliveries_to sB
    (map (fun s => Deliver s ev)
       (map fst
          (filter (fun sr => String.eqb (snd sr) roomId
                             && negb (String.eqb (fst sr) sA)) j)))
  = [ev].
Proof.
  intros Hnd Hget Hne.
  induction j as [|[k r] j IH]; cbn in *; [discriminate|].
  inversion Hnd as [|? ? Hnot Hnd']; subst.
  destruct (eq_dec sB k) as [<-|Hk].
  - injection Hget as ->. rewrite String.eqb_refl.
    apply String.eqb_neq in Hne. rewrite Hne. cbn.
    rewrite String.eqb_refl. cbn. f_equal.
    now apply no_delivery_outside.
  - specialize (IH Hnd' Hget).
    destruct (String.eqb r roomId && negb (String.eqb k sA)); cbn;
      [|exact IH].
    assert (E : String.eqb k sB = false)
      by (apply String.eqb_neq; congruence).
    now rewrite E.
Qed.

Lemma deliveries_app (s : SocketId) (a b : list Output) :
  deliveries_to s (a ++ b) = deliveries_to s a ++ deliveries_to s b.
Proof. apply flat_map_app. Qed.

(** One [speaking] request: a broadcast to the named room, the
    connection tables untouched. *)
Lemma speaking_step (sock : SocketId) (c : Conn)
      (roomId peerId : string) (b : bool) (w : World) :
  JsMap.get sock (conns (net w)) = Some c ->
  let w1 := step host (request sock (Speaking roomId peerId b)) w in
  out (net w1)
  = out (net w) ++ map (fun s => Deliver s (UserSpeaking peerId b))
                       (recipients sock roomId w) /\
  conns (net w1) = conns (net w) /\
  joined (net w1) = joined (net w).
Proof.
  intros Hc. cbn [step request]. rewrite Hc.
  unfold run_handler, receive, dispatch, on_speaking, bind, gets, modify,
    emit_to_room, ret.
  destruct (JsMap.get peerId (users (stores w))); cbn; auto.
Qed.

Lemma speaking_run (sA sB : SocketId) (cA : Conn)
      (roomId peerId : string) (bs : list bool) (w : World) :
  JsMap.get sA (conns (net w)) = Some cA ->
  NoDup (JsMap.keys (joined (net w))) ->
  JsMap.get sB (joined (net w)) = Some roomId ->
  sB <> sA ->
  exists added,
    out (net (run host
                (map (fun b => request sA (Speaking roomId peerId b)) bs)
                w))
    = out (net w) ++ added /\
    deliveries_to sB added = map (UserSpeaking peerId) bs.
Proof.
  intros Hc Hnd Hj Hne. revert w Hc Hnd Hj.
  induction bs as [|b bs IH]; intros w Hc Hnd Hj.
  - exists []. cbn. now rewrite app_nil_r.
  - cbn [map run fold_left].
    destruct (@speaking_step sA cA roomId peerId b w Hc) as (Ho & Hc1 & Hj1).
    set (w1 := step host (request sA (Speaking roomId peerId b)) w) in *.
    destruct (IH w1) as (added & Ha & Hd).
    + now rewrite Hc1.
    + now rewrite Hj1.
    + now rewrite Hj1.
    + eexists. split.
      * unfold run in Ha. rewrite Ha, Ho, <- app_assoc. reflexivity.
      * rewrite deliveries_app, Hd. unfold recipients.
        now rewrite (@one_delivery_per_member sA sB roomId _ _ Hnd Hj Hne).
Qed.

Lemma last_cons_default {A} (a d : A) (l : list A) :
  last (a :: l) d = last l a.
Proof.
  revert a d. induction l as [|x l IH]; intros a d; [reflexivity|].
  change (last (a :: x :: l) d) with (last (x :: l) d).
  rewrite (IH x d). symmetry. apply (IH x a).
Qed.

(** What the tracker sends names the client's room and peer, and its
    state is the flag of the last message it sent. *)
Lemma feed_messages (roomId peerId : string) (levels : list float) :
  forall st,
    snd (Tracker.feed roomId peerId st levels)
    = map (Tracker.say roomId peerId)
          (map Tracker.msg_speaking
               (snd (Tracker.feed roomId peerId st levels))) /\
    Tracker.speaking (fst (Tracker.feed roomId peerId st levels))
    = last (map Tracker.msg_speaking
                (snd (Tracker.feed roomId peerId st levels)))
           (Tracker.speaking st).
Proof.
  induction levels as [|d rest IH]; intros st; [split; reflexivity|].
  cbn [Tracker.feed]. rewrite detect_cases.
  destruct (Tracker.audioAnalyser st
            && negb (Bool.eqb (Tracker.isSpeaking d) (Tracker.speaking st))).
  - specialize (IH {| Tracker.audioAnalyser := true;
                      Tracker.speaking := Tracker.isSpeaking d |}).
    destruct (Tracker.feed roomId peerId _ rest) as [st2 out2].
    cbn [fst snd Tracker.speaking] in IH |- *. destruct IH as [IH1 IH2].
    cbn [app map]. split.
    + now rewrite <- IH1.
    + rewrite last_cons_default. exact IH2.
  - specialize (IH st).
    destruct (Tracker.feed roomId peerId st rest) as [st2 out2].
    exact IH.
Qed.

(** The other side's list after a series of [userSpeaking] pushes for
    one id: same entries, the flag of that id is the last pushed. *)
Lemma view_after_speaking (p : string) (bs : list bool) :
  forall (v : VoiceRoom.View) (flag : bool),
    (forall u, In u (VoiceRoom.users v) -> user_id u = p ->
               user_isSpeaking u = flag) ->
    let v' := VoiceRoom.on_pushes (map (UserSpeaking p) bs) v in
    map user_id (VoiceRoom.users v') = map user_id (VoiceRoom.users v) /\
    VoiceRoom.participantCount v' = VoiceRoom.participantCount v /\
    (forall u, In u (VoiceRoom.users v') -> user_id u = p ->
               user_isSpeaking u = last bs flag).
Proof.
  induction bs as [|b bs IH]; intros v flag Hv; [cbn; auto|].
  cbn [map VoiceRoom.on_pushes fold_left VoiceRoom.on_push].
  destruct (IH (VoiceRoom.on_userSpeaking p b v) b) as (H1 & H2 & H3).
  - intros u Hin Hid. cbn in Hin. apply in_map_iff in Hin.
    destruct Hin as (u0 & <- & _).
    destruct (String.eqb (user_id u0) p) eqn:E; [reflexivity|].
    apply String.eqb_neq in E. contradiction.
  - rewrite last_cons_default. split; [|split; [exact H2|exact H3]].
    unfold VoiceRoom.on_pushes in H1. rewrite H1. cbn.
    rewrite map_map. apply map_ext. intros u.
    now destruct (String.eqb (user_id u) p).
Qed.

Lemma skipn_length_app {A} (l added : list A) :
  skipn (List.length l) (l ++ added) = added.
Proof. induction l; [reflexivity|assumption]. Qed.

(** X20: the speaking flag end to end. The sender's tracker turns
    audio levels into [speaking] messages; the server relays each of
    them exactly once to every other socket of the named room; the
    page of such a socket applies them to its user list. If the page
    agreed with the tracker before, then after the run it shows the
    sender speaking exactly when the tracker's state says so, and the
    entries of the list are otherwise the same. *)
Theorem X20_speaking_flag_reaches_the_other_page
        (numWorkers : nat) (evs : list Event)
        (sA sB : SocketId) (cA : Conn) (roomId peerId : string)
        (st : Tracker.State) (levels : list float)
        (v : VoiceRoom.View) :
  let w := run host evs (Server.initial numWorkers) in
  let st' := fst (Tracker.feed roomId peerId st levels) in
  let msgs := snd (Tracker.feed roomId peerId st levels) in
  let w' := run host (speaking_requests sA msgs) w in
  let v' := VoiceRoom.on_pushes (deliveries_to sB (new_output w w')) v in
  JsMap.get sA (conns (net w)) = Some cA ->
  JsMap.get sB (joined (net w)) = Some roomId ->
  sB <> sA ->
  (forall u, In u (VoiceRoom.users v) -> user_id u = peerId ->
             user_isSpeaking u = Tracker.speaking st) ->
  deliveries_to sB (new_output w w')
  = map (fun m => UserSpeaking peerId (Tracker.msg_speaking m)) msgs /\
  map user_id (VoiceRoom.users v') = map user_id (VoiceRoom.users v) /\
  (forall u, In u (VoiceRoom.users v') -> user_id u = peerId ->
             user_isSpeaking u = Tracker.speaking st').
Proof.
  intros w st' msgs w' v' Hc Hj Hne Hv.
  destruct (feed_messages roomId peerId levels st) as [Hm Hs].
  fold msgs in Hm, Hs. fold st' in Hs.
  assert (Hreq : speaking_requests sA msgs
                 = map (fun b => request sA (Speaking roomId peerId b))
                       (map Tracker.msg_speaking msgs)).
  { unfold speaking_requests. rewrite Hm at 1. rewrite !map_map.
    reflexivity. }
  destruct (@speaking_run sA sB cA roomId peerId
              (map Tracker.msg_speaking msgs) w Hc
              (reachable_joined_nodup numWorkers evs) Hj Hne)
    as (added & Ha & Hd).
  assert (Hnew : deliveries_to sB (new_output w w')
                 = map (UserSpeaking peerId)
                       (map Tracker.msg_speaking msgs)).
  { unfold new_output, w'. rewrite Hreq, Ha, skipn_length_app. exact Hd. }
  split; [rewrite Hnew, map_map; reflexivity|].
  unfold v'. rewrite Hnew.
  destruct (@view_after_speaking peerId (map Tracker.msg_speaking msgs)
              v (Tracker.speaking st) Hv) as (H1 & _ & H3).
  split; [exact H1|]. rewrite Hs. exact H3.
Qed.

End SpeakingRelay.

(** ** Server: recordings *)

Section Recording.
Import Server Observe.
Variable host : Host.

Lemma delete_set_fresh {V} (k : Engine.ObjId) (v : V)
      (m : JsMap.t Engine.ObjId V) :
  JsMap.get k m = None -> JsMap.delete k (JsMap.set k v m) = m.
Proof.
  induction m as [|[k0 v0] m IH]; cbn.
  - intros _. destruct (eq_dec k k); [reflexivity|contradiction].
  - destruct (eq_dec k k0) as [->|Hne]; [discriminate|].
    intros Hg. cbn. destruct (eq_dec k k0); [contradiction|].
    f_equal. now apply IH.
Qed.

Lemma acks_app (s : SocketId) (a b : list Output) :
  acks_to s (a ++ b) = acks_to s a ++ acks_to s b.
Proof. apply flat_map_app. Qed.

Lemma the_room_after_mutation (c : Conn) (r : Room) (w : World) :
  the_room c (upd_room_objs (JsMap.set (conn_room c) r) w) = r.
Proof. unfold the_room. cbn. now rewrite get_set_eq. Qed.

(** An accepted [produce]: one acknowledgement after the pushes, and a
    recording registered in the room exactly for audio. *)
Lemma produce_step (sock : SocketId) (c : Conn) (t h : Engine.ObjId)
      (kind : string) (rtp : Engine.RtpParameters) (w : World) :
  JsMap.get sock (conns (net w)) = Some c ->
  JsMap.get t (transports (stores w)) = Some h ->
  Engine.rejects (media host) (Engine.Produce h kind rtp) (engine w)
  = None ->
  createWriteStream host (room_id (the_room c w)) (conn_peerId c) = None ->
  let p := Engine.next_id (engine w) in
  let w1 := step host (request sock (ProduceReq t kind rtp)) w in
  conns (net w1) = conns (net w) /\
  room_recordings (the_room c w1)
  = (if String.eqb kind "audio"
     then JsMap.set p {| rec_room := room_id (the_room c w);
                         rec_peer := conn_peerId c |}
                    (room_recordings (the_room c w))
     else room_recordings (the_room c w)) /\
  exists pre,
    out (net w1) = out (net w) ++ pre ++ [Ack sock (ProducerCreated p)] /\
    acks_to sock pre = [].
Proof.
  intros Hc Ht Hrej Hfs. cbn [step request]. rewrite Hc.
  unfold run_handler, receive, dispatch, on_produce, try_catch, bind, gets.
  rewrite Ht. unfold engine_call, Engine.produce. rewrite Hrej.
  unfold mutate_peer, modify, emit_to_room, callback. cbn [fst snd].
  destruct (String.eqb kind "audio").
  - unfold startRecording, bind, gets, mutate_room, modify.
    match goal with
    | |- context [createWriteStream host ?a ?b] =>
        replace (createWriteStream host a b) with (@None string)
          by (symmetry; exact Hfs)
    end.
    cbn. split; [reflexivity|]. split.
    + unfold the_room. cbn. now rewrite get_set_eq.
    + eexists. split; [rewrite <- app_assoc; reflexivity|].
      apply no_ack_among_pushes.
  - cbn. split; [reflexivity|]. split; [reflexivity|].
    eexists. split; [rewrite <- app_assoc; reflexivity|].
    apply no_ack_among_pushes.
Qed.

Lemma stopRecording_step (sock : SocketId) (c : Conn)
      (p : Engine.ObjId) (w : World) :
  JsMap.get sock (conns (net w)) = Some c ->
  let w1 := step host (request sock (StopRecording p)) w in
  conns (net w1) = conns (net w) /\
  (if JsMap.has p (room_recordings (the_room c w))
   then room_recordings (the_room c w1)
        = JsMap.delete p (room_recordings (the_room c w)) /\
        out (net w1) = out (net w) ++ [Ack sock Success]
   else room_recordings (the_room c w1) = room_recordings (the_room c w) /\
        out (net w1)
        = out (net w) ++ [Ack sock (ErrorPayload RecordingNotFound)]).
Proof.
  intros Hc. cbn [step request]. rewrite Hc.
  unfold run_handler, receive, dispatch, on_stopRecording, try_catch, bind,
    gets, JsMap.has.
  destruct (JsMap.get p (room_recordings (the_room c w))).
  - unfold mutate_room, modify, callback. cbn.
    split; [reflexivity|]. split; [|reflexivity].
    unfold the_room. cbn. now rewrite get_set_eq.
  - unfold callback, modify. cbn. auto.
Qed.

(** X21: the recording of a producer. After an accepted [produce] on a
    host whose file system accepts the path, a first [stopRecording]
    for the new producer succeeds exactly when the producer is audio,
    a second one is answered "Recording not found", and the room's
    recordings are as before the three requests. *)
Theorem X21_recording_is_stopped_once
        (sock : SocketId) (c : Conn) (t h : Engine.ObjId)
        (kind : string) (rtp : Engine.RtpParameters) (w : World) :
  let p := Engine.next_id (engine w) in
  let w' := run host [request sock (ProduceReq t kind rtp);
                      request sock (StopRecording p);
                      request sock (StopRecording p)] w in
  JsMap.get sock (conns (net w)) = Some c ->
  JsMap.get t (transports (stores w)) = Some h ->
  Engine.rejects (media host) (Engine.Produce h kind rtp) (engine w)
  = None ->
  createWriteStream host (room_id (the_room c w)) (conn_peerId c) = None ->
  JsMap.get p (room_recordings (the_room c w)) = None ->
  acks_to sock (new_output w w')
  = [ProducerCreated p;
     if String.eqb kind "audio" then Success
     else ErrorPayload RecordingNotFound;
     ErrorPayload RecordingNotFound] /\
  room_recordings (the_room c w') = room_recordings (the_room c w).
Proof.
  intros p w' Hc Ht Hrej Hfs Hfresh.
  unfold w', run. cbn [fold_left].
  destruct (@produce_step sock c t h kind rtp w Hc Ht Hrej Hfs)
    as (Hc1 & Hr1 & pre & Ho1 & Hpre).
  fold p in Hr1, Ho1.
  set (w1 := step host (request sock (ProduceReq t kind rtp)) w) in *.
  rewrite <- Hc1 in Hc.
  pose proof (@stopRecording_step sock c p w1 Hc) as (Hc2 & H2).
  set (w2 := step host (request sock (StopRecording p)) w1) in *.
  rewrite <- Hc2 in Hc.
  pose proof (@stopRecording_step sock c p w2 Hc) as (Hc3 & H3).
  set (w3 := step host (request sock (StopRecording p)) w2) in *.
  unfold JsMap.has in H2, H3. rewrite Hr1 in H2.
  assert (Hack : forall x, acks_to sock [Ack sock x] = [x]).
  { intros x. cbn. now rewrite String.eqb_refl. }
  destruct (String.eqb kind "audio").
  - rewrite get_set_eq in H2. destruct H2 as [Hr2 Ho2].
    rewrite Hr2, delete_set_fresh, Hfresh in H3 by exact Hfresh.
    destruct H3 as [Hr3 Ho3]. split.
    + unfold new_output. rewrite Ho3, Ho2, Ho1, <- !app_assoc.
      rewrite skipn_length_app, !acks_app, Hpre, !Hack. reflexivity.
    + exact Hr3.
  - rewrite Hfresh in H2. destruct H2 as [Hr2 Ho2].
    rewrite Hr2, Hfresh in H3. destruct H3 as [Hr3 Ho3]. split.
    + unfold new_output. rewrite Ho3, Ho2, Ho1, <- !app_assoc.
      rewrite skipn_length_app, !acks_app, Hpre, !Hack. reflexivity.
    + exact Hr3.
Qed.

End Recording.

(** ** Server: the peer table of a room *)

Section RoomList.
Import Server Observe.
Variable host : Host.

Lemma get_delete_neq {K V} `{EqDec K} (k k' : K) (m : JsMap.t K V) :
  k <> k' -> JsMap.get k' (JsMap.delete k m) = JsMap.get k' m.
Proof.
  intros Hne. induction m as [|[k0 v0] m IH]; cbn; [reflexivity|].
  destruct (eq_dec k k0) as [->|Hk]; cbn.
  - destruct (eq_dec k' k0); [congruence|reflexivity].
  - destruct (eq_dec k' k0); [reflexivity|exact IH].
Qed.

Lemma get_none_not_in {K V} `{EqDec K} (k : K) (m : JsMap.t K V) :
  ~ In k (JsMap.keys m) -> JsMap.get k m = None.
Proof.
  induction m as [|[k0 v0] m IH]; cbn; [reflexivity|].
  intros Hn. destruct (eq_dec k k0) as [->|Hk].
  - exfalso. apply Hn. now left.
  - apply IH. intros Hin. apply Hn. now right.
Qed.

Lemma get_delete_eq {K V} `{EqDec K} (k : K) (m : JsMap.t K V) :
  NoDup (JsMap.keys m) -> JsMap.get k (JsMap.delete k m) = None.
Proof.
  induction m as [|[k0 v0] m IH]; cbn; intros Hnd; [reflexivity|].
  inversion Hnd as [|? ? Hnot Hnd']; subst.
  destruct (eq_dec k k0) as [->|Hk]; cbn.
  - now apply get_none_not_in.
  - destruct (eq_dec k k0); [contradiction|]. now apply IH.
Qed.

Lemma in_delete_neq {V} (k k' : string) (v : V) (m : JsMap.t string V) :
  NoDup (JsMap.keys m) -> In (k', v) (JsMap.delete k m) -> k' <> k.
Proof.
  intros Hnd Hin ->. apply get_delete_eq with (k := k) in Hnd.
  revert Hnd Hin. generalize (JsMap.delete k m). intros l.
  induction l as [|[k0 v0] l IH]; cbn; [auto|].
  destruct (eq_dec k k0) as [->|Hk]; [discriminate|].
  intros Hg [[= -> ->]|Hin]; [contradiction|auto].
Qed.

(** A socket handler changes no room's peer table. *)
Lemma receive_keeps_room_peers (sock : SocketId) (c : Conn) (m : Message)
      (w : World) (ref : RoomRef) (room' : Room) :
  JsMap.get ref
    (room_objs (heap (run_handler sock (receive host sock c m) w)))
  = Some room' ->
  room_peers room' = [] \/
  exists room, JsMap.get ref (room_objs (heap w)) = Some room /\
               room_peers room' = room_peers room.
Proof.
  destruct m as [r|event]; [destruct r|];
    unfold run_handler, receive, dispatch,
      on_getRouterRtpCapabilities, on_joinRoom, on_speaking,
      on_createWebRtcTransport, on_connectWebRtcTransport, on_produce,
      on_consume, on_resumeConsumer, on_stopRecording,
      createWebRtcTransport, startRecording, engine_call,
      try_catch, bind, gets, throw, ret, callback, emit_to_room,
      emit_self, mutate_peer, mutate_room, modify;
    repeat match goal with
           | |- context [match ?x with _ => _ end] =>
               lazymatch x with
               | context [match _ with _ => _ end] => fail
               | _ => destruct x eqn:?
               end
           end;
    cbn; intros Hg;
    try (right; eexists; split; [exact Hg|reflexivity]);
    (destruct (eq_dec (conn_room c) ref) as [<-|Hne];
     [rewrite get_set_eq in Hg; injection Hg as <-; unfold the_room; cbn;
      destruct (JsMap.get (conn_room c) (room_objs (heap w))); cbn;
      [right; eexists; split; reflexivity|left; reflexivity]
     |rewrite get_set_neq in Hg by exact Hne; right; eauto]).
Qed.

Lemma finish_connection_sound (sock : SocketId)
      (roomId peerId clientIp : string) (ref : RoomRef) (w : World) :
  peers_sound w ->
  JsMap.get sock (conns (net w)) = None ->
  JsMap.has sock (pending (net w)) = false ->
  peers_sound (run_handler sock
                 (finish_connection sock roomId peerId clientIp ref) w).
Proof.
  intros (Hp & Hd & Hr) Hc Hpend.
  unfold run_handler, finish_connection, bind, modify, mutate_room,
    peers_sound. cbn.
  set (c0 := {| conn_roomId := roomId; conn_peerId := peerId;
                conn_clientIp := clientIp; conn_room := ref |}).
  split; [exact Hp|]. split.
  - intros s Hs. destruct (eq_dec sock s) as [<-|Hne]; [congruence|].
    rewrite get_set_neq by exact Hne. now apply Hd.
  - intros ref' room' Hg.
    assert (Hold : forall s c, JsMap.get s (conns (net w)) = Some c ->
                     JsMap.get s (JsMap.set sock c0 (conns (net w)))
                     = Some c).
    { intros s c Hs. rewrite get_set_neq; [exact Hs|].
      intros <-. congruence. }
    destruct (eq_dec ref ref') as [<-|Hne].
    + rewrite get_set_eq in Hg. injection Hg as <-. unfold the_room. cbn.
      destruct (JsMap.get ref (room_objs (heap w))) as [room|] eqn:E; cbn.
      * destruct (Hr ref room E) as [Hnd Hin].
        split; [now apply keys_set_nodup|].
        intros k s Hks. apply in_set in Hks.
        destruct Hks as [[= -> ->]|Hks].
        -- exists c0. rewrite get_set_eq. auto.
        -- destruct (Hin k s Hks) as (c & Hgc & Hk & Hrf).
           exists c. auto.
      * split; [constructor; [intros []|constructor]|].
        intros k s [[= <- <-]|[]]. exists c0. rewrite get_set_eq. auto.
    + rewrite get_set_neq in Hg by exact Hne.
      destruct (Hr ref' room' Hg) as [Hnd Hin]. split; [exact Hnd|].
      intros k s Hks. destruct (Hin k s Hks) as (c & Hgc & Hk & Hrf).
      exists c. auto.
Qed.

Lemma step_peers_sound (ev : Event) (w : World) :
  peers_sound w -> peers_sound (step host ev w).
Proof.
  intros Hw. pose proof Hw as (Hp & Hd & Hr).
  destruct ev as [sock roomId peerId ip|sock|sock m|sock]; cbn [step].
  - destruct (JsMap.has sock (conns (net w))) eqn:Hc; [exact Hw|].
    destruct (JsMap.has sock (pending (net w))) eqn:Hpe; [exact Hw|].
    cbn [orb].
    assert (Hc' : JsMap.get sock (conns (net w)) = None).
    { unfold JsMap.has in Hc.
      destruct (JsMap.get sock (conns (net w))); [discriminate|reflexivity]. }
    unfold on_connection, run_handler, bind, gets.
    destruct (JsMap.get roomId (rooms (stores w))) as [room|].
    + apply finish_connection_sound; [exact Hw|exact Hc'|exact Hpe].
    + unfold createRoom_call, bind, gets, throw, modify.
      destruct (Nat.eqb (workers (stores w)) 0); [exact Hw|].
      destruct (Engine.createRouter (media host) (engine w)) as [res e'].
      unfold peers_sound. cbn.
      split; [now apply keys_set_nodup|]. split; [|exact Hr].
      intros s Hs. destruct (eq_dec sock s) as [<-|Hne]; [exact Hc'|].
      apply Hd. unfold JsMap.has in Hs |- *.
      now rewrite get_set_neq in Hs by exact Hne.
  - destruct (JsMap.get sock (pending (net w))) as [p|] eqn:Hpe;
      [|exact Hw].
    assert (Hc' : JsMap.get sock (conns (net w)) = None).
    { apply Hd. unfold JsMap.has. now rewrite Hpe. }
    assert (Hgone : JsMap.has sock (JsMap.delete sock (pending (net w)))
                    = false).
    { unfold JsMap.has. now rewrite get_delete_eq. }
    assert (Hd' : forall s,
              JsMap.has s (JsMap.delete sock (pending (net w))) = true ->
              JsMap.get s (conns (net w)) = None).
    { intros s Hs. destruct (eq_dec sock s) as [<-|Hne]; [congruence|].
      apply Hd. unfold JsMap.has in Hs |- *.
      now rewrite get_delete_neq in Hs by exact Hne. }
    unfold on_router_ready, createRoom_resume, run_handler.
    destruct (pend_router p) as [msg|router].
    + unfold peers_sound. cbn.
      split; [now apply keys_delete_nodup|]. split; [exact Hd'|exact Hr].
    + unfold bind at 1. unfold bind at 1. unfold gets at 1.
      unfold bind at 1. unfold modify at 1.
      unfold bind at 1. unfold modify at 1. unfold ret. cbn [fst snd].
      apply finish_connection_sound; [|exact Hc'|exact Hgone].
      unfold peers_sound. cbn.
      split; [now apply keys_delete_nodup|]. split; [exact Hd'|].
      intros ref' room' Hg.
      match type of Hg with
      | JsMap.get _ (JsMap.set ?r _ _) = _ =>
          destruct (eq_dec r ref') as [<-|Hne]
      end.
      * rewrite get_set_eq in Hg. injection Hg as <-. cbn.
        split; [constructor|intros k s []].
      * rewrite get_set_neq in Hg by exact Hne. now apply Hr.
  - destruct (JsMap.get sock (conns (net w))) as [c|]; [|exact Hw].
    destruct (receive_keeps_tables host sock c m w) as (Hc & Hpe & _).
    unfold peers_sound.
    split; [now rewrite Hpe|]. split; [now rewrite Hpe, Hc|].
    intros ref room' Hg. rewrite Hc.
    destruct (receive_keeps_room_peers _ _ _ _ _ Hg)
      as [E|(room & Hg0 & E)]; rewrite E.
    + split; [constructor|intros k s []].
    + now apply Hr.
  - destruct (JsMap.get sock (conns (net w))) as [c|] eqn:Hc; [|exact Hw].
    assert (Hrest : forall s c', s <> sock ->
              JsMap.get s (conns (net w)) = Some c' ->
              JsMap.get s (JsMap.delete sock (conns (net w))) = Some c').
    { intros s c' Hne Hs. rewrite get_delete_neq; [exact Hs|congruence]. }
    assert (Hsound :
      NoDup (JsMap.keys (pending (net w))) /\
      (forall s, JsMap.has s (pending (net w)) = true ->
                 JsMap.get s (JsMap.delete sock (conns (net w))) = None) /\
      (forall ref room,
         JsMap.get ref
           (JsMap.set (conn_room c)
              (upd_room_peers (JsMap.delete (conn_peerId c))
                              (the_room c w))
              (room_objs (heap w))) = Some room ->
         NoDup (JsMap.keys (room_peers room)) /\
         forall k s,
           In (k, s) (room_peers room) ->
           exists c', JsMap.get s (JsMap.delete sock (conns (net w)))
                      = Some c' /\
                      conn_peerId c' = k /\ conn_room c' = ref)).
    { split; [exact Hp|]. split.
      - intros s Hs. destruct (eq_dec sock s) as [<-|Hne].
        + rewrite (Hd _ Hs) in Hc. discriminate.
        + rewrite get_delete_neq by exact Hne. now apply Hd.
      - intros ref room Hg.
        destruct (eq_dec (conn_room c) ref) as [<-|Hne].
        + rewrite get_set_eq in Hg. injection Hg as <-.
          unfold the_room. cbn.
          destruct (JsMap.get (conn_room c) (room_objs (heap w)))
            as [room|] eqn:E; cbn; [|split; [constructor|intros k s []]].
          destruct (Hr _ _ E) as [Hnd Hin].
          split; [now apply keys_delete_nodup|].
          intros k s Hks.
          pose proof (in_delete_neq _ _ Hnd Hks) as Hk.
          apply in_delete in Hks.
          destruct (Hin k s Hks) as (c' & Hgc & Hk' & Hrf).
          exists c'. split; [|auto]. apply Hrest; [|exact Hgc].
          intros ->. rewrite Hc in Hgc. injection Hgc as <-. congruence.
        + rewrite get_set_neq in Hg by exact Hne.
          destruct (Hr _ _ Hg) as [Hnd Hin]. split; [exact Hnd|].
          intros k s Hks.
          destruct (Hin k s Hks) as (c' & Hgc & Hk' & Hrf).
          exists c'. split; [|auto]. apply Hrest; [|exact Hgc].
          intros ->. rewrite Hc in Hgc. injection Hgc as <-. congruence. }
    unfold run_handler, on_disconnect, bind, gets, modify, emit_to_room,
      mutate_room, peers_sound; cbn.
    match goal with |- context [Nat.eqb ?a 0] => destruct (Nat.eqb a 0) end;
      cbn; exact Hsound.
Qed.

Lemma reachable_peers_sound (numWorkers : nat) (evs : list Event) :
  peers_sound (run host evs (Server.initial numWorkers)).
Proof.
  unfold run.
  assert (H0 : peers_sound (Server.initial numWorkers)).
  { split; [constructor|]. split; [discriminate|]. intros ref room [=]. }
  revert H0. generalize (Server.initial numWorkers).
  induction evs as [|ev evs IH]; intros w Hw; [exact Hw|].
  cbn. apply IH. now apply step_peers_sound.
Qed.

Lemma step_rooms_nodup (ev : Event) (w : World) :
  NoDup (JsMap.keys (rooms (stores w))) ->
  NoDup (JsMap.keys (rooms (stores (step host ev w)))).
Proof.
  intros Hw.
  destruct ev as [sock roomId peerId ip|sock|sock m|sock]; cbn [step].
  - destruct (_ || _); [exact Hw|].
    unfold on_connection, run_handler, bind, gets.
    destruct (JsMap.get roomId (rooms (stores w))) as [room|].
    + unfold finish_connection, bind, modify, mutate_room. cbn. exact Hw.
    + unfold createRoom_call, bind, gets, throw, modify.
      destruct (Nat.eqb (workers (stores w)) 0); [exact Hw|].
      destruct (Engine.createRouter _ _); exact Hw.
  - destruct (JsMap.get sock (pending (net w))) as [p|]; [|exact Hw].
    unfold on_router_ready, createRoom_resume, run_handler.
    destruct (pend_router p) as [msg|router]; [exact Hw|].
    unfold finish_connection, bind, gets, modify, mutate_room, ret. cbn.
    now apply keys_set_nodup.
  - destruct (JsMap.get sock (conns (net w))) as [c|]; [|exact Hw].
    destruct (receive_keeps_tables host sock c m w) as (_ & _ & _ & _ & ->).
    exact Hw.
  - destruct (JsMap.get sock (conns (net w))) as [c|]; [|exact Hw].
    unfold run_handler, on_disconnect, bind, gets, modify, emit_to_room,
      mutate_room; cbn.
    match goal with |- context [Nat.eqb ?a 0] => destruct (Nat.eqb a 0) end;
      cbn; [now apply keys_delete_nodup|exact Hw].
Qed.

Lemma reachable_rooms_nodup (numWorkers : nat) (evs : list Event) :
  NoDup (JsMap.keys
           (rooms (stores (run host evs (Server.initial numWorkers))))).
Proof.
  unfold run.
  assert (H0 : NoDup (JsMap.keys
                        (rooms (stores (Server.initial numWorkers)))))
    by constructor.
  revert H0. generalize (Server.initial numWorkers).
  induction evs as [|ev evs IH]; intros w Hw; [exact Hw|].
  cbn. apply IH. now apply step_rooms_nodup.
Qed.

(** X22: what [GET /rooms/:roomId] reports. In every state the server
    reaches, the peer count is the length of the peer list, no id is
    listed twice, and every listed id is the handshake peer id of a
    socket whose handlers are registered and hold the room object that
    [rooms] has for the id. *)
Theorem X22_room_listing_names_connected_peers
        (numWorkers : nat) (evs : list Event) (roomId : string) :
  let w := run host evs (Server.initial numWorkers) in
  match get_room_data roomId w with
  | None => True
  | Some (count, ids, _) =>
      count = List.length ids /\ NoDup ids /\
      forall k, In k ids ->
        exists sock c,
          JsMap.get sock (conns (net w)) = Some c /\
          conn_peerId c = k /\
          JsMap.get roomId (rooms (stores w)) = Some (conn_room c)
  end.
Proof.
  cbv zeta.
  destruct (reachable_peers_sound numWorkers evs) as (_ & _ & Hr).
  unfold get_room_data.
  destruct (JsMap.get roomId (rooms (stores _))) as [ref|]; [|exact I].
  destruct (JsMap.get ref (room_objs (heap _))) as [room|] eqn:E; [|exact I].
  destruct (Hr ref room E) as [Hnd Hin].
  split; [unfold JsMap.size, JsMap.keys; now rewrite length_map|].
  split; [exact Hnd|].
  intros k Hk. unfold JsMap.keys in Hk. apply in_map_iff in Hk.
  destruct Hk as ([k' s] & <- & Hks).
  destruct (Hin k' s Hks) as (c & Hc & Hk' & Hrf).
  exists s, c. rewrite Hrf. auto.
Qed.

(** X23: two sockets of one room with the same handshake peer id, as
    after a reconnect. When the first disconnects, the second stays
    registered but its peer id is gone from the room's peer table;
    every other socket joined to the room, the second included, is
    told [userLeft] for that id; and when no other peer id is listed
    the room is dropped from [rooms], so [GET /rooms/:roomId] answers
    404 while the second socket is still connected. *)
Theorem X23_namesake_disconnect_hides_connected_peer
        (numWorkers : nat) (evs : list Event)
        (s1 s2 : SocketId) (c1 c2 : Conn) :
  let w := run host evs (Server.initial numWorkers) in
  let w' := step host (Disconnect s1) w in
  s1 <> s2 ->
  JsMap.get s1 (conns (net w)) = Some c1 ->
  JsMap.get s2 (conns (net w)) = Some c2 ->
  conn_room c1 = conn_room c2 ->
  conn_peerId c1 = conn_peerId c2 ->
  JsMap.get s2 (conns (net w')) = Some c2 /\
  JsMap.has (conn_peerId c2) (room_peers (the_room c2 w')) = false /\
  (forall sB, sB <> s1 ->
     JsMap.get sB (joined (net w)) = Some (conn_roomId c1) ->
     In (Deliver sB (UserLeft (conn_peerId c2))) (new_output w w')) /\
  ((forall k, In k (JsMap.keys (room_peers (the_room c1 w))) ->
               k = conn_peerId c1) ->
   get_room_data (conn_roomId c1) w' = None).
Proof.
  intros w w' Hne H1 H2 Hroom Hpeer.
  destruct (reachable_peers_sound numWorkers evs) as (_ & _ & Hr).
  pose proof (reachable_rooms_nodup numWorkers evs) as Hrooms.
  fold w in Hr, Hrooms.
  assert (Hnd : NoDup (JsMap.keys (room_peers (the_room c1 w)))).
  { unfold the_room.
    destruct (JsMap.get (conn_room c1) (room_objs (heap w))) eqn:E;
      [apply (Hr _ _ E)|constructor]. }
  unfold w'. cbn [step]. rewrite H1.
  unfold run_handler, on_disconnect, bind, gets, modify, emit_to_room,
    mutate_room; cbn.
  set (left_peers := JsMap.delete (conn_peerId c1)
                                  (room_peers (the_room c1 w))) in *.
  assert (Hgone : JsMap.has (conn_peerId c2) left_peers = false).
  { unfold JsMap.has, left_peers. rewrite <- Hpeer.
    now rewrite get_delete_eq. }
  assert (Hout : forall sB, sB <> s1 ->
            JsMap.get sB (joined (net w)) = Some (conn_roomId c1) ->
            In sB (recipients s1 (conn_roomId c1)
                              (upd_joined (JsMap.delete s1) w))).
  { intros sB HsB Hj. unfold recipients. cbn.
    apply in_map_iff. exists (sB, conn_roomId c1). split; [reflexivity|].
    apply filter_In. split.
    - apply get_in. rewrite get_delete_neq; [exact Hj|congruence].
    - cbn. rewrite String.eqb_refl.
      apply String.eqb_neq in HsB. now rewrite HsB. }
  match goal with |- context [Nat.eqb ?a 0] => destruct (Nat.eqb a 0) eqn:Hz end;
    cbn.
  - split; [rewrite get_delete_neq by exact Hne; exact H2|].
    split; [unfold the_room; cbn; rewrite <- Hroom, get_set_eq; exact Hgone|].
    split.
    + intros sB HsB Hj. unfold new_output. cbn.
      rewrite <- !app_assoc, skipn_length_app. apply in_or_app. right.
      apply in_map_iff. exists sB. split; [now rewrite Hpeer|].
      now apply Hout.
    + intros _. unfold get_room_data. cbn.
      now rewrite get_delete_eq.
  - split; [rewrite get_delete_neq by exact Hne; exact H2|].
    split; [unfold the_room; cbn; rewrite <- Hroom, get_set_eq; exact Hgone|].
    split.
    + intros sB HsB Hj. unfold new_output. cbn.
      rewrite <- !app_assoc, skipn_length_app. apply in_or_app. right.
      apply in_map_iff. exists sB. split; [now rewrite Hpeer|].
      now apply Hout.
    + intros Honly. exfalso.
      assert (Hempty : left_peers = []).
      { unfold left_peers.
        destruct (JsMap.delete (conn_peerId c1)
                               (room_peers (the_room c1 w)))
          as [|[k s] rest] eqn:E; [reflexivity|].
        assert (Hin : In (k, s)
                        (JsMap.delete (conn_peerId c1)
                                      (room_peers (the_room c1 w))))
          by (rewrite E; now left).
        pose proof (in_delete_neq _ _ Hnd Hin) as Hk.
        apply in_delete in Hin. exfalso. apply Hk, Honly.
        unfold JsMap.keys. apply in_map_iff. now exists (k, s). }
      unfold the_room in Hz. cbn in Hz. rewrite get_set_eq in Hz.
      assert (Hz' : Nat.eqb (JsMap.size left_peers) 0 = false) by exact Hz.
      rewrite Hempty in Hz'. discriminate Hz'.
Qed.

End RoomList.

(** ** Server: what a disconnect closes *)

Section DisconnectCloses.
Import Server Observe.
Variable host : Host.

Lemma in_map_values {K V} (f : V -> V) (k : K) (v : V) (m : JsMap.t K V) :
  In (k, v) (JsMap.map_values f m) ->
  exists v0, In (k, v0) m /\ v = f v0.
Proof.
  unfold JsMap.map_values. intros Hin. apply in_map_iff in Hin.
  destruct Hin as ([k0 v0] & [= <- <-] & Hin). now exists v0.
Qed.

(** Whether a producer sits on a transport does not change when
    transports are closed. *)
Lemma producer_on_close (t t' pid : Engine.ObjId) (e : Engine.State) :
  Engine.producer_on t (Engine.producers (Engine.close t' e)) pid
  = Engine.producer_on t (Engine.producers e) pid.
Proof.
  unfold Engine.producer_on. cbn. rewrite get_map_values.
  destruct (JsMap.get pid (Engine.producers e)) as [p|]; cbn;
    [|reflexivity].
  now destruct (Nat.eqb (Engine.producer_transport p) t').
Qed.

Lemma close_closes (t : Engine.ObjId) (e : Engine.State) :
  closed_on t (Engine.close t e).
Proof.
  repeat split; intros k x Hin Hx.
  - cbn in Hin. apply in_map_values in Hin.
    destruct Hin as (x0 & _ & ->).
    destruct (Nat.eqb (Engine.transport_id x0) t) eqn:E; [reflexivity|].
    cbn in Hx. apply Nat.eqb_neq in E. contradiction.
  - cbn in Hin. apply in_map_values in Hin.
    destruct Hin as (x0 & _ & ->).
    destruct (Nat.eqb (Engine.producer_transport x0) t) eqn:E;
      [reflexivity|].
    apply Nat.eqb_neq in E. contradiction.
  - cbn in Hin. apply in_map_values in Hin.
    destruct Hin as (x0 & _ & ->).
    destruct (Nat.eqb (Engine.consumer_transport x0) t
              || Engine.producer_on t (Engine.producers e)
                                    (Engine.consumer_producerId x0)) eqn:E;
      [reflexivity|].
    apply orb_false_elim in E. destruct E as [E _].
    apply Nat.eqb_neq in E. contradiction.
  - rewrite producer_on_close in Hx.
    cbn in Hin. apply in_map_values in Hin.
    destruct Hin as (x0 & _ & ->).
    destruct (Nat.eqb (Engine.consumer_transport x0) t
              || Engine.producer_on t (Engine.producers e)
                                    (Engine.consumer_producerId x0)) eqn:E;
      [reflexivity|].
    apply orb_false_elim in E. destruct E as [_ E]. congruence.
Qed.

Lemma close_keeps_closed (t t' : Engine.ObjId) (e : Engine.State) :
  closed_on t e -> closed_on t (Engine.close t' e).
Proof.
  intros (H1 & H2 & H3 & H4). repeat split; intros k x Hin Hx.
  - cbn in Hin. apply in_map_values in Hin.
    destruct Hin as (x0 & Hin & ->).
    destruct (Nat.eqb (Engine.transport_id x0) t'); [reflexivity|].
    now apply (H1 k).
  - cbn in Hin. apply in_map_values in Hin.
    destruct Hin as (x0 & Hin & ->).
    destruct (Nat.eqb (Engine.producer_transport x0) t'); [reflexivity|].
    now apply (H2 k).
  - cbn in Hin. apply in_map_values in Hin.
    destruct Hin as (x0 & Hin & ->).
    destruct (_ || _); [reflexivity|]. now apply (H3 k).
  - rewrite producer_on_close in Hx.
    cbn in Hin. apply in_map_values in Hin.
    destruct Hin as (x0 & Hin & ->).
    destruct (_ || _) eqn:E; [reflexivity|]. apply (H4 k); [exact Hin|].
    exact Hx.
Qed.

Lemma close_all_closes (l : list Engine.ObjId) (t : Engine.ObjId) :
  forall e, In t l \/ closed_on t e ->
            closed_on t (fold_left (fun e t => Engine.close t e) l e).
Proof.
  induction l as [|t0 l IH]; intros e [Hin|Hc]; cbn.
  - destruct Hin.
  - exact Hc.
  - apply IH. destruct Hin as [->|Hin]; [right; apply close_closes|now left].
  - apply IH. right. now apply close_keeps_closed.
Qed.

Lemma producer_on_close_all (l : list Engine.ObjId)
      (t pid : Engine.ObjId) :
  forall e,
    Engine.producer_on t
      (Engine.producers (fold_left (fun e t => Engine.close t e) l e)) pid
    = Engine.producer_on t (Engine.producers e) pid.
Proof.
  induction l as [|t0 l IH]; intros e; cbn; [reflexivity|].
  rewrite IH. apply producer_on_close.
Qed.

(** X24: the disconnect handler closes every transport of the peer,
    not only the first: for each transport of the peer, that transport,
    the producers and consumers on it and the consumers of those
    producers are closed in the engine afterwards, and the producers
    stay attached to their transports. *)
Theorem X24_disconnect_closes_the_peers_media
        (sock : SocketId) (c : Conn) (t : Engine.ObjId) (w : World) :
  let w' := step host (Disconnect sock) w in
  JsMap.get sock (conns (net w)) = Some c ->
  In t (JsMap.values (peer_transports (the_peer sock c w))) ->
  closed_on t (engine w') /\
  (forall pid,
     Engine.producer_on t (Engine.producers (engine w')) pid
     = Engine.producer_on t (Engine.producers (engine w)) pid).
Proof.
  intros w' Hc Hin. unfold w'. cbn [step]. rewrite Hc.
  unfold run_handler, on_disconnect, bind, gets, modify, emit_to_room,
    mutate_room; cbn.
  match goal with |- context [Nat.eqb ?a 0] => destruct (Nat.eqb a 0) end;
    cbn; (split; [apply close_all_closes; left; exact Hin|]);
    intros pid; apply producer_on_close_all.
Qed.

End DisconnectCloses.

(** ** Server: a consumer whose producer has left *)

Section ProducerLeaves.
Import Server Observe.
Variable host : Host.




End ProducerLeaves.

(** ** Server: the media stores never shrink *)

Section HandlesKept.
Import Server Observe.
Variable host : Host.

Lemma in_keys_set_gen {K V} `{EqDec K} (k x : K) (v : V) (m : JsMap.t K V) :
  In x (JsMap.keys (JsMap.set k v m)) -> x = k \/ In x (JsMap.keys m).
Proof.
  unfold JsMap.keys. induction m as [|[k0 v0] m IH]; cbn.
  - intros [<-|[]]. now left.
  - destruct (eq_dec k k0) as [->|Hne]; cbn.
    + intros [<-|Hx]; auto.
    + intros [<-|Hx]; auto. destruct (IH Hx); auto.
Qed.

Lemma size_set_fresh {K V} `{EqDec K} (k : K) (v : V) (m : JsMap.t K V) :
  JsMap.get k m = None -> JsMap.size (JsMap.set k v m) = S (JsMap.size m).
Proof.
  unfold JsMap.size. induction m as [|[k0 v0] m IH]; cbn; [reflexivity|].
  destruct (eq_dec k k0); [discriminate|]. intros Hg. cbn.
  now rewrite IH.
Qed.

Lemma fresh_above {V} (n : nat) (m : JsMap.t nat V) :
  (forall k, In k (JsMap.keys m) -> k < n) -> JsMap.get n m = None.
Proof.
  intros Hb. apply get_none_not_in. intros Hin. apply Hb in Hin. lia.
Qed.

Lemma acked_app (kind : Payload -> bool) (a b : list Output) :
  acked kind (a ++ b) = acked kind a + acked kind b.
Proof. unfold acked. now rewrite filter_app, length_app. Qed.

Lemma acked_pushes (kind : Payload -> bool) (ev : Push)
      (l : list SocketId) :
  acked kind (map (fun s => Deliver s ev) l) = 0.
Proof. unfold acked. induction l; cbn; auto. Qed.

Lemma next_id_close_all (l : list Engine.ObjId) :
  forall e, Engine.next_id (fold_left (fun e t => Engine.close t e) l e)
            = Engine.next_id e.
Proof. induction l as [|t l IH]; intros e; cbn; [reflexivity|]. now rewrite IH. Qed.

Lemma receive_handles_kept (sock : SocketId) (c : Conn) (m : Message)
      (w : World) :
  handles_kept w ->
  handles_kept (run_handler sock (receive host sock c m) w).
Proof.
  intros ((HT & HP & HC) & HbT & HbP & HbC).
  pose proof (fresh_above _ HbT) as HfT.
  pose proof (fresh_above _ HbP) as HfP.
  pose proof (fresh_above _ HbC) as HfC.
  destruct m as [r|event]; [destruct r|];
    unfold handles_kept, run_handler, receive, dispatch,
      on_getRouterRtpCapabilities, on_joinRoom, on_speaking,
      on_createWebRtcTransport, on_connectWebRtcTransport, on_produce,
      on_consume, on_resumeConsumer, on_stopRecording,
      createWebRtcTransport, startRecording, engine_call,
      Engine.createWebRtcTransport, Engine.connect, Engine.produce,
      Engine.consume, Engine.resume,
      try_catch, bind, gets, throw, ret, callback, emit_to_room,
      emit_self, mutate_peer, mutate_room, modify;
    repeat match goal with
           | |- context [match ?x with _ => _ end] =>
               lazymatch x with
               | context [match _ with _ => _ end] => fail
               | _ => destruct x eqn:?
               end
           end;
    cbn -[acked JsMap.size JsMap.keys];
    rewrite ?acked_app, ?acked_pushes;
    rewrite ?size_set_fresh by assumption;
    (split; [unfold acked in *; cbn -[JsMap.size]; lia|]);
    (split; [|split]); intros k Hk;
    repeat match goal with
           | H : In _ (JsMap.keys (JsMap.set _ _ _)) |- _ =>
               apply in_keys_set_gen in H; destruct H as [->|H]
           end;
    try (apply HbT in Hk); try (apply HbP in Hk); try (apply HbC in Hk);
    lia.
Qed.

Lemma step_handles_kept (ev : Event) (w : World) :
  handles_kept w -> handles_kept (step host ev w).
Proof.
  intros Hw. pose proof Hw as ((HT & HP & HC) & HbT & HbP & HbC).
  destruct ev as [sock roomId peerId ip|sock|sock m|sock]; cbn [step].
  - destruct (_ || _); [exact Hw|].
    unfold on_connection, run_handler, bind, gets.
    destruct (JsMap.get roomId (rooms (stores w))) as [room|].
    + unfold finish_connection, bind, modify, mutate_room. cbn. exact Hw.
    + unfold createRoom_call, bind, gets, throw, modify.
      destruct (Nat.eqb (workers (stores w)) 0).
      * unfold handles_kept. cbn -[acked JsMap.size JsMap.keys].
        rewrite !acked_app. cbn -[JsMap.size JsMap.keys].
        rewrite !Nat.add_0_r. exact Hw.
      * unfold Engine.createRouter.
        destruct (Engine.rejects _ _ _); [exact Hw|].
        unfold handles_kept. cbn -[acked JsMap.size JsMap.keys].
        split; [auto|].
        split; [|split]; intros k Hk;
          [apply HbT in Hk|apply HbP in Hk|apply HbC in Hk]; lia.
  - destruct (JsMap.get sock (pending (net w))) as [p|]; [|exact Hw].
    unfold on_router_ready, createRoom_resume, run_handler.
    destruct (pend_router p) as [msg|router].
    + unfold handles_kept, throw, bind. cbn -[acked JsMap.size JsMap.keys].
      rewrite !acked_app. cbn -[JsMap.size JsMap.keys].
      rewrite !Nat.add_0_r. exact Hw.
    + unfold finish_connection, bind, gets, modify, mutate_room, ret. cbn.
      exact Hw.
  - destruct (JsMap.get sock (conns (net w))) as [c|]; [|exact Hw].
    now apply receive_handles_kept.
  - destruct (JsMap.get sock (conns (net w))) as [c|]; [|exact Hw].
    unfold run_handler, on_disconnect, bind, gets, modify, emit_to_room,
      mutate_room, handles_kept.
    cbn -[acked JsMap.size JsMap.keys].
    match goal with |- context [Nat.eqb ?a 0] => destruct (Nat.eqb a 0) end;
      cbn -[acked JsMap.size JsMap.keys];
      rewrite !acked_app, !acked_pushes, !Nat.add_0_r, next_id_close_all;
      exact Hw.
Qed.

(** X25: no handle is ever dropped. In every state the server reaches,
    whatever connects, disconnects and requests came before, the
    global [transports], [producers] and [consumers] stores hold
    exactly as many handles as creations of that kind the server has
    acknowledged. *)
Theorem X25_one_handle_per_acknowledged_creation
        (numWorkers : nat) (evs : list Event) :
  let w := run host evs (Server.initial numWorkers) in
  JsMap.size (transports (stores w)) = acked is_transport (out (net w)) /\
  JsMap.size (producers (stores w)) = acked is_producer (out (net w)) /\
  JsMap.size (consumers (stores w)) = acked is_consumer (out (net w)).
Proof.
  cbv zeta. unfold run.
  assert (H0 : handles_kept (Server.initial numWorkers)).
  { split; [repeat split|]. repeat split; intros k []. }
  revert H0. generalize (Server.initial numWorkers).
  induction evs as [|ev evs IH]; intros w Hw; [exact (proj1 Hw)|].
  cbn. apply IH. now apply step_handles_kept.
Qed.

End HandlesKept.

(** ** Server: joining the user list *)

Section JoinRoom.
Import Server Observe.
Variable host : Host.

Lemma no_delivery_to_sender (sock roomId : string) (ev : Push) (w : World) :
  deliveries_to sock
    (map (fun s => Deliver s ev) (recipients sock roomId w)) = [].
Proof.
  unfold recipients. induction (joined (net w)) as [|[k r] j IH];
    [reflexivity|].
  cbn. destruct (String.eqb r roomId); cbn; [|exact IH].
  destruct (String.eqb k sock) eqn:E; cbn; [exact IH|].
  now rewrite E.
Qed.

(** X26: [joinRoom] is not acknowledged; the sender receives exactly
    one push, the [users] list. In every state the server reaches,
    every user of that list carries the handshake peer id of a socket
    that is registered for the sender's room object, and the sender's
    own entry, as just stored, is in the list whenever the user id is in
    the room's peer table. *)
Theorem X26_joinRoom_lists_connected_peers
        (numWorkers : nat) (evs : list Event) (sock : SocketId) (c : Conn)
        (userId username roomId : string) :
  let w := run host evs (Server.initial numWorkers) in
  let w' := step host (request sock (JoinRoom userId username roomId)) w in
  JsMap.get sock (conns (net w)) = Some c ->
  exists roomUsers,
    deliveries_to sock (new_output w w') = [Users roomUsers] /\
    acks_to sock (new_output w w') = [] /\
    (forall u, In u roomUsers ->
       exists s c', JsMap.get s (conns (net w)) = Some c' /\
                    conn_peerId c' = user_id u /\
                    conn_room c' = conn_room c) /\
    (JsMap.has userId (room_peers (the_room c w)) = true ->
     In {| user_id := userId; user_name := username;
           user_isSpeaking := false |} roomUsers).
Proof.
  intros w w' Hc.
  destruct (reachable_peers_sound host numWorkers evs) as (_ & _ & Hr).
  destruct (registered_handler_has_its_objects host numWorkers evs sock Hc)
    as [Hroom _].
  fold w in Hr, Hroom.
  unfold w'. cbn [step request]. rewrite Hc.
  unfold run_handler, receive, dispatch, on_joinRoom, bind, gets, modify,
    emit_to_room, emit_self. cbn.
  exists (filter (fun u => JsMap.has (user_id u)
                             (room_peers (the_room c w)))
            (JsMap.values
               (JsMap.set userId
                  {| user_id := userId; user_name := username;
                     user_isSpeaking := false |}
                  (users (stores w))))).
  split; [|split; [|split]].
  - unfold new_output. cbn. rewrite <- app_assoc, skipn_length_app.
    rewrite deliveries_app, no_delivery_to_sender. cbn.
    rewrite String.eqb_refl. reflexivity.
  - unfold new_output. cbn. rewrite <- app_assoc, skipn_length_app.
    rewrite acks_app.
    rewrite (proj1 (no_ack_among_pushes sock _ _)). reflexivity.
  - intros u Hu. apply filter_In in Hu. destruct Hu as [_ Hu].
    unfold JsMap.has in Hu.
    destruct (JsMap.get (user_id u) (room_peers (the_room c w)))
      as [s|] eqn:E; [|discriminate].
    apply get_in in E.
    destruct (Hr _ _ Hroom) as [_ Hin].
    destruct (Hin _ _ E) as (c' & Hc' & Hk & Hrf).
    exists s, c'. auto.
  - intros Hhas. apply filter_In. split; [|exact Hhas].
    unfold JsMap.values. apply in_map_iff.
    exists (userId, {| user_id := userId; user_name := username;
                       user_isSpeaking := false |}).
    split; [reflexivity|]. apply get_in, get_set_eq.
Qed.

End JoinRoom.

(** ** Instances *)

Lemma X12_witness :
  "bob" <> "alice" /\
  let st :=
    fst (Client.run
           [ Client.CallConnect
               [CapFetch.Ack 5 (CapFetch.Capabilities "caps")] true
               (Client.TransportParams 1) (Client.TransportParams 2);
             Client.PushNewProducer "bob" 7 "audio";
             Client.ConsumeResponse
               (Server.ConsumerCreated 9 7 "audio" "rtp") (Some true) ]
           (Client.make "r1" "alice" "caps")) in
  Client.getConsumerCount st = 1 /\
  Client.on_peerDisconnected "bob" st = (st, []).
Proof.
  split; [discriminate|]. cbv zeta. split; [reflexivity|].
  apply (@X12_peerDisconnected_removes_nothing "r1" "alice" "caps"
           [ Client.CallConnect
               [CapFetch.Ack 5 (CapFetch.Capabilities "caps")] true
               (Client.TransportParams 1) (Client.TransportParams 2);
             Client.PushNewProducer "bob" 7 "audio";
             Client.ConsumeResponse
               (Server.ConsumerCreated 9 7 "audio" "rtp") (Some true) ]
           "bob").
  discriminate.
Defined.

Lemma X16_witness :
  let result :=
    Client.connect [CapFetch.Ack 5 (CapFetch.Capabilities "caps")] true
                   (Client.TransportParams 1)
                   (Client.TransportError "no transport")
                   (Client.make "r1" "alice" "caps") in
  fst (fst result) = Some false /\
  Client.sendTransport (snd (fst result)) = Some 1 /\
  Client.produce Client.Track (Some 3) true (snd (fst result))
  = (false, snd (fst result), []) /\
  Client.consume 7 (snd (fst result)) = (snd (fst result), []).
Proof.
  cbv zeta. split; [reflexivity|]. split; [reflexivity|].
  apply (@X16_failed_connect_blocks_media "r1" "alice" "caps"
           [CapFetch.Ack 5 (CapFetch.Capabilities "caps")] true
           (Client.TransportParams 1) (Client.TransportError "no transport")
           Client.Track (Some 3) true 7).
  discriminate.
Defined.

Lemma X17_witness :
  Client.connect
    [CapFetch.Ack 100 (CapFetch.ErrorResponse "boom"); CapFetch.Silent]
    true (Client.TransportParams 1) (Client.TransportParams 2)
    (Client.make "r1" "alice" "caps")
  = (None, Client.make "r1" "alice" "caps",
     [Client.Emit Server.GetRouterRtpCapabilities;
      Client.Emit Server.GetRouterRtpCapabilities]).
Proof.
  apply (@X17_connect_hangs_with_the_fetch 100 "boom" true
           (Client.TransportParams 1) (Client.TransportParams 2)
           (Client.make "r1" "alice" "caps"));
    [reflexivity | discriminate].
Defined.

Lemma X18_witness :
  exists room,
    JsMap.get 0 (Server.room_objs
                   (Server.heap (Server.run Server.permissive_host
                                   Scenario.session (Server.initial 1))))
    = Some room /\
    Server.step Server.permissive_host
      (Server.Incoming "sA" (Server.NullPayload "getRouterRtpCapabilities"))
      (Server.run Server.permissive_host Scenario.session
                  (Server.initial 1))
    = Server.log
        [Server.Ack "sA"
           (Server.RouterCapabilities (Server.room_router room))]
        (Server.run Server.permissive_host Scenario.session
                    (Server.initial 1)).
Proof.
  apply (@X18_capabilities_request_never_fails Server.permissive_host 1
           Scenario.session "sA"
           {| Server.conn_roomId := "r1"; Server.conn_peerId := "alice";
              Server.conn_clientIp := "10.0.0.1"; Server.conn_room := 0 |}
           true).
  vm_compute. reflexivity.
Defined.

Lemma X20_witness :
  Server.deliveries_to "sB"
    (Observe.new_output
       (Server.run Server.permissive_host Scenario.session
                   (Server.initial 1))
       (Server.run Server.permissive_host
          (Observe.speaking_requests "sA"
             (snd (Tracker.feed "r1" "alice" Tracker.initial
                     [(-60)%float; (-20)%float; (-45)%float; (-70)%float])))
          (Server.run Server.permissive_host Scenario.session
                      (Server.initial 1))))
  = [Server.UserSpeaking "alice" true; Server.UserSpeaking "alice" false].
Proof.
  refine (proj1
    (@X20_speaking_flag_reaches_the_other_page Server.permissive_host 1
       Scenario.session "sA" "sB"
       {| Server.conn_roomId := "r1"; Server.conn_peerId := "alice";
          Server.conn_clientIp := "10.0.0.1"; Server.conn_room := 0 |}
       "r1" "alice" Tracker.initial
       [(-60)%float; (-20)%float; (-45)%float; (-70)%float]
       {| VoiceRoom.users :=
            [ {| Server.user_id := "alice"; Server.user_name := "Alice";
                 Server.user_isSpeaking := false |} ];
          VoiceRoom.participantCount := 1 |}
       _ _ _ _)).
  - vm_compute. reflexivity.
  - vm_compute. reflexivity.
  - discriminate.
  - intros u [<-|[]] _. reflexivity.
Defined.

Lemma X21_witness :
  Server.acks_to "sA"
    (Observe.new_output
       (Server.run Server.permissive_host
          [Server.Connection "sA" "r1" "alice" "10.0.0.1";
           Server.RouterReady "sA";
           Server.request "sA" (Server.CreateWebRtcTransportReq true)]
          (Server.initial 1))
       (Server.run Server.permissive_host
          [Server.request "sA" (Server.ProduceReq 1 "audio" "rtpA");
           Server.request "sA" (Server.StopRecording 2);
           Server.request "sA" (Server.StopRecording 2)]
          (Server.run Server.permissive_host
             [Server.Connection "sA" "r1" "alice" "10.0.0.1";
              Server.RouterReady "sA";
              Server.request "sA" (Server.CreateWebRtcTransportReq true)]
             (Server.initial 1))))
  = [Server.ProducerCreated 2; Server.Success;
     Server.ErrorPayload Server.RecordingNotFound].
Proof.
  refine (proj1
    (@X21_recording_is_stopped_once Server.permissive_host "sA"
       {| Server.conn_roomId := "r1"; Server.conn_peerId := "alice";
          Server.conn_clientIp := "10.0.0.1"; Server.conn_room := 0 |}
       1 1 "audio" "rtpA"
       (Server.run Server.permissive_host
          [Server.Connection "sA" "r1" "alice" "10.0.0.1";
           Server.RouterReady "sA";
           Server.request "sA" (Server.CreateWebRtcTransportReq true)]
          (Server.initial 1))
       _ _ _ _ _)); vm_compute; reflexivity.
Defined.

Lemma X23_witness :
  JsMap.has "alice"
    (Server.room_peers
       (Server.the_room
          {| Server.conn_roomId := "r1"; Server.conn_peerId := "alice";
             Server.conn_clientIp := "10.0.0.2"; Server.conn_room := 0 |}
          (Server.step Server.permissive_host (Server.Disconnect "s1")
             (Server.run Server.permissive_host
                [Server.Connection "s1" "r1" "alice" "10.0.0.1";
                 Server.RouterReady "s1";
                 Server.Connection "s2" "r1" "alice" "10.0.0.2"]
                (Server.initial 1)))))
  = false.
Proof.
  refine (proj1 (proj2
    (@X23_namesake_disconnect_hides_connected_peer Server.permissive_host 1
       [Server.Connection "s1" "r1" "alice" "10.0.0.1";
        Server.RouterReady "s1";
        Server.Connection "s2" "r1" "alice" "10.0.0.2"]
       "s1" "s2"
       {| Server.conn_roomId := "r1"; Server.conn_peerId := "alice";
          Server.conn_clientIp := "10.0.0.1"; Server.conn_room := 0 |}
       {| Server.conn_roomId := "r1"; Server.conn_peerId := "alice";
          Server.conn_clientIp := "10.0.0.2"; Server.conn_room := 0 |}
       _ _ _ _ _))).
  - discriminate.
  - vm_compute. reflexivity.
  - vm_compute. reflexivity.
  - reflexivity.
  - reflexivity.
Defined.

Lemma X24_witness :
  Observe.closed_on 1
    (Server.engine
       (Server.step Server.permissive_host (Server.Disconnect "sA")
                    Scenario.in_session)).
Proof.
  refine (proj1
    (@X24_disconnect_closes_the_peers_media Server.permissive_host "sA"
       {| Server.conn_roomId := "r1"; Server.conn_peerId := "alice";
          Server.conn_clientIp := "10.0.0.1"; Server.conn_room := 0 |}
       1 Scenario.in_session _ _)).
  - vm_compute. reflexivity.
  - vm_compute. left. reflexivity.
Defined.

Lemma X26_witness :
  exists roomUsers,
    Server.deliveries_to "sB"
      (Observe.new_output Scenario.in_session
         (Server.step Server.permissive_host
            (Server.request "sB" (Server.JoinRoom "bob" "Bob" "r1"))
            Scenario.in_session))
    = [Server.Users roomUsers] /\
    In {| Server.user_id := "bob"; Server.user_name := "Bob";
          Server.user_isSpeaking := false |} roomUsers.
Proof.
  destruct (@X26_joinRoom_lists_connected_peers Server.permissive_host 1
              Scenario.session "sB"
              {| Server.conn_roomId := "r1"; Server.conn_peerId := "bob";
                 Server.conn_clientIp := "10.0.0.2"; Server.conn_room := 0 |}
              "bob" "Bob" "r1")
    as (roomUsers & Hd & _ & _ & Hin).
  - vm_compute. reflexivity.
  - exists roomUsers. split; [exact Hd|]. apply Hin.
    vm_compute. reflexivity.
Defined.

